(** * Amazon listing optimizer: a shallow embedding of the backend core

    The development follows the JavaScript sources:
    - the scraper service ([AmazonScraper]: [isValidASIN],
      [extractBulletPoints]),
    - the generative engine ([GeminiOptimizer]: [rateLimitCheck],
      [optimizeProduct], [optimizeMultipleProducts],
      [calculateOptimizationScore]),
    - the route handlers (product fetch, optimize, history, feedback).

    JavaScript strings are sequences of UTF-16 code units; they are
    modelled as lists of code units so that [length], [trim], [split]
    and friends count exactly what the engine counts. *)

From Stdlib Require Import String Ascii.
From Stdlib Require Import ZArith NArith QArith Lia Bool List Permutation.
Import ListNotations.
Open Scope list_scope.
Open Scope nat_scope.

Set Implicit Arguments.
Set Warnings "-register-all".

(** ** JavaScript strings *)

Module Js.

Definition jsstring := list N.

(** An ASCII literal as a JavaScript string. *)
Definition js (s : string) : jsstring :=
  List.map N_of_ascii (list_ascii_of_string s).

(** [WhiteSpace] and [LineTerminator] code units, as used by
    [String.prototype.trim]. *)
Definition isWhiteSpace (c : N) : bool :=
  ((9 <=? c) && (c <=? 13) || (c =? 32) || (c =? 160) || (c =? 5760)
   || (8192 <=? c) && (c <=? 8202) || (c =? 8232) || (c =? 8233)
   || (c =? 8239) || (c =? 8287) || (c =? 12288) || (c =? 65279))%N.

Fixpoint trimStart (s : jsstring) : jsstring :=
  match s with
  | c :: r => if isWhiteSpace c then trimStart r else s
  | [] => []
  end.

Definition trimEnd (s : jsstring) : jsstring := rev (trimStart (rev s)).

(** [s.trim()] *)
Definition trim (s : jsstring) : jsstring := trimEnd (trimStart s).

(** [s.startsWith(p)] *)
Fixpoint startsWith (s p : jsstring) : bool :=
  match p, s with
  | [], _ => true
  | _ :: _, [] => false
  | a :: p', b :: s' => (a =? b)%N && startsWith s' p'
  end.

(** [s.endsWith(p)] *)
Definition endsWith (s p : jsstring) : bool := startsWith (rev s) (rev p).

(** [s.includes(p)] *)
Fixpoint includes (s p : jsstring) : bool :=
  startsWith s p ||
  match s with
  | [] => false
  | _ :: r => includes r p
  end.

(** [s.slice(start, end)], with the relative (negative) indices of
    ECMAScript clamped to the string. *)
Definition relIndex (len i : Z) : Z :=
  if (i <? 0)%Z then Z.max (len + i) 0 else Z.min i len.

Definition slice (s : jsstring) (from to : Z) : jsstring :=
  let len := Z.of_nat (length s) in
  let a := relIndex len from in
  let b := relIndex len to in
  firstn (Z.to_nat (b - a)) (skipn (Z.to_nat a) s).

(** [s.split(sep)] for a one-unit separator: never empty, the empty string
    splits into one empty piece. *)
Fixpoint split (sep : N) (s : jsstring) : list jsstring :=
  match s with
  | [] => [[]]
  | c :: r =>
      if (c =? sep)%N then [] :: split sep r
      else match split sep r with
           | p :: ps => (c :: p) :: ps
           | [] => [[c]]
           end
  end.

(** [a.join(sep)] on an array of strings. *)
Fixpoint join (sep : jsstring) (l : list jsstring) : jsstring :=
  match l with
  | [] => []
  | [x] => x
  | x :: r => x ++ sep ++ join sep r
  end.

Definition comma : N := 44.
Definition dquote : N := 34.
Definition squote : N := 39.
Definition lbracket : N := 91.
Definition rbracket : N := 93.

(** [k.replace(re, '')] where the global pattern [re] is the class of the
    single and the double quote character: every quote is removed. *)
Definition stripQuotes (s : jsstring) : jsstring :=
  filter (fun c => negb ((c =? squote) || (c =? dquote))%N) s.

(** A string is truthy when it is not empty. *)
Definition nonEmpty (s : jsstring) : bool :=
  match s with [] => false | _ => true end.

End Js.
Import Js.

(** ** JavaScript values (the JSON fragment plus [undefined]) *)

Inductive JsValue : Type :=
| JUndefined
| JNull
| JBool (b : bool)
| JNum (q : Q)
| JStr (s : jsstring)
| JArr (l : list JsValue)
| JObj (m : list (jsstring * JsValue)).

(** ** Identifier validator: [AmazonScraper.isValidASIN] *)

Definition isUpperOrDigit (c : N) : bool :=
  ((65 <=? c) && (c <=? 90) || (48 <=? c) && (c <=? 57))%N.

(** [/^[A-Z0-9]+$/.test(s)]: one or more units, all in the class. *)
Definition matchesUpperAlnum (s : jsstring) : bool :=
  nonEmpty s && forallb isUpperOrDigit s.

Definition isValidASIN (asin : JsValue) : bool :=
  match asin with
  | JStr s => (length s =? 10)%nat && matchesUpperAlnum s
  | _ => false
  end.

(** ** Bullet extraction: [AmazonScraper.extractBulletPoints]

    The loaded page is seen through the selector engine: a document maps a
    selector to the texts of the elements it matches, in document order. *)

Definition Document := jsstring -> list jsstring.

Definition disclaimer : jsstring := js "Make sure".
Definition minBulletLength : nat := 10.

(** The separator handed to [join]: a newline, the bullet sign U+2022 and a
    space. *)
Definition bulletSeparator : jsstring := [10; 8226; 32]%N.

(** The guard of both [each] callbacks, on the trimmed text. *)
Definition usableBullet (text : jsstring) : bool :=
  nonEmpty text && negb (includes text disclaimer)
  && (minBulletLength <? length text).

(** One [$(selector).each(...)] pass: the texts pushed by the callback. *)
Definition collectBullets (doc : Document) (selector : jsstring)
  : list jsstring :=
  filter usableBullet (List.map trim (doc selector)).

Definition primaryBulletSelector : jsstring :=
  js "#feature-bullets ul li span".
Definition alternativeBulletSelector : jsstring :=
  js ".a-unordered-list .a-list-item".

Definition extractBulletPoints (doc : Document) : option jsstring :=
  let bulletPoints := collectBullets doc primaryBulletSelector in
  let bulletPoints :=
    if length bulletPoints =? 0
    then bulletPoints ++ collectBullets doc alternativeBulletSelector
    else bulletPoints in
  if 0 <? length bulletPoints
  then Some (join bulletSeparator bulletPoints)
  else None.

(** ** Score calculator: [GeminiOptimizer.calculateOptimizationScore] *)

(** Listing content as the engine passes it around: [original] and
    [optimized] objects share the three text properties; a property that is
    [null] or missing is [None]. *)
Record Listing := {
  title : jsstring;
  bulletPoints : option jsstring;
  description : option jsstring;
  suggestedKeywords : option (list jsstring)
}.

Record ScoreResult := {
  score : nat;
  factors : list jsstring;
  maxScore : nat
}.

(** [x?.length || 0] *)
Definition lengthOrZero (x : option jsstring) : nat :=
  match x with Some s => length s | None => 0 end.

(** [x && x.length > n] for a string or [null]. *)
Definition longerThan (x : option jsstring) (n : nat) : bool :=
  match x with
  | Some s => nonEmpty s && (n <? length s)
  | None => false
  end.

(** [x && x.length >= n] for an array or [null]; an array is truthy. *)
Definition atLeast (x : option (list jsstring)) (n : nat) : bool :=
  match x with
  | Some l => n <=? length l
  | None => false
  end.

Definition titleLabel : jsstring := js "Enhanced title length".
Definition bulletLabel : jsstring := js "Improved bullet points".
Definition descriptionLabel : jsstring := js "Enhanced description".
Definition keywordLabel : jsstring := js "Added keyword strategy".

(** The four guards, in evaluation order. *)
Definition titleImproved (original optimized : Listing) : bool :=
  (length (title original) <? length (title optimized))
  && (length (title optimized) <=? 200).

Definition bulletsImproved (original optimized : Listing) : bool :=
  longerThan (bulletPoints optimized) (lengthOrZero (bulletPoints original)).

Definition descriptionImproved (original optimized : Listing) : bool :=
  longerThan (description optimized) (lengthOrZero (description original)).

Definition keywordsAdded (optimized : Listing) : bool :=
  atLeast (suggestedKeywords optimized) 3.

(** One [if (guard) { score += points; factors.push(label); }] block on
    the running pair. *)
Definition award (guard : bool) (points : nat) (label : jsstring)
  (acc : nat * list jsstring) : nat * list jsstring :=
  if guard then (fst acc + points, snd acc ++ [label]) else acc.

Definition calculateOptimizationScore (original optimized : Listing)
  : ScoreResult :=
  let acc := (0, []) in
  let acc := award (titleImproved original optimized) 20 titleLabel acc in
  let acc := award (bulletsImproved original optimized) 25 bulletLabel acc in
  let acc :=
    award (descriptionImproved original optimized) 25 descriptionLabel acc in
  let acc := award (keywordsAdded optimized) 30 keywordLabel acc in
  {| score := Nat.min (fst acc) 100; factors := snd acc; maxScore := 100 |}.

(** ** [JSON.parse]

    A recursive-descent reading of the JSON grammar (ECMA-404), as
    [JSON.parse] accepts it: four white-space units, the three literals,
    numbers, strings with escapes, arrays and objects.  Numbers are kept
    as the exact rational the literal denotes.  A repeated object key
    keeps its first position and takes the last value. *)

Module Json.

Inductive pres (A : Type) : Type :=
| POk (a : A) (rest : jsstring)
| PErr
| PFuel.
Arguments PErr {A}.
Arguments PFuel {A}.

Definition isJsonWs (c : N) : bool :=
  ((c =? 32) || (c =? 9) || (c =? 10) || (c =? 13))%N.

Fixpoint skipWs (s : jsstring) : jsstring :=
  match s with
  | c :: r => if isJsonWs c then skipWs r else s
  | [] => []
  end.

Definition isDigit (c : N) : bool := ((48 <=? c) && (c <=? 57))%N.

Definition hexVal (c : N) : option N :=
  if isDigit c then Some (c - 48)%N
  else if ((65 <=? c) && (c <=? 70))%N then Some (c - 55)%N
  else if ((97 <=? c) && (c <=? 102))%N then Some (c - 87)%N
  else None.

(** The unit denoted by a one-letter escape. *)
Definition escapeOf (c : N) : option N :=
  if (c =? 34)%N then Some 34%N
  else if (c =? 92)%N then Some 92%N
  else if (c =? 47)%N then Some 47%N
  else if (c =? 98)%N then Some 8%N
  else if (c =? 102)%N then Some 12%N
  else if (c =? 110)%N then Some 10%N
  else if (c =? 114)%N then Some 13%N
  else if (c =? 116)%N then Some 9%N
  else None.

Definition consTo (c : N) (r : option (jsstring * jsstring))
  : option (jsstring * jsstring) :=
  match r with
  | Some (str, rest) => Some (c :: str, rest)
  | None => None
  end.

(** The body of a string, after its opening quote: the decoded units and
    what follows the closing quote. *)
Fixpoint lexString (s : jsstring) : option (jsstring * jsstring) :=
  match s with
  | [] => None
  | c :: r =>
      if (c =? 34)%N then Some ([], r)
      else if (c =? 92)%N then
        match r with
        | [] => None
        | e :: r' =>
            if (e =? 117)%N then
              match r' with
              | h1 :: h2 :: h3 :: h4 :: r'' =>
                  match hexVal h1, hexVal h2, hexVal h3, hexVal h4 with
                  | Some a, Some b, Some c', Some d =>
                      consTo (((a * 16 + b) * 16 + c') * 16 + d)%N
                             (lexString r'')
                  | _, _, _, _ => None
                  end
              | _ => None
              end
            else
              match escapeOf e with
              | Some u => consTo u (lexString r')
              | None => None
              end
        end
      else if (c <? 32)%N then None
      else consTo c (lexString r)
  end.

(** A maximal run of decimal digits, as digit values. *)
Fixpoint takeDigits (s : jsstring) : list Z * jsstring :=
  match s with
  | c :: r =>
      if isDigit c
      then let (ds, rest) := takeDigits r in (Z.of_N (c - 48) :: ds, rest)
      else ([], s)
  | [] => ([], [])
  end.

Definition digitsValue (ds : list Z) : Z :=
  fold_left (fun acc d => acc * 10 + d)%Z ds 0%Z.

(** [m * 10 ^ e] as a rational. *)
Definition scale10 (m e : Z) : Q :=
  if (0 <=? e)%Z then Qmake (m * 10 ^ e) 1
  else Qmake m (Z.to_pos (10 ^ (- e))).

(** The integer part: a lone zero, or a non-zero digit and more digits. *)
Definition lexInt (s : jsstring) : option (list Z * jsstring) :=
  match s with
  | c :: r =>
      if (c =? 48)%N then Some ([0%Z], r)
      else if isDigit c then Some (takeDigits s)
      else None
  | [] => None
  end.

(** The optional fraction: the digits after the point. *)
Definition lexFrac (s : jsstring) : option (list Z * jsstring) :=
  match s with
  | c :: r =>
      if (c =? 46)%N then
        match takeDigits r with
        | ([], _) => None
        | (ds, rest) => Some (ds, rest)
        end
      else Some ([], s)
  | [] => Some ([], [])
  end.

(** The optional exponent, as a signed integer. *)
Definition lexExp (s : jsstring) : option (Z * jsstring) :=
  match s with
  | c :: r =>
      if ((c =? 101) || (c =? 69))%N then
        let (sign, r1) :=
          match r with
          | d :: r' =>
              if (d =? 45)%N then ((-1)%Z, r')
              else if (d =? 43)%N then (1%Z, r')
              else (1%Z, r)
          | [] => (1%Z, r)
          end in
        match takeDigits r1 with
        | ([], _) => None
        | (ds, rest) => Some ((sign * digitsValue ds)%Z, rest)
        end
      else Some (0%Z, s)
  | [] => Some (0%Z, [])
  end.

Definition lexNumber (s : jsstring) : option (Q * jsstring) :=
  let (sign, s1) :=
    match s with
    | c :: r => if (c =? 45)%N then ((-1)%Z, r) else (1%Z, s)
    | [] => (1%Z, s)
    end in
  match lexInt s1 with
  | None => None
  | Some (ids, s2) =>
      match lexFrac s2 with
      | None => None
      | Some (fds, s3) =>
          match lexExp s3 with
          | None => None
          | Some (e, s4) =>
              Some (scale10 (sign * digitsValue (ids ++ fds))
                            (e - Z.of_nat (length fds)), s4)
          end
      end
  end.

(** Property definition on the object under construction. *)
Fixpoint setMember (key : jsstring) (v : JsValue)
  (m : list (jsstring * JsValue)) : list (jsstring * JsValue) :=
  match m with
  | [] => [(key, v)]
  | (k, w) :: r =>
      if list_eq_dec N.eq_dec k key then (k, v) :: r
      else (k, w) :: setMember key v r
  end.

Fixpoint parseValue (fuel : nat) (s : jsstring) : pres JsValue :=
  match fuel with
  | 0 => PFuel
  | S fuel' =>
      match skipWs s with
      | [] => PErr
      | c :: r =>
          if (c =? 34)%N then
            match lexString r with
            | Some (str, rest) => POk (JStr str) rest
            | None => PErr
            end
          else if (c =? 91)%N then
            match skipWs r with
            | d :: r' =>
                if (d =? 93)%N then POk (JArr []) r'
                else parseElements fuel' r []
            | [] => PErr
            end
          else if (c =? 123)%N then
            match skipWs r with
            | d :: r' =>
                if (d =? 125)%N then POk (JObj []) r'
                else parseMembers fuel' r []
            | [] => PErr
            end
          else if startsWith (c :: r) (js "true")
          then POk (JBool true) (skipn 4 (c :: r))
          else if startsWith (c :: r) (js "false")
          then POk (JBool false) (skipn 5 (c :: r))
          else if startsWith (c :: r) (js "null")
          then POk JNull (skipn 4 (c :: r))
          else
            match lexNumber (c :: r) with
            | Some (q, rest) => POk (JNum q) rest
            | None => PErr
            end
      end
  end

with parseElements (fuel : nat) (s : jsstring) (acc : list JsValue)
  : pres JsValue :=
  match fuel with
  | 0 => PFuel
  | S fuel' =>
      match parseValue fuel' s with
      | POk v rest =>
          match skipWs rest with
          | d :: r' =>
              if (d =? 44)%N then parseElements fuel' r' (acc ++ [v])
              else if (d =? 93)%N then POk (JArr (acc ++ [v])) r'
              else PErr
          | [] => PErr
          end
      | PErr => PErr
      | PFuel => PFuel
      end
  end

with parseMembers (fuel : nat) (s : jsstring)
  (acc : list (jsstring * JsValue)) : pres JsValue :=
  match fuel with
  | 0 => PFuel
  | S fuel' =>
      match skipWs s with
      | c :: r =>
          if (c =? 34)%N then
            match lexString r with
            | Some (key, rest) =>
                match skipWs rest with
                | d :: r' =>
                    if (d =? 58)%N then
                      match parseValue fuel' r' with
                      | POk v rest' =>
                          match skipWs rest' with
                          | e :: r'' =>
                              if (e =? 44)%N
                              then parseMembers fuel' r'' (setMember key v acc)
                              else if (e =? 125)%N
                              then POk (JObj (setMember key v acc)) r''
                              else PErr
                          | [] => PErr
                          end
                      | PErr => PErr
                      | PFuel => PFuel
                      end
                    else PErr
                | [] => PErr
                end
            | None => PErr
            end
          else PErr
      | [] => PErr
      end
  end.

(** Fuel that the descent never exhausts on [s]. *)
Definition fuelFor (s : jsstring) : nat := 2 * length s + 2.

(** [JSON.parse(text)]: [None] stands for the thrown [SyntaxError]. *)
Definition parse (text : jsstring) : option JsValue :=
  match parseValue (fuelFor text) text with
  | POk v rest =>
      match skipWs rest with
      | [] => Some v
      | _ :: _ => None
      end
  | _ => None
  end.

End Json.

(** ** Stored keyword payloads and their recovery

    The [suggested_keywords] column is read back as SQL [NULL], as a text,
    or, when the driver decodes the JSON column, as an array of strings. *)

Inductive Payload : Type :=
| PayNull
| PayText (s : jsstring)
| PayList (l : list jsstring).

(** Truthiness of the payload: [null] and the empty text are falsy, an
    array is truthy. *)
Definition payloadTruthy (raw : Payload) : bool :=
  match raw with
  | PayNull => false
  | PayText s => nonEmpty s
  | PayList _ => true
  end.

(** [String(raw)]: an array prints its elements joined by commas. *)
Definition payloadString (raw : Payload) : jsstring :=
  match raw with
  | PayNull => js "null"
  | PayText s => s
  | PayList l => join [comma] l
  end.

Definition bracketed (s : jsstring) : bool :=
  startsWith s [lbracket] && endsWith s [rbracket].

Definition strings (l : list jsstring) : JsValue := JArr (List.map JStr l).

(** The parser of the cached branch of [POST /api/optimize/:asin]. *)
Definition cachedSuggestedKeywords (raw : Payload) : JsValue :=
  let keywordsString :=
    if payloadTruthy raw then payloadString raw else js "[]" in
  match Json.parse keywordsString with
  | Some v => v
  | None =>
      let keywordsString :=
        if payloadTruthy raw then payloadString raw else [] in
      if nonEmpty keywordsString then
        if bracketed keywordsString then
          match Json.parse keywordsString with
          | Some v => v
          | None =>
              strings
                (filter nonEmpty
                   (List.map (fun k => stripQuotes (trim k))
                      (split comma (slice keywordsString 1 (-1)))))
          end
        else if includes keywordsString [comma] then
          strings (filter nonEmpty (List.map trim (split comma keywordsString)))
        else if nonEmpty (trim keywordsString) then
          strings [trim keywordsString]
        else strings []
      else strings []
  end.

(** The parser of [formattedHistory] in [GET /api/history]; the same
    code serves [GET /api/history/:asin].  [JSON.parse] coerces its
    argument to text; the fallback only looks at genuine strings. *)
Definition historySuggestedKeywords (raw : Payload) : JsValue :=
  match Json.parse (if payloadTruthy raw then payloadString raw else js "[]")
  with
  | Some v => v
  | None =>
      match raw with
      | PayText s =>
          if nonEmpty s then
            if bracketed s then
              strings (List.map (fun k => stripQuotes (trim k))
                         (split comma (slice s 1 (-1))))
            else strings (List.map trim (split comma s))
          else strings []
      | _ => strings []
      end
  end.

(** *** The resolution order, worded twice

    The value as a sequence of strings, when it is an array of strings. *)
Definition asStrings (v : JsValue) : option (list jsstring) :=
  match v with
  | JArr l =>
      fold_right
        (fun x acc =>
           match x, acc with
           | JStr s, Some r => Some (s :: r)
           | _, _ => None
           end) (Some []) l
  | _ => None
  end.

(** The payload coerced to text; [null] gives the empty text. *)
Definition payloadText (raw : Payload) : jsstring :=
  match raw with
  | PayNull => []
  | _ => payloadString raw
  end.

(** The five steps as the specification words them: the canonical decode
    is that of an array of strings, and the pieces of steps 2 and 3 are
    kept as they are. *)
Definition statedParseKeywords (raw : Payload) : list jsstring :=
  let text := payloadText raw in
  match match Json.parse text with Some v => asStrings v | None => None end
  with
  | Some l => l
  | None =>
      if bracketed text then
        List.map (fun k => stripQuotes (trim k)) (split comma (slice text 1 (-1)))
      else if includes text [comma] then List.map trim (split comma text)
      else if nonEmpty (trim text) then [trim text]
      else []
  end.

(** The five steps as the optimize route takes them: whatever the decode
    yields is the result, and empty pieces are dropped in steps 2 and 3. *)
Definition resolvedParseKeywords (raw : Payload) : JsValue :=
  let text := if payloadTruthy raw then payloadString raw else [] in
  match Json.parse (if nonEmpty text then text else js "[]") with
  | Some v => v
  | None =>
      if bracketed text then
        strings (filter nonEmpty
                   (List.map (fun k => stripQuotes (trim k))
                      (split comma (slice text 1 (-1)))))
      else if includes text [comma] then
        strings (filter nonEmpty (List.map trim (split comma text)))
      else if nonEmpty (trim text) then strings [trim text]
      else strings []
  end.

(** ** The process and its environment

    Handlers are state transformers on a [World]: the wall clock, the one
    [GeminiOptimizer] instance, the four tables, and a trace of what left
    the process.  What the environment answers is fixed by three oracles:
    the reply of the generative service to the n-th request, the failure
    (if any) of the n-th database query, and the outcome of the n-th page
    scrape.  It also fixes the SQL mode of the database server, which the
    code never sets: strict (the server's default), or not. *)

Inductive Outcome (A : Type) : Type :=
| Returned (a : A)
| Thrown (message : jsstring).
Arguments Thrown {A}.

(** The four methods that call the generative service. *)
Inductive Call :=
| optimizeTitle
| optimizeBulletPoints
| optimizeDescription
| generateKeywords.

(** A reply of [model.generateContent]: the response text or the message
    of the error, and the time the service takes to answer. *)
Record Reply := {
  answer : Outcome jsstring;
  latency : Z
}.

Module Scraped.
Record t := {
  asin : jsstring;
  title : jsstring;
  bulletPoints : option jsstring;
  description : option jsstring;
  imageUrl : option jsstring;
  price : option jsstring;
  availability : jsstring;
  rating : option Q;
  reviewCount : option Z;
  category : option jsstring;
  brand : option jsstring
}.
End Scraped.

Record Env := {
  modelReply : nat -> Reply;
  dbFault : nat -> option jsstring;
  strictSql : bool;
  scrape : nat -> jsstring -> Outcome Scraped.t
}.

(** The mutable fields of the [GeminiOptimizer] instance. *)
Record Optimizer := {
  requestCount : nat;
  lastRequestTime : Z
}.

Definition minRequestInterval : Z := 1000.

Inductive Event :=
| EvFetch (asin : jsstring)               (* the scraper requests a page *)
| EvDispatch (at_ : Z) (call : Call)     (* [generateContent] is issued *)
| EvTimeout (ms : Z).                     (* the batch loop sleeps *)

(** Rows of the four tables, columns as in the schema. *)
Record ProductRow := {
  p_id : nat;
  p_asin : jsstring;
  p_title : jsstring;
  p_bullet_points : option jsstring;
  p_description : option jsstring;
  p_image_url : option jsstring;
  p_price : option jsstring;
  p_availability : jsstring;
  p_rating : option Q;
  p_review_count : option Z;
  p_created_at : Z;
  p_updated_at : Z
}.

Record Metadata := {
  optimizationTime : Z;
  modelUsed : jsstring;
  metaRequestCount : nat;
  timestamp : Z
}.

Record OptimizationRow := {
  o_id : nat;
  o_product_id : nat;
  o_asin : jsstring;
  optimized_title : jsstring;
  optimized_bullet_points : option jsstring;
  optimized_description : option jsstring;
  suggested_keywords : Payload;
  optimization_score : nat;
  gemini_model : jsstring;
  optimization_metadata : Metadata;
  o_created_at : Z
}.

Record FeedbackData := {
  fb_rating : JsValue;
  fb_comments : JsValue;
  fb_helpful : JsValue;
  fb_improvements : JsValue;
  fb_timestamp : Z
}.

Record HistoryRow := {
  h_asin : jsstring;
  h_optimization_id : nat;
  h_action_type : jsstring;
  h_user_feedback : option FeedbackData;
  h_created_at : Z
}.

Record KeywordRow := {
  k_asin : jsstring;
  k_keyword : jsstring;
  k_source : jsstring;
  k_created_at : Z;
  k_updated_at : Z
}.

Record Database := {
  products : list ProductRow;
  optimizations : list OptimizationRow;
  optimization_history : list HistoryRow;
  keyword_tracking : list KeywordRow
}.

Record World := {
  env : Env;
  clock : Z;
  optimizer : Optimizer;
  db : Database;
  queries : nat;
  fetches : nat;
  trace : list Event
}.

Definition setClock (t : Z) (w : World) : World :=
  {| env := env w; clock := t; optimizer := optimizer w; db := db w;
     queries := queries w; fetches := fetches w; trace := trace w |}.

Definition setOptimizer (o : Optimizer) (w : World) : World :=
  {| env := env w; clock := clock w; optimizer := o; db := db w;
     queries := queries w; fetches := fetches w; trace := trace w |}.

Definition setDb (d : Database) (w : World) : World :=
  {| env := env w; clock := clock w; optimizer := optimizer w; db := d;
     queries := queries w; fetches := fetches w; trace := trace w |}.

Definition countQuery (w : World) : World :=
  {| env := env w; clock := clock w; optimizer := optimizer w; db := db w;
     queries := S (queries w); fetches := fetches w; trace := trace w |}.

Definition countFetch (w : World) : World :=
  {| env := env w; clock := clock w; optimizer := optimizer w; db := db w;
     queries := queries w; fetches := S (fetches w); trace := trace w |}.

Definition emit (e : Event) (w : World) : World :=
  {| env := env w; clock := clock w; optimizer := optimizer w; db := db w;
     queries := queries w; fetches := fetches w; trace := trace w ++ [e] |}.

(** *** The monad of handlers: state, and exceptions carrying a message *)

Definition M (A : Type) : Type := World -> Outcome A * World.

Definition ret {A} (a : A) : M A := fun w => (Returned a, w).

Definition throw {A} (message : jsstring) : M A :=
  fun w => (Thrown message, w).

Definition bind {A B} (c : M A) (k : A -> M B) : M B :=
  fun w =>
    match c w with
    | (Returned a, w') => k a w'
    | (Thrown m, w') => (Thrown m, w')
    end.

(** [try { c } catch (error) { handler(error.message) }] *)
Definition tryCatch {A} (c : M A) (handler : jsstring -> M A) : M A :=
  fun w =>
    match c w with
    | (Returned a, w') => (Returned a, w')
    | (Thrown m, w') => handler m w'
    end.

Definition getWorld : M World := fun w => (Returned w, w).

Definition modify (f : World -> World) : M unit :=
  fun w => (Returned tt, f w).

Declare Scope handler_scope.
Delimit Scope handler_scope with handler.
Notation "x <- c ;; k" := (bind c (fun x => k))
  (at level 61, c at next level, right associativity) : handler_scope.
Notation "c ;; k" := (bind c (fun _ => k))
  (at level 61, right associativity) : handler_scope.
Open Scope handler_scope.

(** ** The generative engine: [GeminiOptimizer] *)

(** [setTimeout] fires after the given delay; a delay below one
    millisecond or above the 32-bit range is taken as one millisecond. *)
Definition timerDelay (ms : Z) : Z :=
  if ((ms <? 1) || (2147483647 <? ms))%Z then 1%Z else ms.

(** [rateLimitCheck] up to its suspension point: the time to wait, when
    the last request is too recent. *)
Definition rateLimitWait (now : Z) (o : Optimizer) : option Z :=
  if (now - lastRequestTime o <? minRequestInterval)%Z
  then Some (minRequestInterval - (now - lastRequestTime o))%Z
  else None.

(** Its last two statements, run at time [now]. *)
Definition rateLimitStamp (now : Z) (o : Optimizer) : Optimizer :=
  {| requestCount := S (requestCount o); lastRequestTime := now |}.

(** [rateLimitCheck], entered at time [now]: it either runs to its end,
    stamping the instance, or suspends on a timer for the time computed,
    leaving the stamp for when it wakes. *)
Definition rateLimitCheck (now : Z) (o : Optimizer) : Optimizer + Z :=
  match rateLimitWait now o with
  | Some waitTime => inr waitTime
  | None => inl (rateLimitStamp now o)
  end.

(** The four calls in the order of the array given to [Promise.all]. *)
Definition callOrder : list Call :=
  [optimizeTitle; optimizeBulletPoints; optimizeDescription; generateKeywords].

(** A call that has run its synchronous prefix: it resumes at [s_resume],
    and has its request number when it did not have to wait. *)
Record Started := {
  s_call : Call;
  s_resume : Z;
  s_request : option nat
}.

(** The synchronous prefix of one call, at time [now]: either the check
    passes and stamps the instance, or a timer is set and the instance is
    left as it is. *)
Definition startCall (now : Z) (o : Optimizer) (c : Call)
  : Optimizer * Started :=
  match rateLimitCheck now o with
  | inr waitTime =>
      (o, {| s_call := c; s_resume := (now + timerDelay waitTime)%Z;
             s_request := None |})
  | inl o' =>
      (o', {| s_call := c; s_resume := now;
              s_request := Some (requestCount o) |})
  end.

Fixpoint startCalls (now : Z) (o : Optimizer) (cs : list Call)
  : Optimizer * list Started :=
  match cs with
  | [] => (o, [])
  | c :: r =>
      let (o1, s) := startCall now o c in
      let (o2, ss) := startCalls now o1 r in
      (o2, s :: ss)
  end.

(** The event loop resumes calls by due time, first set first. *)
Fixpoint enqueue (s : Started) (q : list Started) : list Started :=
  match q with
  | [] => [s]
  | x :: r =>
      if (s_resume s <? s_resume x)%Z then s :: x :: r
      else x :: enqueue s r
  end.

Definition schedule (l : list Started) : list Started :=
  fold_left (fun q s => enqueue s q) l [].

Record Dispatched := {
  d_call : Call;
  d_at : Z;
  d_request : nat
}.

(** A resumed call finishes [rateLimitCheck] (stamping the instance at the
    time it wakes, if it waited) and issues its request. *)
Definition resumeCall (o : Optimizer) (s : Started)
  : Optimizer * Dispatched :=
  match s_request s with
  | Some n =>
      (o, {| d_call := s_call s; d_at := s_resume s; d_request := n |})
  | None =>
      (rateLimitStamp (s_resume s) o,
       {| d_call := s_call s; d_at := s_resume s;
          d_request := requestCount o |})
  end.

Fixpoint resumeCalls (o : Optimizer) (q : list Started)
  : Optimizer * list Dispatched :=
  match q with
  | [] => (o, [])
  | s :: r =>
      let (o1, d) := resumeCall o s in
      let (o2, ds) := resumeCalls o1 r in
      (o2, d :: ds)
  end.

(** The requests of one [Promise.all], in the order they are issued. *)
Definition dispatchCalls (now : Z) (o : Optimizer)
  : Optimizer * list Dispatched :=
  let (o1, started) := startCalls now o callOrder in
  resumeCalls o1 (schedule started).

(** What each call makes of the response text. *)
Definition stripWrappingQuotes (s : jsstring) : jsstring :=
  let s1 := match s with
            | c :: r => if (c =? dquote)%N then r else s
            | [] => []
            end in
  match rev s1 with
  | c :: r => if (c =? dquote)%N then rev r else s1
  | [] => []
  end.

Definition keywordsOf (text : jsstring) : list jsstring :=
  firstn 5 (filter nonEmpty (List.map trim (split comma (trim text)))).

Definition failurePrefix (c : Call) : jsstring :=
  match c with
  | optimizeTitle => js "Title optimization failed: "
  | optimizeBulletPoints => js "Bullet points optimization failed: "
  | optimizeDescription => js "Description optimization failed: "
  | generateKeywords => js "Keyword generation failed: "
  end.

(** A call once the service has answered: when, and with what. *)
Record Settled := {
  st_call : Call;
  st_done : Z;
  st_answer : Outcome jsstring
}.

Definition settle (e : Env) (d : Dispatched) : Settled :=
  let r := modelReply e (d_request d) in
  {| st_call := d_call d; st_done := (d_at d + latency r)%Z;
     st_answer := answer r |}.

(** The first call to reject, if any: [Promise.all] rejects with it. *)
Definition firstRejection (l : list Settled) : option (Z * jsstring) :=
  fold_left
    (fun best s =>
       match st_answer s with
       | Returned _ => best
       | Thrown m =>
           match best with
           | Some (t, _) =>
               if (st_done s <? t)%Z
               then Some (st_done s, failurePrefix (st_call s) ++ m)
               else best
           | None => Some (st_done s, failurePrefix (st_call s) ++ m)
           end
       end) l None.

Definition fieldEq (a b : Call) : bool :=
  match a, b with
  | optimizeTitle, optimizeTitle | optimizeBulletPoints, optimizeBulletPoints
  | optimizeDescription, optimizeDescription | generateKeywords, generateKeywords => true
  | _, _ => false
  end.

(** The response text of a fulfilled call. *)
Definition textOf (c : Call) (l : list Settled) : jsstring :=
  match find (fun s => fieldEq (st_call s) c) l with
  | Some s => match st_answer s with Returned t => t | Thrown _ => [] end
  | None => []
  end.

Definition lastDone (l : list Settled) (from : Z) : Z :=
  fold_left (fun t s => Z.max t (st_done s)) l from.

Module ProductData.
Record t := {
  asin : jsstring;
  title : jsstring;
  bulletPoints : option jsstring;
  description : option jsstring;
  category : option jsstring;
  brand : option jsstring
}.
End ProductData.

Record OptimizationResult := {
  r_asin : jsstring;
  original : Listing;
  optimized : Listing;
  metadata : Metadata
}.

Definition modelName : jsstring := js "gemini-2.0-flash-exp".

(** [optimizeProduct]: the four calls are started together; each checks
    the rate limit, is issued when its check completes, and the result is
    assembled once all have answered.  Replies are taken to arrive after
    the last request of the group has been issued, so that no timer of the
    group is pending when the promise settles. *)
Definition optimizeProduct (productData : ProductData.t)
  : M OptimizationResult :=
  fun w =>
    let startTime := clock w in
    let (o, ds) := dispatchCalls startTime (optimizer w) in
    let w1 :=
      fold_left (fun w d => emit (EvDispatch (d_at d) (d_call d)) w) ds
                (setOptimizer o w) in
    let settled := List.map (settle (env w)) ds in
    match firstRejection settled with
    | Some (t, m) =>
        (Thrown (js "AI optimization failed: " ++ m), setClock t w1)
    | None =>
        let finish := lastDone settled startTime in
        (Returned
           {| r_asin := ProductData.asin productData;
              original :=
                {| title := ProductData.title productData;
                   bulletPoints := ProductData.bulletPoints productData;
                   description := ProductData.description productData;
                   suggestedKeywords := None |};
              optimized :=
                {| title := stripWrappingQuotes (trim (textOf optimizeTitle settled));
                   bulletPoints := Some (trim (textOf optimizeBulletPoints settled));
                   description := Some (trim (textOf optimizeDescription settled));
                   suggestedKeywords :=
                     Some (keywordsOf (textOf generateKeywords settled)) |};
              metadata :=
                {| optimizationTime := (finish - startTime)%Z;
                   modelUsed := modelName;
                   metaRequestCount := 4;
                   timestamp := finish |} |},
         setClock finish w1)
    end.

(** [optimizeMultipleProducts] *)

Record BatchFailure := {
  bf_asin : jsstring;
  bf_error : jsstring;
  bf_timestamp : Z
}.

Record Summary := {
  total : nat;
  sm_successful : nat;
  sm_failed : nat
}.

Record BatchResult := {
  successful : list OptimizationResult;
  failed : list BatchFailure;
  totalRequests : nat;
  summary : Summary
}.

(** [await new Promise(resolve => setTimeout(resolve, ms))] *)
Definition sleep (ms : Z) : M unit :=
  modify (fun w => emit (EvTimeout ms) (setClock (clock w + timerDelay ms)%Z w)).

Definition isNil {A} (l : list A) : bool :=
  match l with [] => true | _ => false end.

(** The [for] loop, from index [i] on: [products] is what is left of the
    array, [results] and [errors] are the two accumulators. *)
Fixpoint batchLoop (delayBetweenBatches : Z) (products : list ProductData.t)
  (results : list OptimizationResult) (errors : list BatchFailure)
  : M (list OptimizationResult * list BatchFailure) :=
  match products with
  | [] => ret (results, errors)
  | p :: rest =>
      acc <- tryCatch
               (result <- optimizeProduct p ;;
                (if isNil rest then ret tt else sleep delayBetweenBatches) ;;
                ret (results ++ [result], errors))
               (fun message =>
                  w <- getWorld ;;
                  ret (results,
                       errors ++ [{| bf_asin := ProductData.asin p;
                                     bf_error := message;
                                     bf_timestamp := clock w |}])) ;;
      batchLoop delayBetweenBatches rest (fst acc) (snd acc)
  end.

Definition defaultDelayBetweenBatches : Z := 5000.

Definition optimizeMultipleProducts (products : list ProductData.t)
  (options : option Z) : M BatchResult :=
  let delayBetweenBatches :=
    match options with Some d => d | None => defaultDelayBetweenBatches end in
  acc <- batchLoop delayBetweenBatches products [] [] ;;
  w <- getWorld ;;
  ret {| successful := fst acc;
         failed := snd acc;
         totalRequests := requestCount (optimizer w);
         summary := {| total := length products;
                       sm_successful := length (fst acc);
                       sm_failed := length (snd acc) |} |}.

(** ** The record store: [executeQuery]

    Every query is numbered; the environment may make it fail, in which
    case the promise rejects with the driver's message and the tables are
    left as they are.  Statements are autocommitted one by one: no handler
    opens a transaction. *)

Definition executeQuery {A} (run : World -> A * World) : M A :=
  fun w =>
    let w1 := countQuery w in
    match dbFault (env w) (queries w) with
    | Some message => (Thrown message, w1)
    | None => let (a, w2) := run w1 in (Returned a, w2)
    end.

(** The look-ups below compare texts unit by unit.  The tables are
    declared with a collation that ignores case; between identifiers made
    of capital letters and digits, and between the literal texts the code
    itself passes, the two comparisons agree. *)
Definition sameText (a b : jsstring) : bool :=
  if list_eq_dec N.eq_dec a b then true else false.

(** [ORDER BY key DESC LIMIT 1] *)
Definition latestBy {A} (key : A -> Z) (l : list A) : option A :=
  fold_left
    (fun best x =>
       match best with
       | None => Some x
       | Some b => if (key b <? key x)%Z then Some x else best
       end) l None.

(** [SELECT * FROM products WHERE asin = ? ORDER BY updated_at DESC LIMIT 1] *)
Definition selectProduct (asin : jsstring) : M (option ProductRow) :=
  executeQuery (fun w =>
    (latestBy p_updated_at
       (filter (fun p => sameText (p_asin p) asin) (products (db w))), w)).

Definition oneHour : Z := 3600000.

(** [SELECT * FROM optimizations WHERE asin = ? AND created_at >
    DATE_SUB(NOW(), INTERVAL 1 HOUR) ORDER BY created_at DESC LIMIT 1] *)
Definition selectRecentOptimization (asin : jsstring)
  : M (option OptimizationRow) :=
  executeQuery (fun w =>
    (latestBy o_created_at
       (filter (fun o => sameText (o_asin o) asin
                         && (clock w - oneHour <? o_created_at o)%Z)
               (optimizations (db w))), w)).

(** [SELECT asin FROM optimizations WHERE id = ?] *)
Definition selectOptimizationAsin (id : nat) : M (list jsstring) :=
  executeQuery (fun w =>
    (List.map o_asin
       (filter (fun o => o_id o =? id) (optimizations (db w))), w)).

Definition nextId {A} (id : A -> nat) (l : list A) : nat :=
  S (fold_left (fun m x => Nat.max m (id x)) l 0).

(** [INSERT INTO optimizations (...) VALUES (...)]; the result carries
    [insertId].  The JSON column holds the array that was serialised. *)
Definition insertOptimization (productId : nat) (asin : jsstring)
  (optimized : Listing) (score : nat) (model : jsstring) (meta : Metadata)
  : M nat :=
  executeQuery (fun w =>
    let d := db w in
    let id := nextId o_id (optimizations d) in
    let row :=
      {| o_id := id; o_product_id := productId; o_asin := asin;
         optimized_title := title optimized;
         optimized_bullet_points := bulletPoints optimized;
         optimized_description := description optimized;
         suggested_keywords :=
           match suggestedKeywords optimized with
           | Some l => PayList l
           | None => PayNull
           end;
         optimization_score := score;
         gemini_model := model;
         optimization_metadata := meta;
         o_created_at := clock w |} in
    (id,
     setDb {| products := products d;
              optimizations := optimizations d ++ [row];
              optimization_history := optimization_history d;
              keyword_tracking := keyword_tracking d |} w)).

(** The column [action_type] of [optimization_history] is declared
    [ENUM('created', 'updated', 'viewed')] by [createTables]. *)
Definition actionTypes : list jsstring :=
  [js "created"; js "updated"; js "viewed"].

(** The server's message for a value that the column does not list. *)
Definition enumRefusal : jsstring :=
  js "Data truncated for column 'action_type' at row 1".

(** The row is appended to the log, with the given action type. *)
Definition appendHistory (asin : jsstring) (optimizationId : nat)
  (actionType : jsstring) (feedback : option FeedbackData) (w : World)
  : unit * World :=
  let d := db w in
  let row :=
    {| h_asin := asin; h_optimization_id := optimizationId;
       h_action_type := actionType; h_user_feedback := feedback;
       h_created_at := clock w |} in
  (tt,
   setDb {| products := products d;
            optimizations := optimizations d;
            optimization_history := optimization_history d ++ [row];
            keyword_tracking := keyword_tracking d |} w).

(** [INSERT INTO optimization_history (asin, optimization_id, action_type
    [, user_feedback]) VALUES (...)].  A listed action type is stored as
    it is.  Any other one is outside the column's enumeration: a strict
    server refuses the statement and the promise rejects; a server that is
    not strict stores the row with the empty text in that column. *)
Definition insertHistory (asin : jsstring) (optimizationId : nat)
  (actionType : jsstring) (feedback : option FeedbackData) : M unit :=
  if existsb (sameText actionType) actionTypes then
    executeQuery (appendHistory asin optimizationId actionType feedback)
  else
    fun w =>
      if strictSql (env w) then
        match dbFault (env w) (queries w) with
        | Some message => (Thrown message, countQuery w)
        | None => (Thrown enumRefusal, countQuery w)
        end
      else executeQuery (appendHistory asin optimizationId [] feedback) w.

Definition keyOf (asin keyword : jsstring) (k : KeywordRow) : bool :=
  sameText (k_asin k) asin && sameText (k_keyword k) keyword.

(** [INSERT INTO keyword_tracking (asin, keyword, source) VALUES (?, ?, ?)
    ON DUPLICATE KEY UPDATE updated_at = CURRENT_TIMESTAMP] *)
Definition upsertKeyword (asin keyword source : jsstring) : M unit :=
  executeQuery (fun w =>
    let d := db w in
    let rows := keyword_tracking d in
    let rows' :=
      if existsb (keyOf asin keyword) rows then
        List.map (fun k =>
               if keyOf asin keyword k then
                 {| k_asin := k_asin k; k_keyword := k_keyword k;
                    k_source := k_source k; k_created_at := k_created_at k;
                    k_updated_at := clock w |}
               else k) rows
      else rows ++ [{| k_asin := asin; k_keyword := keyword;
                       k_source := source; k_created_at := clock w;
                       k_updated_at := clock w |}] in
    (tt,
     setDb {| products := products d;
              optimizations := optimizations d;
              optimization_history := optimization_history d;
              keyword_tracking := rows' |} w)).

(** [INSERT INTO products (...) VALUES (...) ON DUPLICATE KEY UPDATE ...,
    updated_at = CURRENT_TIMESTAMP] *)
Definition upsertProduct (data : Scraped.t) : M unit :=
  executeQuery (fun w =>
    let d := db w in
    let rows := products d in
    let fill (id : nat) (created : Z) :=
      {| p_id := id; p_asin := Scraped.asin data;
         p_title := Scraped.title data;
         p_bullet_points := Scraped.bulletPoints data;
         p_description := Scraped.description data;
         p_image_url := Scraped.imageUrl data;
         p_price := Scraped.price data;
         p_availability := Scraped.availability data;
         p_rating := Scraped.rating data;
         p_review_count := Scraped.reviewCount data;
         p_created_at := created; p_updated_at := clock w |} in
    let hit := fun p => sameText (p_asin p) (Scraped.asin data) in
    let rows' :=
      if existsb hit rows then
        List.map (fun p => if hit p then fill (p_id p) (p_created_at p) else p)
                 rows
      else rows ++ [fill (nextId p_id rows) (clock w)] in
    (tt,
     setDb {| products := rows';
              optimizations := optimizations d;
              optimization_history := optimization_history d;
              keyword_tracking := keyword_tracking d |} w)).

(** ** The scraper call

    [scraper.fetchProductDetails(asin)]: the page request leaves a trace;
    what comes back (the extracted record, or the message of the error
    thrown) is the environment's. *)
Definition fetchProductDetails (asin : jsstring) : M Scraped.t :=
  fun w =>
    let w1 := emit (EvFetch asin) (countFetch w) in
    (scrape (env w) (fetches w) asin, w1).

(** ** Route handlers *)

Inductive Body :=
| ErrorBody (error : jsstring) (message : option jsstring)
| ProductBody (data : Scraped.t) (source : jsstring) (lastUpdated : Z)
| CachedOptimizationBody (asin : jsstring) (original : Listing)
    (optTitle : jsstring) (optBulletPoints optDescription : option jsstring)
    (keywords : JsValue) (optimizationScore : nat) (createdAt : Z)
    (source : jsstring)
| FreshOptimizationBody (asin : jsstring) (original optimized : Listing)
    (optimizationScore : nat) (scoreFactors : list jsstring)
    (meta : Metadata) (source : jsstring)
| FeedbackBody (success : bool) (message : jsstring) (feedback : FeedbackData).

Record Response := {
  status : nat;
  body : Body
}.

Definition json (b : Body) : M Response :=
  ret {| status := 200; body := b |}.

Definition fail (code : nat) (error : jsstring) (message : option jsstring)
  : M Response :=
  ret {| status := code; body := ErrorBody error message |}.

Definition oneDay : Z := 24 * 60 * 60 * 1000.

(** [GET /api/products/:asin] *)
Definition getProduct (asin : jsstring) : M Response :=
  tryCatch
    (if negb (isValidASIN (JStr asin)) then
       fail 400 (js "Invalid ASIN format")
            (Some (js "ASIN must be a 10-character alphanumeric string"))
     else
       existingProduct <- selectProduct asin ;;
       w <- getWorld ;;
       let twentyFourHoursAgo := (clock w - oneDay)%Z in
       let fresh :=
         data <- fetchProductDetails asin ;;
         upsertProduct data ;;
         w' <- getWorld ;;
         json (ProductBody data (js "fresh") (clock w')) in
       match existingProduct with
       | Some product =>
           if (twentyFourHoursAgo <? p_updated_at product)%Z then
             json (ProductBody
                     {| Scraped.asin := p_asin product;
                        Scraped.title := p_title product;
                        Scraped.bulletPoints := p_bullet_points product;
                        Scraped.description := p_description product;
                        Scraped.imageUrl := p_image_url product;
                        Scraped.price := p_price product;
                        Scraped.availability := p_availability product;
                        Scraped.rating := p_rating product;
                        Scraped.reviewCount := p_review_count product;
                        Scraped.category := None;
                        Scraped.brand := None |}
                     (js "cached") (p_updated_at product))
           else fresh
       | None => fresh
       end)
    (fun message =>
       if includes message (js "Invalid ASIN") then
         fail 400 message None
       else if includes message (js "not found") then
         fail 404 message None
       else fail 500 (js "Failed to fetch product data") (Some message)).

(** The loop storing the suggested keywords. *)
Fixpoint storeKeywords (asin : jsstring) (keywords : list jsstring) : M unit :=
  match keywords with
  | [] => ret tt
  | keyword :: rest =>
      upsertKeyword asin keyword (js "suggested") ;;
      storeKeywords asin rest
  end.

(** [POST /api/optimize/:asin] *)
Definition optimizeRoute (asin : jsstring) : M Response :=
  tryCatch
    (productResult <- selectProduct asin ;;
     match productResult with
     | None =>
         fail 404 (js "Product not found")
              (Some (js "Please fetch the product data first before optimizing"))
     | Some product =>
         let productData :=
           {| ProductData.asin := p_asin product;
              ProductData.title := p_title product;
              ProductData.bulletPoints := p_bullet_points product;
              ProductData.description := p_description product;
              ProductData.category := None;
              ProductData.brand := None |} in
         recentOptimization <- selectRecentOptimization asin ;;
         match recentOptimization with
         | Some opt =>
             json (CachedOptimizationBody (o_asin opt)
                     {| title := p_title product;
                        bulletPoints := p_bullet_points product;
                        description := p_description product;
                        suggestedKeywords := None |}
                     (optimized_title opt) (optimized_bullet_points opt)
                     (optimized_description opt)
                     (cachedSuggestedKeywords (suggested_keywords opt))
                     (optimization_score opt) (o_created_at opt)
                     (js "cached"))
         | None =>
             optimizationResult <- optimizeProduct productData ;;
             let scoreResult :=
               calculateOptimizationScore (original optimizationResult)
                                          (optimized optimizationResult) in
             optimizationId <-
               insertOptimization (p_id product) asin
                 (optimized optimizationResult) (score scoreResult)
                 (modelUsed (metadata optimizationResult))
                 (metadata optimizationResult) ;;
             insertHistory asin optimizationId (js "created") None ;;
             storeKeywords asin
               (match suggestedKeywords (optimized optimizationResult) with
                | Some l => l
                | None => []
                end) ;;
             json (FreshOptimizationBody asin
                     (original optimizationResult)
                     (optimized optimizationResult)
                     (score scoreResult) (factors scoreResult)
                     (metadata optimizationResult) (js "fresh"))
         end
     end)
    (fun message =>
       if includes message (js "API") then
         fail 503 (js "AI service unavailable")
              (Some (js "Gemini AI service is temporarily unavailable. Please try again later."))
       else fail 500 (js "Optimization failed") (Some message)).

(** Truthiness and [||] on values. *)
Definition truthy (v : JsValue) : bool :=
  match v with
  | JUndefined | JNull => false
  | JBool b => b
  | JNum q => negb (Qeq_bool q 0)
  | JStr s => nonEmpty s
  | JArr _ | JObj _ => true
  end.

Definition orElse (v d : JsValue) : JsValue := if truthy v then v else d.

(** [v.key] on a value that is not [null] or [undefined]. *)
Definition getProp (v : JsValue) (key : jsstring) : JsValue :=
  match v with
  | JObj m =>
      match find (fun kv => sameText (fst kv) key) m with
      | Some kv => snd kv
      | None => JUndefined
      end
  | _ => JUndefined
  end.

(** [typeof rating !== 'number' || rating < 1 || rating > 5] *)
Definition ratingRefused (rating : JsValue) : bool :=
  match rating with
  | JNum q => negb (Qle_bool 1 q) || negb (Qle_bool q 5)
  | _ => true
  end.

(** [POST /api/history/:optimizationId/feedback]; the path segment is
    taken as the row id it denotes, the three values are the properties
    [feedback], [rating] and [comments] of the request body. *)
Definition submitFeedback (optimizationId : nat)
  (feedback rating comments : JsValue) : M Response :=
  tryCatch
    (if negb (truthy feedback) || ratingRefused rating then
       fail 400 (js "Invalid feedback data")
            (Some (js "Rating must be between 1 and 5, and feedback is required"))
     else
       optimizationResult <- selectOptimizationAsin optimizationId ;;
       match optimizationResult with
       | [] =>
           fail 404 (js "Optimization not found")
                (Some (js "The specified optimization does not exist"))
       | asin :: _ =>
           w <- getWorld ;;
           let feedbackData :=
             {| fb_rating := rating;
                fb_comments := orElse comments (JStr []);
                fb_helpful := orElse (getProp feedback (js "helpful"))
                                     (JBool false);
                fb_improvements :=
                  orElse (getProp feedback (js "improvements")) (JArr []);
                fb_timestamp := clock w |} in
           insertHistory asin optimizationId (js "feedback")
                         (Some feedbackData) ;;
           json (FeedbackBody true (js "Feedback added successfully")
                              feedbackData)
       end)
    (fun message =>
       fail 500 (js "Failed to add feedback") (Some message)).

(** ** Reference formulations used by the statements below *)

(** The filter in the specification's words: an item is kept when it does
    not contain the disclaimer fragment and is longer than the threshold. *)
Definition keptBullet (text : jsstring) : bool :=
  negb (includes text (js "Make sure")) && (10 <? length text).

(** The field in the specification's words: the first item, then every
    further item on a line of its own, after a bullet sign (U+2022) and a
    space. *)
Definition bulletLine (item : jsstring) : jsstring :=
  [10; 8226; 32]%N ++ item.

Definition bulletText (items : list jsstring) : jsstring :=
  match items with
  | [] => []
  | first :: others => first ++ concat (List.map bulletLine others)
  end.

(** The four scoring rules in the specification's words; a missing text
    counts as the empty text, a missing keyword list as the empty list. *)
Definition missingAsEmpty (x : option jsstring) : jsstring :=
  match x with Some s => s | None => [] end.

Definition titleRule (original generated : Listing) : bool :=
  (length (title original) <? length (title generated))
  && (length (title generated) <=? 200).

Definition bulletRule (original generated : Listing) : bool :=
  length (missingAsEmpty (bulletPoints original))
  <? length (missingAsEmpty (bulletPoints generated)).

Definition descriptionRule (original generated : Listing) : bool :=
  length (missingAsEmpty (description original))
  <? length (missingAsEmpty (description generated)).

Definition keywordRule (generated : Listing) : bool :=
  3 <=? length (match suggestedKeywords generated with
                | Some l => l
                | None => []
                end).

Definition ruleSum (original generated : Listing) : nat :=
  (if titleRule original generated then 20 else 0)
  + (if bulletRule original generated then 25 else 0)
  + (if descriptionRule original generated then 25 else 0)
  + (if keywordRule generated then 30 else 0).

Definition ruleLabels (original generated : Listing) : list jsstring :=
  (if titleRule original generated then [titleLabel] else [])
  ++ (if bulletRule original generated then [bulletLabel] else [])
  ++ (if descriptionRule original generated then [descriptionLabel] else [])
  ++ (if keywordRule generated then [keywordLabel] else []).

(** The point value a factor label stands for. *)
Definition labelPoints (label : jsstring) : nat :=
  if list_eq_dec N.eq_dec label titleLabel then 20
  else if list_eq_dec N.eq_dec label bulletLabel then 25
  else if list_eq_dec N.eq_dec label descriptionLabel then 25
  else if list_eq_dec N.eq_dec label keywordLabel then 30
  else 0.

(** A string literal of JSON: the text between double quotes. *)
Definition quoted (s : jsstring) : jsstring := dquote :: s ++ [dquote].

(** The canonical encoding of the two keywords [a] and [b]. *)
Definition canonicalAB : jsstring :=
  [lbracket] ++ quoted (js "a") ++ [comma] ++ quoted (js "b") ++ [rbracket].

(** A rating the feedback route lets through: a number from 1 to 5. *)
Definition acceptableRating (rating : JsValue) : Prop :=
  exists q : Q, rating = JNum q /\ (1 <= q)%Q /\ (q <= 5)%Q.

(** A rating in the specification's words: an integer from 1 to 5. *)
Definition integerRating (rating : JsValue) : Prop :=
  exists n : Z, rating = JNum (inject_Z n) /\ (1 <= n <= 5)%Z.

Definition invalidFeedback : Response :=
  {| status := 400;
     body := ErrorBody (js "Invalid feedback data")
               (Some (js "Rating must be between 1 and 5, and feedback is required")) |}.

Definition optimizationNotFound : Response :=
  {| status := 404;
     body := ErrorBody (js "Optimization not found")
               (Some (js "The specified optimization does not exist")) |}.

Definition feedbackFailed (message : jsstring) : Response :=
  {| status := 500;
     body := ErrorBody (js "Failed to add feedback") (Some message) |}.

(** The trace events of a group of requests. *)
Definition dispatchEvents (ds : list Dispatched) : list Event :=
  List.map (fun d => EvDispatch (d_at d) (d_call d)) ds.

(** What the two look-ups of the routes find in a given world. *)
Definition storedProduct (w : World) (asin : jsstring) : option ProductRow :=
  latestBy p_updated_at
    (filter (fun p => sameText (p_asin p) asin) (products (db w))).

Definition recentOptimization (w : World) (asin : jsstring)
  : option OptimizationRow :=
  latestBy o_created_at
    (filter (fun o => sameText (o_asin o) asin
                      && (clock w - oneHour <? o_created_at o)%Z)
            (optimizations (db w))).


Definition productDataOf (product : ProductRow) : ProductData.t :=
  {| ProductData.asin := p_asin product;
     ProductData.title := p_title product;
     ProductData.bulletPoints := p_bullet_points product;
     ProductData.description := p_description product;
     ProductData.category := None;
     ProductData.brand := None |}.


Definition keywordsOfResult (r : OptimizationResult) : list jsstring :=
  match suggestedKeywords (optimized r) with
  | Some l => l
  | None => []
  end.

(** The row and the log entry written for a generation result. *)
Definition optimizationRowOf (product : ProductRow) (asin : jsstring)
  (r : OptimizationResult) (id : nat) (now : Z) : OptimizationRow :=
  {| o_id := id; o_product_id := p_id product; o_asin := asin;
     optimized_title := title (optimized r);
     optimized_bullet_points := bulletPoints (optimized r);
     optimized_description := description (optimized r);
     suggested_keywords :=
       match suggestedKeywords (optimized r) with
       | Some l => PayList l
       | None => PayNull
       end;
     optimization_score :=
       score (calculateOptimizationScore (original r) (optimized r));
     gemini_model := modelUsed (metadata r);
     optimization_metadata := metadata r;
     o_created_at := now |}.

Definition createdEntry (asin : jsstring) (id : nat) (now : Z) : HistoryRow :=
  {| h_asin := asin; h_optimization_id := id;
     h_action_type := js "created"; h_user_feedback := None;
     h_created_at := now |}.

Definition serviceUnavailable : Response :=
  {| status := 503;
     body := ErrorBody (js "AI service unavailable")
               (Some (js "Gemini AI service is temporarily unavailable. Please try again later.")) |}.

Definition optimizationFailed (message : jsstring) : Response :=
  {| status := 500;
     body := ErrorBody (js "Optimization failed") (Some message) |}.

(** Two worlds that differ at most in the keyword table and in the count
    of queries. *)
Definition sameButKeywords (w w' : World) : Prop :=
  env w' = env w /\ clock w' = clock w /\ optimizer w' = optimizer w /\
  fetches w' = fetches w /\ trace w' = trace w /\
  products (db w') = products (db w) /\
  optimizations (db w') = optimizations (db w) /\
  optimization_history (db w') = optimization_history (db w).

(** The [catch] block of the optimize route, and the part of its [try]
    block that follows a successful generation. *)
Definition optimizeFailure (message : jsstring) : M Response :=
  if includes message (js "API") then
    fail 503 (js "AI service unavailable")
         (Some (js "Gemini AI service is temporarily unavailable. Please try again later."))
  else fail 500 (js "Optimization failed") (Some message).

Definition freshResponse (asin : jsstring) (r : OptimizationResult)
  : Response :=
  {| status := 200;
     body := FreshOptimizationBody asin (original r) (optimized r)
               (score (calculateOptimizationScore (original r) (optimized r)))
               (factors (calculateOptimizationScore (original r) (optimized r)))
               (metadata r) (js "fresh") |}.

Definition persistAndRespond (product : ProductRow) (asin : jsstring)
  (r : OptimizationResult) : M Response :=
  optimizationId <-
    insertOptimization (p_id product) asin (optimized r)
      (score (calculateOptimizationScore (original r) (optimized r)))
      (modelUsed (metadata r)) (metadata r) ;;
  insertHistory asin optimizationId (js "created") None ;;
  storeKeywords asin (keywordsOfResult r) ;;
  ret (freshResponse asin r).

Definition failureResponse (message : jsstring) : Response :=
  if includes message (js "API") then serviceUnavailable
  else optimizationFailed message.

(** The world once the optimization row and its log entry are written. *)
Definition recorded (product : ProductRow) (asin : jsstring)
  (r : OptimizationResult) (w : World) : World :=
  let id := nextId o_id (optimizations (db w)) in
  {| env := env w; clock := clock w; optimizer := optimizer w;
     db := {| products := products (db w);
              optimizations :=
                optimizations (db w)
                ++ [optimizationRowOf product asin r id (clock w)];
              optimization_history :=
                optimization_history (db w)
                ++ [createdEntry asin id (clock w)];
              keyword_tracking := keyword_tracking (db w) |};
     queries := S (S (queries w)); fetches := fetches w;
     trace := trace w |}.

(** The fetch-and-store tail of the product route and its [catch] block. *)
Definition fetchAndStore (asin : jsstring) : M Response :=
  data <- fetchProductDetails asin ;;
  upsertProduct data ;;
  w' <- getWorld ;;
  json (ProductBody data (js "fresh") (clock w')).

Definition productFailure (message : jsstring) : M Response :=
  if includes message (js "Invalid ASIN") then fail 400 message None
  else if includes message (js "not found") then fail 404 message None
  else fail 500 (js "Failed to fetch product data") (Some message).

(** The sleeps of the batch loop recorded in a trace. *)
Fixpoint timeouts (tr : list Event) : list Z :=
  match tr with
  | [] => []
  | EvTimeout ms :: r => ms :: timeouts r
  | _ :: r => timeouts r
  end.

(** The world after the sleep that follows a successful record. *)
Definition afterSleep (ms : Z) (w : World) : World :=
  emit (EvTimeout ms) (setClock (clock w + timerDelay ms)%Z w).

Definition delayOf (options : option Z) : Z :=
  match options with Some d => d | None => defaultDelayBetweenBatches end.

(** The outcome of one record of a batch: optimized, or failed. *)
Definition completes {A} (r : Outcome A) : bool :=
  match r with
  | Returned _ => true
  | Thrown _ => false
  end.



(** No rejection of the group that starts in [w] reaches the process
    before the last request of the group has been issued: the promise of
    [optimizeProduct] does not settle while a call still waits in
    [rateLimitCheck]. *)
Definition rejectionsAfterDispatch (w : World) : bool :=
  let ds := snd (dispatchCalls (clock w) (optimizer w)) in
  forallb
    (fun d =>
       completes (st_answer (settle (env w) d))
       || forallb (fun d' => (d_at d' <? st_done (settle (env w) d))%Z) ds)
    ds.

(** Every rejection of the service takes longer than the interval the
    rate limit keeps between requests. *)
Definition slowRejections (e : Env) : Prop :=
  forall n : nat,
    completes (answer (modelReply e n)) = false ->
    (minRequestInterval < latency (modelReply e n))%Z.

(** ** Sample worlds *)

Definition sampleReply : jsstring :=
  js "Echo Dot smart speaker, Alexa voice control, compact design, balanced bass".

Definition sampleEnv (failingRequests failingQueries : list nat)
  (page : Outcome Scraped.t) : Env :=
  {| modelReply := fun n =>
       {| answer := if existsb (Nat.eqb n) failingRequests
                    then Thrown (js "429 Too Many Requests")
                    else Returned sampleReply;
          latency := 1500 |};
     dbFault := fun n =>
       if existsb (Nat.eqb n) failingQueries
       then Some (js "Lock wait timeout exceeded")
       else None;
     strictSql := true;
     scrape := fun _ _ => page |}.

(** The same environment with the server's SQL mode chosen. *)
Definition withSqlMode (strict : bool) (e : Env) : Env :=
  {| modelReply := modelReply e; dbFault := dbFault e; strictSql := strict;
     scrape := scrape e |}.

Definition echoDot : jsstring := js "B08N5WRWNW".

Definition sampleProduct (asin : jsstring) : ProductData.t :=
  {| ProductData.asin := asin;
     ProductData.title := js "Echo Dot (4th Gen)";
     ProductData.bulletPoints := Some (js "Meet the all-new Echo Dot");
     ProductData.description := Some (js "Our most compact smart speaker");
     ProductData.category := None;
     ProductData.brand := None |}.

Definition sampleRow (updatedAt : Z) : ProductRow :=
  {| p_id := 1; p_asin := echoDot;
     p_title := js "Echo Dot (4th Gen)";
     p_bullet_points := Some (js "Meet the all-new Echo Dot");
     p_description := Some (js "Our most compact smart speaker");
     p_image_url := None; p_price := Some (js "$49.99");
     p_availability := js "In Stock";
     p_rating := None; p_review_count := Some 89543%Z;
     p_created_at := 0; p_updated_at := updatedAt |}.

Definition samplePage : Scraped.t :=
  {| Scraped.asin := echoDot;
     Scraped.title := js "Echo Dot (4th Gen) | Smart speaker with Alexa";
     Scraped.bulletPoints := None; Scraped.description := None;
     Scraped.imageUrl := None; Scraped.price := None;
     Scraped.availability := js "Unknown";
     Scraped.rating := None; Scraped.reviewCount := None;
     Scraped.category := None; Scraped.brand := None |}.

Definition sampleOptimization (createdAt : Z) : OptimizationRow :=
  {| o_id := 1; o_product_id := 1; o_asin := echoDot;
     optimized_title := js "Echo Dot (4th Gen) Smart Speaker with Alexa";
     optimized_bullet_points := Some (js "Crisp vocals and balanced bass");
     optimized_description := Some (js "Compact smart speaker");
     suggested_keywords := PayList [js "echo dot"; js "smart speaker"];
     optimization_score := 75;
     gemini_model := modelName;
     optimization_metadata :=
       {| optimizationTime := 2500; modelUsed := modelName;
          metaRequestCount := 4; timestamp := createdAt |};
     o_created_at := createdAt |}.

Definition sampleWorld (e : Env) (now : Z) (ps : list ProductRow)
  (os : list OptimizationRow) : World :=
  {| env := e; clock := now;
     optimizer := {| requestCount := 0; lastRequestTime := 0 |};
     db := {| products := ps; optimizations := os;
              optimization_history := []; keyword_tracking := [] |};
     queries := 0; fetches := 0; trace := [] |}.

Definition hours (n : Z) : Z := (n * 3600000)%Z.

(** A reference instant, in milliseconds since the epoch. *)
Definition epoch0 : Z := 1700000000000.

Definition fiveProducts : list ProductData.t :=
  List.map sampleProduct
    [js "B000000001"; js "B000000002"; js "B000000003"; js "B000000004";
     js "B000000005"].


(** An engine that has never been used, at the reference instant, with a
    service that rejects the listed requests. *)
Definition engineWorld (failingRequests : list nat) : World :=
  sampleWorld (sampleEnv failingRequests [] (Thrown [])) epoch0 [] [].

(** Worlds for the scenarios: one stored product updated [age]
    milliseconds before the reference instant, optionally one optimization
    created [optAge] milliseconds before it; the listed queries fail. *)
Definition storeWorld (age : Z) (optAge : option Z) (failingQueries : list nat)
  : World :=
  sampleWorld (sampleEnv [] failingQueries (Returned samplePage)) epoch0
    [sampleRow (epoch0 - age)]
    (match optAge with
     | Some a => [sampleOptimization (epoch0 - a)]
     | None => []
     end).

(** The same world behind a server that is not in strict mode. *)
Definition lenient (w : World) : World :=
  {| env := withSqlMode false (env w); clock := clock w;
     optimizer := optimizer w; db := db w; queries := queries w;
     fetches := fetches w; trace := trace w |}.


Definition statusOf (r : Outcome Response) : nat :=
  match r with
  | Returned resp => status resp
  | Thrown _ => 0
  end.

(** The feedback record the route builds from the request body. *)
Definition feedbackDataOf (feedback rating comments : JsValue) (now : Z)
  : FeedbackData :=
  {| fb_rating := rating;
     fb_comments := orElse comments (JStr []);
     fb_helpful := orElse (getProp feedback (js "helpful")) (JBool false);
     fb_improvements :=
       orElse (getProp feedback (js "improvements")) (JArr []);
     fb_timestamp := now |}.

(** ** [JSON.stringify] on an array of strings

    Each string is quoted: the double quote, the backslash and the
    control characters are escaped (five of them by a letter, the others
    by four hexadecimal digits in lower case), and so is a surrogate that
    is not part of a pair; every other unit stands for itself.  The
    elements are separated by commas, without spaces. *)

Definition hexDigit (n : N) : N :=
  if (n <? 10)%N then (48 + n)%N else (87 + n)%N.

Definition unicodeEscape (c : N) : jsstring :=
  [92; 117; hexDigit (c / 4096); hexDigit ((c / 256) mod 16);
   hexDigit ((c / 16) mod 16); hexDigit (c mod 16)]%N.

Definition isHighSurrogate (c : N) : bool :=
  ((55296 <=? c) && (c <=? 56319))%N.

Definition isLowSurrogate (c : N) : bool :=
  ((56320 <=? c) && (c <=? 57343))%N.

(** The letter of a one-letter escape. *)
Definition shortEscape (c : N) : option N :=
  if (c =? 8)%N then Some 98%N
  else if (c =? 9)%N then Some 116%N
  else if (c =? 10)%N then Some 110%N
  else if (c =? 12)%N then Some 102%N
  else if (c =? 13)%N then Some 114%N
  else if (c =? 34)%N then Some 34%N
  else if (c =? 92)%N then Some 92%N
  else None.

Fixpoint quoteBody (s : jsstring) : jsstring :=
  match s with
  | [] => []
  | c :: r =>
      match shortEscape c with
      | Some e => 92%N :: e :: quoteBody r
      | None =>
          if (c <? 32)%N then unicodeEscape c ++ quoteBody r
          else if isHighSurrogate c then
            match r with
            | d :: r' =>
                if isLowSurrogate d then c :: d :: quoteBody r'
                else unicodeEscape c ++ quoteBody r
            | [] => unicodeEscape c
            end
          else if isLowSurrogate c then unicodeEscape c ++ quoteBody r
          else c :: quoteBody r
      end
  end.

Definition quoteJSONString (s : jsstring) : jsstring :=
  dquote :: quoteBody s ++ [dquote].

(** [JSON.stringify(keywords)] *)
Definition stringify (keywords : list jsstring) : jsstring :=
  [lbracket] ++ join [comma] (List.map quoteJSONString keywords)
  ++ [rbracket].

(** ** The repair script: [debugKeywords]

    What the script writes back for a row: the payload coerced to text is
    split on commas when it has one (pieces trimmed, freed of quotes,
    empty ones dropped), kept as a single keyword when it is not blank,
    and the result is serialised as a JSON array. *)
Definition fixedKeywords (raw : Payload) : jsstring :=
  let keywordsString := if payloadTruthy raw then payloadString raw else [] in
  if includes keywordsString [comma] then
    stringify
      (filter nonEmpty
         (List.map (fun k => stripQuotes (trim k))
                   (split comma keywordsString)))
  else if 0 <? length (trim keywordsString) then
    stringify [trim keywordsString]
  else stringify [].

(** ** Pagination of the list routes

    [GET /api/products], [GET /api/history] and [GET /api/history/:asin]
    compute their page window with the same expressions and differ in the
    default and the cap of the page size only.  Numbers are kept as
    integers, which is exact below 2^53. *)

(** The value of a digit in base sixteen. *)
Definition digitOf (c : N) : option Z :=
  if ((48 <=? c) && (c <=? 57))%N then Some (Z.of_N c - 48)%Z
  else if ((97 <=? c) && (c <=? 102))%N then Some (Z.of_N c - 87)%Z
  else if ((65 <=? c) && (c <=? 70))%N then Some (Z.of_N c - 55)%Z
  else None.

(** The longest prefix of digits of the base, as a number; [None] when
    there is no digit. *)
Fixpoint digitsOf (radix : Z) (acc : option Z) (s : jsstring) : option Z :=
  match s with
  | c :: r =>
      match digitOf c with
      | Some d =>
          if (d <? radix)%Z
          then digitsOf radix
                 (Some (match acc with Some a => a | None => 0 end * radix + d))
                 r
          else acc
      | None => acc
      end
  | [] => acc
  end%Z.

(** [parseInt(s)] without a radix: leading white space, a sign, the
    prefix [0x] for base sixteen, then as many digits as there are;
    [None] is [NaN]. *)
Definition parseInt (s : jsstring) : option Z :=
  let s := trimStart s in
  let '(sign, s) :=
    match s with
    | c :: r => if (c =? 45)%N then ((-1)%Z, r)
                else if (c =? 43)%N then (1%Z, r) else (1%Z, s)
    | [] => (1%Z, s)
    end in
  let '(radix, s) :=
    match s with
    | a :: b :: r =>
        if ((a =? 48) && ((b =? 120) || (b =? 88)))%N then (16%Z, r)
        else (10%Z, s)
    | _ => (10%Z, s)
    end in
  match digitsOf radix None s with
  | Some n => Some (sign * n)%Z
  | None => None
  end.

(** [parseInt(req.query.name)]: a parameter that is not given is
    [undefined], which does not parse. *)
Definition parseIntQuery (q : option jsstring) : option Z :=
  match q with
  | Some s => parseInt s
  | None => None
  end.

(** [n || d] on a number: [NaN] and zero give way to [d]. *)
Definition orDefault (n : option Z) (d : Z) : Z :=
  match n with
  | Some v => if (v =? 0)%Z then d else v
  | None => d
  end.

Definition pageOf (pageQuery : option jsstring) : Z :=
  orDefault (parseIntQuery pageQuery) 1.

Definition limitOf (defaultLimit cap : Z) (limitQuery : option jsstring) : Z :=
  Z.min (orDefault (parseIntQuery limitQuery) defaultLimit) cap.

Definition offsetOf (page limit : Z) : Z := ((page - 1) * limit)%Z.

(** [Math.ceil(a / b)] *)
Definition ceilDiv (a b : Z) : Z := (- ((- a) / b))%Z.

Record Pagination := {
  currentPage : Z;
  totalPages : Z;
  totalItems : Z;
  itemsPerPage : Z;
  hasNextPage : bool;
  hasPrevPage : bool
}.

Definition paginationOf (page limit total : Z) : Pagination :=
  let totalPages := ceilDiv total limit in
  {| currentPage := page;
     totalPages := totalPages;
     totalItems := total;
     itemsPerPage := limit;
     hasNextPage := (page <? totalPages)%Z;
     hasPrevPage := (1 <? page)%Z |}.

(** ** The route tables

    A router tries its routes in the order of their registration and runs
    the first one whose method and path pattern match; none of the
    handlers passes the request on.  A request path is taken as its
    segments; a parameter matches any one segment, a literal matches a
    segment up to the case of its letters. *)

Inductive Method := GET | POST.

Inductive Segment :=
| Lit (text : jsstring)
| Param (name : jsstring).

Inductive Handler :=
| ProductGet | ProductBatch | ProductList
| HistoryByAsin | HistoryList | HistoryFeedback | HistoryTrends
| OptimizeOne | OptimizeBatch | OptimizeStats.

Record Route := {
  r_method : Method;
  r_path : list Segment;
  r_handler : Handler
}.

Definition sameMethod (a b : Method) : bool :=
  match a, b with
  | GET, GET | POST, POST => true
  | _, _ => false
  end.

Definition lowerUnit (c : N) : N :=
  if ((65 <=? c) && (c <=? 90))%N then (c + 32)%N else c.

Definition sameTextNoCase (a b : jsstring) : bool :=
  sameText (List.map lowerUnit a) (List.map lowerUnit b).

(** The values of the parameters, in the order of the pattern, when the
    path matches it. *)
Fixpoint matchPath (pattern : list Segment) (path : list jsstring)
  : option (list (jsstring * jsstring)) :=
  match pattern, path with
  | [], [] => Some []
  | Lit text :: pattern', segment :: path' =>
      if sameTextNoCase text segment then matchPath pattern' path' else None
  | Param name :: pattern', segment :: path' =>
      match matchPath pattern' path' with
      | Some params => Some ((name, segment) :: params)
      | None => None
      end
  | _, _ => None
  end.

Fixpoint dispatch (routes : list Route) (method : Method)
  (path : list jsstring) : option (Handler * list (jsstring * jsstring)) :=
  match routes with
  | [] => None
  | route :: rest =>
      if sameMethod (r_method route) method then
        match matchPath (r_path route) path with
        | Some params => Some (r_handler route, params)
        | None => dispatch rest method path
        end
      else dispatch rest method path
  end.

(** [routes/productRoutes.js] *)
Definition productRoutes : list Route :=
  [ {| r_method := GET; r_path := [Param (js "asin")];
       r_handler := ProductGet |};
    {| r_method := POST; r_path := [Lit (js "batch")];
       r_handler := ProductBatch |};
    {| r_method := GET; r_path := []; r_handler := ProductList |} ].

(** [routes/historyRoutes.js] *)
Definition historyRoutes : list Route :=
  [ {| r_method := GET; r_path := [Param (js "asin")];
       r_handler := HistoryByAsin |};
    {| r_method := GET; r_path := []; r_handler := HistoryList |};
    {| r_method := POST;
       r_path := [Param (js "optimizationId"); Lit (js "feedback")];
       r_handler := HistoryFeedback |};
    {| r_method := GET; r_path := [Lit (js "analytics"); Lit (js "trends")];
       r_handler := HistoryTrends |} ].

(** [routes/optimizationRoutes.js] *)
Definition optimizationRoutes : list Route :=
  [ {| r_method := POST; r_path := [Param (js "asin")];
       r_handler := OptimizeOne |};
    {| r_method := POST; r_path := [Lit (js "batch")];
       r_handler := OptimizeBatch |};
    {| r_method := GET; r_path := [Lit (js "stats")];
       r_handler := OptimizeStats |} ].

(** A handler is reachable in a table when some request is dispatched to
    it. *)
Definition reachable (routes : list Route) (h : Handler) : Prop :=
  exists method path params, dispatch routes method path = Some (h, params).

(** ** The scraper in detail: [AmazonScraper]

    A loaded page is seen through the selector engine: a selector gives
    the elements it matches, in document order, each with its text and
    its attributes. *)

Record Element := {
  e_text : jsstring;
  e_attrs : list (jsstring * jsstring)
}.

Definition Page := jsstring -> list Element.

(** [$(selector).text()]: the texts of the matched elements, combined. *)
Definition textOfAll (elements : list Element) : jsstring :=
  concat (List.map e_text elements).

(** [$(selector).attr(name)]: the attribute of the first matched
    element. *)
Definition attrOf (elements : list Element) (name : jsstring)
  : option jsstring :=
  match elements with
  | [] => None
  | e :: _ =>
      match find (fun kv => sameText (fst kv) name) (e_attrs e) with
      | Some kv => Some (snd kv)
      | None => None
      end
  end.

(** The page as [extractBulletPoints] reads it. *)
Definition documentOf (page : Page) : Document :=
  fun selector => List.map e_text (page selector).

(** The loop shared by the extractors: the trimmed text of the first
    selector for which it is accepted. *)
Fixpoint firstAccepted (accept : jsstring -> bool)
  (texts : list jsstring) : option jsstring :=
  match texts with
  | [] => None
  | text :: rest =>
      if accept (trim text) then Some (trim text)
      else firstAccepted accept rest
  end.

Definition titleSelectors : list jsstring :=
  [js "#productTitle"; js ".product-title"; js "#btAsinTitle";
   js ".a-size-large.product-title-word-break"].

Definition extractTitle (page : Page) : option jsstring :=
  firstAccepted nonEmpty
    (List.map (fun selector => textOfAll (page selector)) titleSelectors).

Definition descriptionSelectors : list jsstring :=
  [js "#productDescription p"; js "#feature-bullets .a-list-item";
   js ".product-description"; js "#aplus .aplus-p1"].

Definition extractDescription (page : Page) : option jsstring :=
  firstAccepted (fun d => nonEmpty d && (50 <? length d))
    (List.map (fun selector => textOfAll (page selector))
              descriptionSelectors).

Definition imageSelectors : list jsstring :=
  [js "#landingImage"; js ".a-dynamic-image"; js "#imgBlkFront"].

(** [a || b] on attribute values: an absent or empty one gives way. *)
Definition orAttr (a b : option jsstring) : option jsstring :=
  match a with
  | Some s => if nonEmpty s then a else b
  | None => b
  end.

Fixpoint firstImage (page : Page) (selectors : list jsstring)
  : option jsstring :=
  match selectors with
  | [] => None
  | selector :: rest =>
      match orAttr (attrOf (page selector) (js "src"))
                   (attrOf (page selector) (js "data-src")) with
      | Some src => if nonEmpty src then Some src else firstImage page rest
      | None => firstImage page rest
      end
  end.

Definition extractImageUrl (page : Page) : option jsstring :=
  firstImage page imageSelectors.

Definition priceSelectors : list jsstring :=
  [js ".a-price .a-offscreen"; js "#priceblock_dealprice";
   js "#priceblock_ourprice"; js ".a-price-whole";
   js ".a-price-symbol + .a-price-whole"].

(** [$(selector).first().text()] *)
Definition firstElementText (elements : list Element) : jsstring :=
  match elements with
  | [] => []
  | e :: _ => e_text e
  end.

Definition extractPrice (page : Page) : option jsstring :=
  firstAccepted nonEmpty
    (List.map (fun selector => firstElementText (page selector))
              priceSelectors).

Definition availabilitySelectors : list jsstring :=
  [js "#availability span"; js ".a-color-success"; js ".a-color-error";
   js "#merchant-info"].

Definition extractAvailability (page : Page) : jsstring :=
  match firstAccepted
          (fun a => nonEmpty a
                    && (includes a (js "stock") || includes a (js "Available")))
          (List.map (fun selector => textOfAll (page selector))
                    availabilitySelectors) with
  | Some availability => availability
  | None => js "Unknown"
  end.

Definition isDigit (c : N) : bool := ((48 <=? c) && (c <=? 57))%N.

(** The digits at the head of a text, and what follows them. *)
Fixpoint spanDigits (s : jsstring) : jsstring * jsstring :=
  match s with
  | c :: r =>
      if isDigit c then let (d, rest) := spanDigits r in (c :: d, rest)
      else ([], s)
  | [] => ([], [])
  end.

(** A match of the rating pattern at the head of the text (digits, a
    point or none, digits or none, then the words [ out of 5]): the digits
    before and after the point of the group.  The group has to be followed
    by a space, so that it takes a whole run of digits, a point when one
    follows, and the whole run of digits after it. *)
Definition ratingAt (s : jsstring) : option (jsstring * jsstring) :=
  let (whole, r1) := spanDigits s in
  if nonEmpty whole then
    let r2 := match r1 with
              | c :: r => if (c =? 46)%N then r else r1
              | [] => r1
              end in
    let (fraction, r3) := spanDigits r2 in
    if startsWith r3 (js " out of 5") then Some (whole, fraction) else None
  else None.

(** The leftmost match. *)
Fixpoint ratingMatch (s : jsstring) : option (jsstring * jsstring) :=
  match ratingAt s with
  | Some g => Some g
  | None =>
      match s with
      | [] => None
      | _ :: r => ratingMatch r
      end
  end.

Definition digitsValue (s : jsstring) : Z :=
  fold_left (fun acc c => (acc * 10 + (Z.of_N c - 48))%Z) s 0%Z.

(** [parseFloat] of the group. *)
Definition decimalValue (whole fraction : jsstring) : Q :=
  (inject_Z (digitsValue whole)
   + inject_Z (digitsValue fraction) / inject_Z (10 ^ Z.of_nat (length fraction)))%Q.

Definition ratingSelector : jsstring :=
  js "[data-hook=" ++ [dquote] ++ js "average-star-rating" ++ [dquote]
  ++ js "] .a-icon-alt".

Definition extractRating (page : Page) : option Q :=
  match ratingMatch (textOfAll (page ratingSelector)) with
  | Some (whole, fraction) => Some (decimalValue whole fraction)
  | None => None
  end.

(** The match of the review pattern (digits, then any number of groups
    made of a comma and digits) from its first digit on, freed of its
    commas and read as a number. *)
Fixpoint groupedDigits (acc : Z) (s : jsstring) : Z :=
  match s with
  | c :: r =>
      if isDigit c then groupedDigits (acc * 10 + (Z.of_N c - 48)) r
      else if (c =? comma)%N then
        match r with
        | d :: _ => if isDigit d then groupedDigits acc r else acc
        | [] => acc
        end
      else acc
  | [] => acc
  end%Z.

(** The text from its first digit on. *)
Fixpoint fromFirstDigit (s : jsstring) : jsstring :=
  match s with
  | c :: r => if isDigit c then s else fromFirstDigit r
  | [] => []
  end.

Definition extractReviewCount (page : Page) : option Z :=
  match fromFirstDigit (textOfAll (page (js "#acrCustomerReviewText"))) with
  | [] => None
  | digits => Some (groupedDigits 0 digits)
  end.

(** [$(selector).last().text()] *)
Definition lastElementText (elements : list Element) : jsstring :=
  match rev elements with
  | [] => []
  | e :: _ => e_text e
  end.

Definition extractCategory (page : Page) : option jsstring :=
  let breadcrumb :=
    trim (lastElementText (page (js "#wayfinding-breadcrumbs_feature_div a"))) in
  if nonEmpty breadcrumb then Some breadcrumb else None.

(** [s.replace(pattern, '')] for a text pattern: its first occurrence is
    removed. *)
Fixpoint removeFirst (pattern s : jsstring) : jsstring :=
  if startsWith s pattern then skipn (length pattern) s
  else match s with
       | [] => []
       | c :: r => c :: removeFirst pattern r
       end.

Definition brandSelectors : list jsstring :=
  [js "#bylineInfo"; js ".a-color-secondary .author";
   js "[data-feature-name=" ++ [dquote] ++ js "bylineInfo" ++ [dquote]
   ++ js "] .author"].

Fixpoint firstBrand (texts : list jsstring) : option jsstring :=
  match texts with
  | [] => None
  | text :: rest =>
      let brand :=
        removeFirst (js "Brand: ") (removeFirst (js "by ") (trim text)) in
      if nonEmpty brand then Some brand else firstBrand rest
  end.

Definition extractBrand (page : Page) : option jsstring :=
  firstBrand (List.map (fun selector => textOfAll (page selector))
                       brandSelectors).

(** The answer to the page request: the request is rejected with an error
    that may carry a code, or it resolves with a status and a page. *)
Inductive HttpReply :=
| Rejected (code : option jsstring) (message : jsstring)
| Responded (httpStatus : nat) (page : Page).

(** The digits of a number, as a template literal prints it. *)
Fixpoint decimalFrom (fuel n : nat) (acc : jsstring) : jsstring :=
  match fuel with
  | 0 => acc
  | S fuel' =>
      let acc' := (48 + N.of_nat (n mod 10))%N :: acc in
      if n / 10 =? 0 then acc' else decimalFrom fuel' (n / 10) acc'
  end.

Definition decimal (n : nat) : jsstring := decimalFrom (S n) n [].

Definition invalidAsinFormat : jsstring :=
  js "Invalid ASIN format. ASIN must be a 10-character string.".
Definition pageNotFound : jsstring :=
  js "Product not found. Please check the ASIN.".
Definition titleNotExtracted : jsstring :=
  js "Could not extract product title. The product page may have an unusual format or be restricted.".
Definition networkFailed : jsstring :=
  js "Network connection failed. Please check your internet connection.".
Definition requestTimeout : jsstring :=
  js "Request timeout. Amazon may be temporarily unavailable.".

Definition hasCode (code : option jsstring) (name : jsstring) : bool :=
  match code with
  | Some c => sameText c name
  | None => false
  end.

(** What [fetchProductDetails] makes of the answer to its page request,
    for an argument that has passed its guard. *)
Definition scrapeReply (asin : jsstring) (reply : HttpReply)
  : Outcome Scraped.t :=
  match reply with
  | Rejected code message =>
      if hasCode code (js "ENOTFOUND") || hasCode code (js "ECONNREFUSED")
      then Thrown networkFailed
      else if hasCode code (js "ETIMEDOUT") then Thrown requestTimeout
      else Thrown message
  | Responded httpStatus page =>
      if httpStatus =? 404 then Thrown pageNotFound
      else if negb (httpStatus =? 200) then
        Thrown (js "Amazon returned status " ++ decimal httpStatus)
      else
        match extractTitle page with
        | Some title =>
            if length title <? 10 then Thrown titleNotExtracted
            else
              Returned
                {| Scraped.asin := asin;
                   Scraped.title := title;
                   Scraped.bulletPoints := extractBulletPoints (documentOf page);
                   Scraped.description := extractDescription page;
                   Scraped.imageUrl := extractImageUrl page;
                   Scraped.price := extractPrice page;
                   Scraped.availability := extractAvailability page;
                   Scraped.rating := extractRating page;
                   Scraped.reviewCount := extractReviewCount page;
                   Scraped.category := extractCategory page;
                   Scraped.brand := extractBrand page |}
        | None => Thrown titleNotExtracted
        end
  end.

(** [fetchProductDetails] on any value: the guard comes before the page
    request. *)
Definition fetchProductDetailsOf (asin : JsValue) : M Scraped.t :=
  match asin with
  | JStr s =>
      if length s =? 10 then fetchProductDetails s
      else throw invalidAsinFormat
  | _ => throw invalidAsinFormat
  end.

(** One entry of the array [fetchMultipleProducts] returns: the
    identifier with the record ([success: true]) or with the message of
    the error ([success: false]). *)
Record FetchResult := {
  fr_asin : JsValue;
  fr_outcome : Outcome Scraped.t
}.

Definition success (r : FetchResult) : bool :=
  match fr_outcome r with
  | Returned _ => true
  | Thrown _ => false
  end.

(** The [for] loop of [fetchMultipleProducts], from index [i] on. *)
Fixpoint fetchLoop (delayMs : Z) (asins : list JsValue)
  (results : list FetchResult) : M (list FetchResult) :=
  match asins with
  | [] => ret results
  | asin :: rest =>
      results' <-
        tryCatch
          (product <- fetchProductDetailsOf asin ;;
           (if isNil rest then ret tt else sleep delayMs) ;;
           ret (results ++ [{| fr_asin := asin;
                               fr_outcome := Returned product |}]))
          (fun message =>
             ret (results ++ [{| fr_asin := asin;
                                 fr_outcome := Thrown message |}])) ;;
      fetchLoop delayMs rest results'
  end.

Definition defaultFetchDelay : Z := 2000.

Definition fetchMultipleProducts (asins : JsValue) (delayMs : option Z)
  : M (list FetchResult) :=
  match asins with
  | JArr l =>
      fetchLoop (match delayMs with Some d => d | None => defaultFetchDelay end)
                l []
  | _ => throw (js "ASINs must be provided as an array")
  end.

(** ** [POST /api/products/batch] *)

(** The bodies of the batch route.  The message of the third refusal is
    the text [Invalid ASINs found: ] followed by the refused values joined
    by a comma and a space; the body keeps the values. *)
Inductive BatchBody :=
| BatchRefused (error message : jsstring)
| BatchInvalid (invalidASINs : list JsValue)
| BatchFailed (message : jsstring)
| BatchFetched (results : list FetchResult) (summary : Summary)
    (timestamp : Z).

Record BatchResponse := {
  b_status : nat;
  b_body : BatchBody
}.

(** The loop storing the successful results. *)
Fixpoint storeFetched (results : list FetchResult) : M unit :=
  match results with
  | [] => ret tt
  | result :: rest =>
      match fr_outcome result with
      | Returned data => upsertProduct data ;; storeFetched rest
      | Thrown _ => storeFetched rest
      end
  end.

Definition maxBatchSize : nat := 10.

Definition fetchBatch (asins : JsValue) : M BatchResponse :=
  tryCatch
    (match asins with
     | JArr ((_ :: _) as l) =>
         if maxBatchSize <? length l then
           ret {| b_status := 400;
                  b_body := BatchRefused (js "Too many ASINs")
                              (js "Maximum 10 ASINs per batch request") |}
         else
           let invalidASINs := filter (fun asin => negb (isValidASIN asin)) l in
           if 0 <? length invalidASINs then
             ret {| b_status := 400; b_body := BatchInvalid invalidASINs |}
           else
             results <- fetchMultipleProducts asins None ;;
             storeFetched results ;;
             w <- getWorld ;;
             ret {| b_status := 200;
                    b_body :=
                      BatchFetched results
                        {| total := length l;
                           sm_successful := length (filter success results);
                           sm_failed :=
                             length (filter (fun r => negb (success r)) results) |}
                        (clock w) |}
     | _ =>
         ret {| b_status := 400;
                b_body := BatchRefused (js "Invalid request")
                            (js "ASINs must be provided as a non-empty array") |}
     end)
    (fun message =>
       ret {| b_status := 500; b_body := BatchFailed message |}).

(** ** The form of the browser: [ProductOptimizer]

    [toUpperCase] is the conversion of the language; nothing is assumed
    about it. *)

Section ProductOptimizer.

Variable toUpperCase : jsstring -> jsstring.

(** [/^[A-Z0-9]{10}$/.test(s)] *)
Definition asinRegexTest (s : jsstring) : bool :=
  (length s =? 10) && forallb isUpperOrDigit s.

Definition validateASIN (asin : jsstring) : bool :=
  asinRegexTest (toUpperCase asin).

(** What submitting the form does: it shows an error, or it requests
    [/products/] followed by the identifier. *)
Inductive Submission :=
| ShowError (message : jsstring)
| RequestProduct (asin : jsstring).

Definition handleASINSubmit (asin : jsstring) : Submission :=
  if negb (nonEmpty (trim asin)) then ShowError (js "Please enter an ASIN")
  else if negb (validateASIN asin) then
    ShowError (js "Invalid ASIN format. ASIN must be 10 characters (letters and numbers only)")
  else RequestProduct (toUpperCase asin).

End ProductOptimizer.

(** ** The colour of a score: [getScoreColor]

    The history view and the dashboard of the browser colour a score
    with the same function. *)

Definition green : jsstring := js "#10b981".
Definition amber : jsstring := js "#f59e0b".
Definition red : jsstring := js "#ef4444".

Definition getScoreColor (score : nat) : jsstring :=
  if 80 <=? score then green
  else if 60 <=? score then amber
  else red.

(** ** Further reference formulations *)

(** The answer of the service to the [i]-th request counted from the
    state of the engine in [w]. *)
Definition answerAt (w : World) (i : nat) : Outcome jsstring :=
  answer (modelReply (env w) (requestCount (optimizer w) + i)).

Definition productNotFound : Response :=
  {| status := 404;
     body := ErrorBody (js "Product not found")
               (Some (js "Please fetch the product data first before optimizing")) |}.

Definition invalidAsin : Response :=
  {| status := 400;
     body := ErrorBody (js "Invalid ASIN format")
               (Some (js "ASIN must be a 10-character alphanumeric string")) |}.

(** A unit that [JSON.stringify] writes as it is and that is neither a
    comma nor a quote of either kind. *)
Definition plainUnit (c : N) : bool :=
  ((32 <=? c) && negb (c =? dquote) && negb (c =? squote)
   && negb (c =? comma) && negb (c =? 92)
   && negb (isHighSurrogate c) && negb (isLowSurrogate c))%N.

(** A keyword made of such units, not empty. *)
Definition plainKeyword (k : jsstring) : bool :=
  nonEmpty k && forallb plainUnit k.

(** A keyword as [generateKeywords] produces it, without quotes. *)
Definition cleanKeyword (k : jsstring) : Prop :=
  k <> [] /\ ~ In comma k /\ trim k = k /\ stripQuotes k = k.

(** A handler that answers every request, with a status among those
    listed. *)
Definition answersWith (allowed : list nat) (handler : M Response) : Prop :=
  forall w, exists r w',
    handler w = (Returned r, w') /\ In (status r) allowed.

(** What a computation returns, when it returns, satisfies [P]. *)
Definition returnsOnly {A} (P : A -> Prop) (c : M A) : Prop :=
  forall w a w', c w = (Returned a, w') -> P a.

(** The guard of [fetchProductDetails]: a string of ten units. *)
Definition passesGuard (asin : JsValue) : bool :=
  match asin with
  | JStr s => length s =? 10
  | _ => false
  end.

(** The product table holds a row for the identifier. *)
Definition hasProduct (d : Database) (asin : jsstring) : Prop :=
  exists p, In p (products d) /\ p_asin p = asin.

(** The computation a request to the optimisation router runs, when it
    reaches the handler for one identifier. *)
Definition optimizeHandlerFor (method : Method) (path : list jsstring)
  : option (M Response) :=
  match dispatch optimizationRoutes method path with
  | Some (OptimizeOne, [(_, asin)]) => Some (optimizeRoute asin)
  | _ => None
  end.


(** A product page for the scenarios: a title, a rating line and a review
    line. *)
Definition echoPage : Page :=
  fun selector =>
    if sameText selector (js "#productTitle") then
      [{| e_text := js "  Echo Dot (4th Gen) smart speaker  "; e_attrs := [] |}]
    else if sameText selector ratingSelector then
      [{| e_text := js "4.7 out of 5 stars"; e_attrs := [] |}]
    else if sameText selector (js "#acrCustomerReviewText") then
      [{| e_text := js "12,345 ratings"; e_attrs := [] |}]
    else if sameText selector (js "#landingImage") then
      [{| e_text := [];
          e_attrs := [(js "data-src", js "https://m.media-amazon.com/echo.jpg")] |}]
    else if sameText selector (js "#bylineInfo") then
      [{| e_text := js "Brand: Amazon"; e_attrs := [] |}]
    else [].

(** The conversion to upper case on the letters of ASCII. *)
Definition asciiUpper (s : jsstring) : jsstring :=
  List.map (fun c => if ((97 <=? c) && (c <=? 122))%N then (c - 32)%N else c) s.

(** * Properties *)

(** ** Identifier validator *)

Lemma isUpperOrDigit_spec (c : N) :
  isUpperOrDigit c = true <->
  ((65 <= c <= 90)%N \/ (48 <= c <= 57)%N).
Proof.
  unfold isUpperOrDigit.
  rewrite orb_true_iff, !andb_true_iff, !N.leb_le. tauto.
Qed.

Lemma nonEmpty_length (s : jsstring) : nonEmpty s = true <-> 0 < length s.
Proof.
  destruct s; simpl; split; intros H; try discriminate; try lia; reflexivity.
Qed.

(** C9. [isValidASIN] answers [true] exactly on strings of ten code units,
    each an upper-case letter or a digit; every other value, string or
    not, is answered [false].  The validator is a function of its argument
    alone: it reads no state and returns only the boolean. *)
Theorem isValidASIN_iff (asin : JsValue) :
  isValidASIN asin = true <->
  exists s, asin = JStr s /\ length s = 10 /\
            forall c, In c s -> (65 <= c <= 90)%N \/ (48 <= c <= 57)%N.
Proof.
  split.
  - destruct asin; simpl; try discriminate.
    intros H. unfold matchesUpperAlnum in H.
    apply andb_true_iff in H as [Hlen H].
    apply andb_true_iff in H as [_ Hall].
    exists s. split; [reflexivity|]. split.
    + now apply Nat.eqb_eq.
    + intros c Hc. apply isUpperOrDigit_spec.
      rewrite forallb_forall in Hall. now apply Hall.
  - intros (s & -> & Hlen & Hall). simpl. unfold matchesUpperAlnum.
    rewrite Hlen. simpl.
    apply andb_true_iff. split.
    + apply nonEmpty_length. lia.
    + apply forallb_forall. intros c Hc. apply isUpperOrDigit_spec. auto.
Qed.

(** The rejected shapes named by the specification, and one accepted
    token. *)
Example isValidASIN_samples :
  isValidASIN (JStr (js "B08N5WRWNW")) = true /\
  isValidASIN (JStr (js "B08N5WRWN")) = false /\
  isValidASIN (JStr (js "B08N5WRWNW1")) = false /\
  isValidASIN (JStr (js "b08n5wrwnw")) = false /\
  isValidASIN (JStr (js "B08N5-RWNW")) = false /\
  isValidASIN (JStr []) = false /\
  isValidASIN JNull = false /\
  isValidASIN (JNum 1234567890) = false.
Proof. repeat split; reflexivity. Qed.

(** ** Bullet extraction *)

Lemma startsWith_iff (s p : jsstring) :
  startsWith s p = true <-> exists b, s = p ++ b.
Proof.
  revert s. induction p as [|a p IH]; intros s.
  - split; [exists s; reflexivity|destruct s; reflexivity].
  - destruct s as [|c s]; cbn [startsWith].
    + split; [discriminate|]. intros (b & H). discriminate.
    + rewrite andb_true_iff, N.eqb_eq, IH. split.
      * intros (-> & b & ->). exists b. reflexivity.
      * intros (b & H). injection H as -> ->. split; [reflexivity|eauto].
Qed.

(** [s.includes(p)] holds exactly when [p] occurs somewhere in [s]. *)
Lemma includes_iff (s p : jsstring) :
  includes s p = true <-> exists a b, s = a ++ p ++ b.
Proof.
  induction s as [|c r IH]; cbn [includes]; rewrite orb_true_iff, startsWith_iff.
  - split.
    + intros [(b & H)|H]; [|discriminate]. exists [], b. exact H.
    + intros (a & b & H). left.
      destruct a; [|discriminate]. exists b. exact H.
  - rewrite IH. split.
    + intros [(b & H)|(a & b & H)].
      * exists [], b. exact H.
      * exists (c :: a), b. cbn. now rewrite H.
    + intros (a & b & H). destruct a as [|c' a].
      * left. exists b. exact H.
      * right. injection H as _ H. eauto.
Qed.

Lemma usableBullet_keptBullet (text : jsstring) :
  usableBullet text = keptBullet text.
Proof.
  unfold usableBullet, keptBullet, minBulletLength, disclaimer.
  destruct text as [|c r]; [vm_compute; reflexivity|reflexivity].
Qed.

Lemma collectBullets_kept (doc : Document) (selector : jsstring) :
  collectBullets doc selector =
  filter keptBullet (List.map trim (doc selector)).
Proof.
  unfold collectBullets. apply filter_ext. intros. apply usableBullet_keptBullet.
Qed.

Lemma join_head_nonempty (sep x : jsstring) (l : list jsstring) :
  x <> [] -> join sep (x :: l) <> [].
Proof.
  intros Hx. destruct l as [|y l]; simpl; [assumption|].
  destruct x; [congruence|discriminate].
Qed.

Lemma filter_kept_head (l : list jsstring) (x : jsstring) (r : list jsstring) :
  filter keptBullet l = x :: r -> x <> [].
Proof.
  intros H.
  assert (Hin : In x (filter keptBullet l)) by (rewrite H; now left).
  apply filter_In in Hin as [_ Hk]. intros ->. discriminate.
Qed.

(** What [join] makes of the items with the separator of the code is the
    layout of the specification. *)
Lemma join_bulletText (items : list jsstring) :
  join bulletSeparator items = bulletText items.
Proof.
  destruct items as [|x r]; [reflexivity|].
  revert x. induction r as [|y r IH]; intros x.
  - cbn. now rewrite app_nil_r.
  - change (join bulletSeparator (x :: y :: r))
      with (x ++ bulletSeparator ++ join bulletSeparator (y :: r)).
    rewrite IH. cbn [bulletText List.map concat].
    reflexivity.
Qed.

(** C7. The items are the trimmed texts matched by the primary selector
    that pass the filter: an item is kept exactly when the fragment
    [Make sure] occurs nowhere in it and it is longer than ten units.  The
    alternative selector is consulted only when no primary item passes,
    with the same filter.  The survivors are laid out one per line, each
    line after the first opening with a bullet sign and a space; and when
    nothing survives under either selector the field is [null], never the
    empty string. *)
Theorem extractBulletPoints_spec (doc : Document) :
  extractBulletPoints doc =
    match
      filter keptBullet (List.map trim (doc (js "#feature-bullets ul li span")))
    with
    | (_ :: _) as items => Some (bulletText items)
    | [] =>
        match
          filter keptBullet
                 (List.map trim (doc (js ".a-unordered-list .a-list-item")))
        with
        | (_ :: _) as items => Some (bulletText items)
        | [] => None
        end
    end
  /\ extractBulletPoints doc <> Some []
  /\ (forall text,
        keptBullet text = true <->
        (~ (exists a b, text = a ++ js "Make sure" ++ b)) /\ 10 < length text).
Proof.
  assert (E : extractBulletPoints doc =
    match filter keptBullet (List.map trim (doc primaryBulletSelector)) with
    | (_ :: _) as items => Some (join bulletSeparator items)
    | [] =>
        match
          filter keptBullet (List.map trim (doc alternativeBulletSelector))
        with
        | (_ :: _) as items => Some (join bulletSeparator items)
        | [] => None
        end
    end).
  { unfold extractBulletPoints. rewrite !collectBullets_kept.
    destruct (filter keptBullet (List.map trim (doc primaryBulletSelector)))
      as [|x r]; [|reflexivity].
    cbn [length Nat.eqb app].
    destruct (filter keptBullet (List.map trim (doc alternativeBulletSelector)));
      reflexivity. }
  split; [|split].
  - rewrite E.
    change primaryBulletSelector with (js "#feature-bullets ul li span").
    change alternativeBulletSelector with (js ".a-unordered-list .a-list-item").
    destruct (filter keptBullet
                (List.map trim (doc (js "#feature-bullets ul li span"))))
      as [|x r]; [|now rewrite join_bulletText].
    destruct (filter keptBullet
                (List.map trim (doc (js ".a-unordered-list .a-list-item"))))
      as [|y r']; [reflexivity|now rewrite join_bulletText].
  - rewrite E.
    destruct (filter keptBullet (List.map trim (doc primaryBulletSelector)))
      as [|x r] eqn:Hp.
    + destruct (filter keptBullet
                  (List.map trim (doc alternativeBulletSelector)))
        as [|y r'] eqn:Ha; [discriminate|].
      intros H. injection H as H.
      change (join bulletSeparator (y :: r') = []) in H.
      eapply join_head_nonempty; [eapply filter_kept_head; exact Ha|exact H].
    + intros H. injection H as H.
      change (join bulletSeparator (x :: r) = []) in H.
      eapply join_head_nonempty; [eapply filter_kept_head; exact Hp|exact H].
  - intros text. unfold keptBullet.
    rewrite andb_true_iff, negb_true_iff, Nat.ltb_lt.
    rewrite <- Bool.not_true_iff_false, includes_iff. tauto.
Qed.

(** A page whose primary list holds only a disclaimer and a short item
    falls back to the alternative list, whose two items come out on two
    lines; a page with nothing usable has no bullet field. *)
Lemma extractBulletPoints_scenario :
  let doc : Document := fun selector =>
    if list_eq_dec N.eq_dec selector (js "#feature-bullets ul li span")
    then [js "  Make sure this fits by entering your model number. ";
          js "Too short"]
    else if list_eq_dec N.eq_dec selector (js ".a-unordered-list .a-list-item")
    then [js " Crisp vocals and balanced bass "; js "Voice control your music";
          js "Please Make sure to read the manual"]
    else [] in
  extractBulletPoints doc =
  Some (js "Crisp vocals and balanced bass" ++ [10; 8226; 32]%N
        ++ js "Voice control your music")
  /\ extractBulletPoints (fun _ => [js "Too short"; js "          "]) = None.
Proof.
  cbv zeta. split.
  - rewrite (proj1 (extractBulletPoints_spec _)). vm_compute. reflexivity.
  - rewrite (proj1 (extractBulletPoints_spec _)). vm_compute. reflexivity.
Defined.

(** A page whose primary list holds only a disclaimer and a short item
    falls back to the alternative list. *)
Example extractBulletPoints_fallback :
  let doc : Document := fun selector =>
    if list_eq_dec N.eq_dec selector primaryBulletSelector
    then [js "  Make sure this fits by entering your model number. ";
          js "Too short"]
    else if list_eq_dec N.eq_dec selector alternativeBulletSelector
    then [js " Crisp vocals and balanced bass "; js "Voice control your music"]
    else [] in
  extractBulletPoints doc =
  Some (js "Crisp vocals and balanced bass" ++ [10; 8226; 32]%N
        ++ js "Voice control your music").
Proof. vm_compute. reflexivity. Qed.

(** ** Score calculator *)

Lemma longerThan_missing (x y : option jsstring) :
  longerThan x (lengthOrZero y)
  = (length (missingAsEmpty y) <? length (missingAsEmpty x)).
Proof.
  destruct y as [t|]; destruct x as [[|c s]|]; reflexivity.
Qed.

Lemma score_unfold (original generated : Listing) :
  calculateOptimizationScore original generated =
  {| score := Nat.min (ruleSum original generated) 100;
     factors := ruleLabels original generated;
     maxScore := 100 |}.
Proof.
  unfold calculateOptimizationScore, ruleSum, ruleLabels.
  unfold bulletsImproved, descriptionImproved, keywordsAdded, atLeast.
  rewrite !longerThan_missing.
  change (titleImproved original generated) with (titleRule original generated).
  change (length (missingAsEmpty (bulletPoints original))
          <? length (missingAsEmpty (bulletPoints generated)))
    with (bulletRule original generated).
  change (length (missingAsEmpty (description original))
          <? length (missingAsEmpty (description generated)))
    with (descriptionRule original generated).
  assert (K : match suggestedKeywords generated with
              | Some l => 3 <=? length l
              | None => false
              end = keywordRule generated).
  { unfold keywordRule. destruct (suggestedKeywords generated); reflexivity. }
  rewrite K.
  destruct (titleRule original generated), (bulletRule original generated),
    (descriptionRule original generated), (keywordRule generated);
    reflexivity.
Qed.

Lemma ruleSum_le_100 (original generated : Listing) :
  ruleSum original generated <= 100.
Proof.
  unfold ruleSum.
  destruct (titleRule original generated), (bulletRule original generated),
    (descriptionRule original generated), (keywordRule generated);
    simpl; lia.
Qed.


(** The scenario of the specification: every rule fires, in order. *)
Example calculateOptimizationScore_full :
  calculateOptimizationScore
    {| title := js "X"; bulletPoints := Some []; description := Some [];
       suggestedKeywords := None |}
    {| title := js "X enhanced"; bulletPoints := Some (js "new bullet");
       description := Some (js "new description");
       suggestedKeywords := Some [js "a"; js "b"; js "c"] |}
  = {| score := 100;
       factors := [titleLabel; bulletLabel; descriptionLabel; keywordLabel];
       maxScore := 100 |}.
Proof. vm_compute. reflexivity. Qed.

(** C10. The score is the plain sum of the point values of the returned
    factor labels; the sum of all four is exactly 100, so the cap never
    cuts anything off, and the score is 100 exactly when the four labels
    are all present. *)
Theorem score_is_sum_of_factor_points (original generated : Listing) :
  let r := calculateOptimizationScore original generated in
  score r = list_sum (List.map labelPoints (factors r))
  /\ score r = ruleSum original generated
  /\ (score r = 100 <->
      In titleLabel (factors r) /\ In bulletLabel (factors r) /\
      In descriptionLabel (factors r) /\ In keywordLabel (factors r)).
Proof.
  cbv zeta. rewrite score_unfold. simpl.
  rewrite (Nat.min_l _ _ (ruleSum_le_100 original generated)).
  unfold ruleSum, ruleLabels.
  destruct (titleRule original generated), (bulletRule original generated),
    (descriptionRule original generated), (keywordRule generated);
    vm_compute; (split; [reflexivity|]); (split; [reflexivity|]);
    split; intros H; try discriminate; intuition discriminate.
Qed.

(** ** [JSON.parse]: the descent never runs out of fuel *)

Module JsonFacts.
Import Json.

Lemma skipWs_length (s : jsstring) : length (skipWs s) <= length s.
Proof.
  induction s as [|c r IH]; [reflexivity|].
  cbn [skipWs]. destruct (isJsonWs c); cbn [length]; lia.
Qed.

Lemma consTo_some (c : N) (x : option (jsstring * jsstring))
  (str rest : jsstring) :
  consTo c x = Some (str, rest) -> exists str', x = Some (str', rest).
Proof.
  destruct x as [[a b]|]; [|discriminate].
  cbn. intros [= _ <-]. eauto.
Qed.

Lemma lexString_length_bounded (n : nat) :
  forall s str rest,
    length s <= n -> lexString s = Some (str, rest) ->
    length rest < length s.
Proof.
  induction n as [|n IH]; intros s str rest Hn H.
  - destruct s; [discriminate|cbn in Hn; lia].
  - destruct s as [|c r]; [discriminate|].
    cbn [length] in *. cbn [lexString] in H.
    destruct (c =? 34)%N.
    { injection H as _ <-. lia. }
    destruct (c =? 92)%N.
    + destruct r as [|e r']; [discriminate|]. cbn [length] in *.
      destruct (e =? 117)%N.
      * destruct r' as [|h1 [|h2 [|h3 [|h4 r'']]]]; try discriminate.
        cbn [length] in *.
        destruct (hexVal h1), (hexVal h2), (hexVal h3), (hexVal h4);
          try discriminate.
        apply consTo_some in H as (str' & H).
        apply IH in H; lia.
      * destruct (escapeOf e); [|discriminate].
        apply consTo_some in H as (str' & H).
        apply IH in H; lia.
    + destruct (c <? 32)%N; [discriminate|].
      apply consTo_some in H as (str' & H).
      apply IH in H; lia.
Qed.

Lemma lexString_length (s str rest : jsstring) :
  lexString s = Some (str, rest) -> length rest < length s.
Proof. apply (@lexString_length_bounded (length s)). lia. Qed.

Lemma takeDigits_length (s : jsstring) :
  length (snd (takeDigits s)) <= length s.
Proof.
  induction s as [|c r IH]; [reflexivity|].
  cbn [takeDigits]. destruct (isDigit c); [|reflexivity].
  destruct (takeDigits r) as [ds rest]. cbn [snd length] in *. lia.
Qed.

Lemma lexInt_length (s : jsstring) (ds : list Z) (rest : jsstring) :
  lexInt s = Some (ds, rest) -> length rest < length s.
Proof.
  destruct s as [|c r]; [discriminate|]. unfold lexInt.
  destruct (c =? 48)%N.
  - intros [= _ <-]. cbn [length]. lia.
  - destruct (isDigit c) eqn:D; [|discriminate].
    cbn [takeDigits]. rewrite D.
    pose proof (takeDigits_length r) as L.
    destruct (takeDigits r) as [ds' rest']. cbn [snd] in L.
    intros [= _ <-]. cbn [length]. lia.
Qed.

Lemma lexFrac_length (s : jsstring) (ds : list Z) (rest : jsstring) :
  lexFrac s = Some (ds, rest) -> length rest <= length s.
Proof.
  destruct s as [|c r]; [intros [= _ <-]; reflexivity|]. unfold lexFrac.
  destruct (c =? 46)%N.
  - pose proof (takeDigits_length r) as L.
    destruct (takeDigits r) as [[|d ds'] rest']; [discriminate|].
    cbn [snd] in L. intros [= _ <-]. cbn [length]. lia.
  - intros [= _ <-]. reflexivity.
Qed.

Lemma lexExp_length (s : jsstring) (e : Z) (rest : jsstring) :
  lexExp s = Some (e, rest) -> length rest <= length s.
Proof.
  destruct s as [|c r]; [intros [= _ <-]; reflexivity|]. unfold lexExp.
  destruct ((c =? 101) || (c =? 69))%N; [|intros [= _ <-]; reflexivity].
  assert (G : forall sign r1, length r1 <= length r ->
              match takeDigits r1 with
              | ([], _) => None
              | ((_ :: _) as ds, rest0) =>
                  Some ((sign * digitsValue ds)%Z, rest0)
              end = Some (e, rest) -> length rest <= length (c :: r)).
  { intros sign r1 L1.
    pose proof (takeDigits_length r1) as L.
    destruct (takeDigits r1) as [[|d ds'] rest']; [discriminate|].
    cbn [snd] in L. intros [= _ <-]. cbn [length]. lia. }
  destruct r as [|d r']; [apply G; reflexivity|].
  destruct (d =? 45)%N; [apply G; cbn [length]; lia|].
  destruct (d =? 43)%N; apply G; cbn [length]; lia.
Qed.

Lemma lexNumber_length (s : jsstring) (q : Q) (rest : jsstring) :
  lexNumber s = Some (q, rest) -> length rest < length s.
Proof.
  unfold lexNumber.
  assert (G : forall sign s1, length s1 <= length s ->
              match lexInt s1 with
              | Some (ids, s2) =>
                  match lexFrac s2 with
                  | Some (fds, s3) =>
                      match lexExp s3 with
                      | Some (e, s4) =>
                          Some (scale10 (sign * digitsValue (ids ++ fds))
                                        (e - Z.of_nat (length fds)), s4)
                      | None => None
                      end
                  | None => None
                  end
              | None => None
              end = Some (q, rest) -> length rest < length s).
  { intros sign s1 L1.
    destruct (lexInt s1) as [[ids s2]|] eqn:I; [|discriminate].
    apply lexInt_length in I.
    destruct (lexFrac s2) as [[fds s3]|] eqn:F; [|discriminate].
    apply lexFrac_length in F.
    destruct (lexExp s3) as [[e s4]|] eqn:X; [|discriminate].
    apply lexExp_length in X.
    intros [= _ <-]. lia. }
  destruct s as [|c r]; [apply G; reflexivity|].
  destruct (c =? 45)%N; apply G; cbn [length]; lia.
Qed.

(** Every successful step consumes input. *)
Lemma parse_progress (f : nat) :
  (forall s v rest, parseValue f s = POk v rest -> length rest < length s)
  /\ (forall s acc v rest,
        parseElements f s acc = POk v rest -> length rest < length s)
  /\ (forall s acc v rest,
        parseMembers f s acc = POk v rest -> length rest < length s).
Proof.
  induction f as [|f (IHv & IHe & IHm)];
    [repeat split; intros; discriminate|].
  split; [|split].
  - intros s v rest. cbn [parseValue].
    pose proof (skipWs_length s) as L.
    destruct (skipWs s) as [|c r]; [discriminate|]. cbn [length] in L.
    destruct (c =? 34)%N.
    { destruct (lexString r) as [[str rest']|] eqn:E; [|discriminate].
      apply lexString_length in E. intros [= _ <-]. lia. }
    destruct (c =? 91)%N.
    { pose proof (skipWs_length r) as L'.
      destruct (skipWs r) as [|d r']; [discriminate|]. cbn [length] in L'.
      destruct (d =? 93)%N; [intros [= _ <-]; lia|].
      intros H. apply IHe in H. lia. }
    destruct (c =? 123)%N.
    { pose proof (skipWs_length r) as L'.
      destruct (skipWs r) as [|d r']; [discriminate|]. cbn [length] in L'.
      destruct (d =? 125)%N; [intros [= _ <-]; lia|].
      intros H. apply IHm in H. lia. }
    assert (K : forall n, 0 < n ->
                length (skipn n (c :: r)) < length s).
    { intros n Hn. rewrite length_skipn. cbn [length]. lia. }
    destruct (startsWith (c :: r) (js "true")).
    { intros [= _ <-]. exact (K 4 ltac:(lia)). }
    destruct (startsWith (c :: r) (js "false")).
    { intros [= _ <-]. exact (K 5 ltac:(lia)). }
    destruct (startsWith (c :: r) (js "null")).
    { intros [= _ <-]. exact (K 4 ltac:(lia)). }
    destruct (lexNumber (c :: r)) as [[q rest']|] eqn:E; [|discriminate].
    apply lexNumber_length in E. cbn [length] in E. intros [= _ <-]. lia.
  - intros s acc v rest. cbn [parseElements].
    destruct (parseValue f s) as [v0 rest0| |] eqn:E; try discriminate.
    apply IHv in E.
    pose proof (skipWs_length rest0) as L.
    destruct (skipWs rest0) as [|d r']; [discriminate|]. cbn [length] in L.
    destruct (d =? 44)%N; [intros H; apply IHe in H; lia|].
    destruct (d =? 93)%N; [intros [= _ <-]; lia|discriminate].
  - intros s acc v rest. cbn [parseMembers].
    pose proof (skipWs_length s) as L.
    destruct (skipWs s) as [|c r]; [discriminate|]. cbn [length] in L.
    destruct (c =? 34)%N; [|discriminate].
    destruct (lexString r) as [[key rest0]|] eqn:E; [|discriminate].
    apply lexString_length in E.
    pose proof (skipWs_length rest0) as L0.
    destruct (skipWs rest0) as [|d r']; [discriminate|]. cbn [length] in L0.
    destruct (d =? 58)%N; [|discriminate].
    destruct (parseValue f r') as [v0 rest1| |] eqn:E1; try discriminate.
    apply IHv in E1.
    pose proof (skipWs_length rest1) as L1.
    destruct (skipWs rest1) as [|e r'']; [discriminate|]. cbn [length] in L1.
    destruct (e =? 44)%N; [intros H; apply IHm in H; lia|].
    destruct (e =? 125)%N; [intros [= _ <-]; lia|discriminate].
Qed.

(** Twice the length of the input, and a little, is fuel enough. *)
Lemma parse_fuel (f : nat) :
  (forall s, 2 * length s + 1 <= f -> parseValue f s <> PFuel)
  /\ (forall s acc, 2 * length s + 2 <= f -> parseElements f s acc <> PFuel)
  /\ (forall s acc, 2 * length s + 2 <= f -> parseMembers f s acc <> PFuel).
Proof.
  induction f as [|f (IHv & IHe & IHm)]; [repeat split; intros; lia|].
  destruct (parse_progress f) as (Pv & Pe & Pm).
  split; [|split].
  - intros s Hf. cbn [parseValue].
    pose proof (skipWs_length s) as L.
    destruct (skipWs s) as [|c r]; [discriminate|]. cbn [length] in L.
    destruct (c =? 34)%N.
    { destruct (lexString r) as [[str rest']|]; discriminate. }
    destruct (c =? 91)%N.
    { pose proof (skipWs_length r) as L'.
      destruct (skipWs r) as [|d r']; [discriminate|].
      destruct (d =? 93)%N; [discriminate|]. apply IHe. lia. }
    destruct (c =? 123)%N.
    { pose proof (skipWs_length r) as L'.
      destruct (skipWs r) as [|d r']; [discriminate|].
      destruct (d =? 125)%N; [discriminate|]. apply IHm. lia. }
    destruct (startsWith (c :: r) (js "true")); [discriminate|].
    destruct (startsWith (c :: r) (js "false")); [discriminate|].
    destruct (startsWith (c :: r) (js "null")); [discriminate|].
    destruct (lexNumber (c :: r)) as [[q rest']|]; discriminate.
  - intros s acc Hf. cbn [parseElements].
    pose proof (IHv s) as Hv.
    destruct (parseValue f s) as [v0 rest0| |] eqn:E;
      [|discriminate|exfalso; apply Hv; [lia|reflexivity]].
    apply Pv in E.
    pose proof (skipWs_length rest0) as L.
    destruct (skipWs rest0) as [|d r']; [discriminate|]. cbn [length] in L.
    destruct (d =? 44)%N; [apply IHe; lia|].
    destruct (d =? 93)%N; discriminate.
  - intros s acc Hf. cbn [parseMembers].
    pose proof (skipWs_length s) as L.
    destruct (skipWs s) as [|c r]; [discriminate|]. cbn [length] in L.
    destruct (c =? 34)%N; [|discriminate].
    destruct (lexString r) as [[key rest0]|] eqn:E; [|discriminate].
    apply lexString_length in E.
    pose proof (skipWs_length rest0) as L0.
    destruct (skipWs rest0) as [|d r']; [discriminate|]. cbn [length] in L0.
    destruct (d =? 58)%N; [|discriminate].
    pose proof (IHv r') as Hv.
    destruct (parseValue f r') as [v0 rest1| |] eqn:E1;
      [|discriminate|exfalso; apply Hv; [lia|reflexivity]].
    apply Pv in E1.
    pose proof (skipWs_length rest1) as L1.
    destruct (skipWs rest1) as [|e r'']; [discriminate|]. cbn [length] in L1.
    destruct (e =? 44)%N; [apply IHm; lia|].
    destruct (e =? 125)%N; discriminate.
Qed.

(** More fuel never changes an answer. *)
Lemma parse_more_fuel (f : nat) :
  (forall s, parseValue f s <> PFuel -> parseValue (S f) s = parseValue f s)
  /\ (forall s acc, parseElements f s acc <> PFuel ->
                    parseElements (S f) s acc = parseElements f s acc)
  /\ (forall s acc, parseMembers f s acc <> PFuel ->
                    parseMembers (S f) s acc = parseMembers f s acc).
Proof.
  induction f as [|f (IHv & IHe & IHm)];
    [repeat split; intros; exfalso; auto|].
  split; [|split].
  - intros s. cbn [parseValue].
    destruct (skipWs s) as [|c r]; [reflexivity|].
    destruct (c =? 34)%N; [reflexivity|].
    destruct (c =? 91)%N.
    { destruct (skipWs r) as [|d r']; [reflexivity|].
      destruct (d =? 93)%N; [reflexivity|]. apply IHe. }
    destruct (c =? 123)%N.
    { destruct (skipWs r) as [|d r']; [reflexivity|].
      destruct (d =? 125)%N; [reflexivity|]. apply IHm. }
    reflexivity.
  - intros s acc. cbn [parseElements].
    pose proof (IHv s) as Hv.
    destruct (parseValue f s) as [v0 rest0| |] eqn:E.
    + rewrite Hv by discriminate.
      destruct (skipWs rest0) as [|d r']; [reflexivity|].
      destruct (d =? 44)%N; [apply IHe|reflexivity].
    + rewrite Hv by discriminate. reflexivity.
    + intros H. now exfalso.
  - intros s acc. cbn [parseMembers].
    destruct (skipWs s) as [|c r]; [reflexivity|].
    destruct (c =? 34)%N; [|reflexivity].
    destruct (lexString r) as [[key rest0]|]; [|reflexivity].
    destruct (skipWs rest0) as [|d r']; [reflexivity|].
    destruct (d =? 58)%N; [|reflexivity].
    pose proof (IHv r') as Hv.
    destruct (parseValue f r') as [v0 rest1| |] eqn:E1.
    + rewrite Hv by discriminate.
      destruct (skipWs rest1) as [|e r'']; [reflexivity|].
      destruct (e =? 44)%N; [apply IHm|reflexivity].
    + rewrite Hv by discriminate. reflexivity.
    + intros H. now exfalso.
Qed.

(** [JSON.parse] answers [None] only for a syntax error, and its answer
    does not depend on the fuel chosen, as long as it is enough. *)
Lemma parse_fuel_irrelevant (s : jsstring) (f : nat) :
  fuelFor s <= f ->
  parseValue f s = parseValue (fuelFor s) s
  /\ parseValue (fuelFor s) s <> PFuel.
Proof.
  assert (E : parseValue (fuelFor s) s <> PFuel).
  { apply (parse_fuel (fuelFor s)). unfold fuelFor. lia. }
  intros Hf. split; [|exact E].
  induction Hf as [|f Hf IH]; [reflexivity|].
  rewrite <- IH. apply (parse_more_fuel f). rewrite IH. exact E.
Qed.

End JsonFacts.

(** ** Keyword recovery *)

Lemma parse_empty : Json.parse [] = None.
Proof. reflexivity. Qed.

Lemma parse_empty_array : Json.parse (js "[]") = Some (JArr []).
Proof. reflexivity. Qed.

Lemma cached_resolved (raw : Payload) :
  cachedSuggestedKeywords raw = resolvedParseKeywords raw.
Proof.
  unfold cachedSuggestedKeywords, resolvedParseKeywords.
  destruct (payloadTruthy raw).
  - destruct (payloadString raw) as [|c t] eqn:E.
    + rewrite parse_empty. cbn [nonEmpty]. rewrite parse_empty_array.
      reflexivity.
    + cbn [nonEmpty].
      destruct (Json.parse (c :: t)); [reflexivity|].
      destruct (bracketed (c :: t)); reflexivity.
  - cbn [nonEmpty]. rewrite parse_empty_array. reflexivity.
Qed.

(** C1 (as amended). The parser of the optimize route is total and
    resolves in five steps: a successful JSON decode of the payload text
    (of the text of an empty array when the payload is null or empty) is
    the result, whatever value it decodes to; failing that, a bracketed
    text is stripped of its brackets, split on commas, each piece trimmed
    and freed of quote characters, and empty pieces are dropped; else a
    text with a comma is split, trimmed, and empty pieces are dropped; else
    a text that is not blank yields its trimmed self alone; else the empty
    sequence.  Whenever the decode fails the result is a sequence of
    strings.  On the six sample payloads this parser and the one of the
    history routes both return the expected sequences. *)
Theorem cachedSuggestedKeywords_resolution (raw : Payload) :
  cachedSuggestedKeywords raw = resolvedParseKeywords raw
  /\ (Json.parse (if payloadTruthy raw then payloadString raw else js "[]")
        = None ->
      exists l, cachedSuggestedKeywords raw = strings l)
  /\ List.map cachedSuggestedKeywords
       [PayText canonicalAB; PayText (js "a, b"); PayText (js "[a, b]");
        PayText (js "a"); PayText []; PayNull]
     = List.map strings
         [[js "a"; js "b"]; [js "a"; js "b"]; [js "a"; js "b"];
          [js "a"]; []; []]
  /\ List.map historySuggestedKeywords
       [PayText canonicalAB; PayText (js "a, b"); PayText (js "[a, b]");
        PayText (js "a"); PayText []; PayNull]
     = List.map strings
         [[js "a"; js "b"]; [js "a"; js "b"]; [js "a"; js "b"];
          [js "a"]; []; []].
Proof.
  split; [apply cached_resolved|].
  split; [|split; vm_compute; reflexivity].
  intros Hfail. unfold cachedSuggestedKeywords. rewrite Hfail.
  destruct (payloadTruthy raw); [|now exists []].
  destruct (nonEmpty (payloadString raw)); [|now exists []].
  destruct (bracketed (payloadString raw)).
  - rewrite Hfail. eexists. reflexivity.
  - destruct (includes (payloadString raw) [comma]); [eexists; reflexivity|].
    destruct (nonEmpty (trim (payloadString raw))); eexists; reflexivity.
Qed.

(** C1, as stated, fails on the code: a payload whose text decodes to a
    JSON value that is not an array of strings is returned as that value
    (here the number 5) and not as a sequence of strings, and the pieces
    that come out empty are dropped instead of kept. *)
Lemma parseKeywords_as_stated_fails :
  cachedSuggestedKeywords (PayText (js "5")) = JNum 5
  /\ statedParseKeywords (PayText (js "5")) = [js "5"]
  /\ (forall l, cachedSuggestedKeywords (PayText (js "5")) <> strings l)
  /\ cachedSuggestedKeywords (PayText (js "[a,,b]"))
     = strings [js "a"; js "b"]
  /\ statedParseKeywords (PayText (js "[a,,b]")) = [js "a"; []; js "b"].
Proof.
  split; [vm_compute; reflexivity|].
  split; [vm_compute; reflexivity|].
  split; [|split; vm_compute; reflexivity].
  intros l H.
  assert (E : cachedSuggestedKeywords (PayText (js "5")) = JNum 5)
    by (vm_compute; reflexivity).
  rewrite E in H. discriminate.
Qed.

(** The parser of the history routes differs beyond the samples: it keeps
    empty pieces, answers a blank text with one empty keyword, and loses
    the keywords of an array the driver has already decoded. *)
Example historySuggestedKeywords_differs :
  historySuggestedKeywords (PayText (js "[a,,b]"))
    = strings [js "a"; []; js "b"]
  /\ historySuggestedKeywords (PayText (js "  ")) = strings [[]]
  /\ cachedSuggestedKeywords (PayText (js "  ")) = strings []
  /\ historySuggestedKeywords (PayList [js "a"; js "b"]) = strings []
  /\ cachedSuggestedKeywords (PayList [js "a"; js "b"])
     = strings [js "a"; js "b"].
Proof. repeat split; vm_compute; reflexivity. Qed.

(** ** Stepping through handlers *)

Lemma bind_returned {A B} (c : M A) (k : A -> M B) (w w' : World) (a : A) :
  c w = (Returned a, w') -> bind c k w = k a w'.
Proof. intros H. unfold bind. now rewrite H. Qed.

Lemma bind_thrown {A B} (c : M A) (k : A -> M B) (w w' : World)
  (m : jsstring) :
  c w = (Thrown m, w') -> bind c k w = (Thrown m, w').
Proof. intros H. unfold bind. now rewrite H. Qed.

Lemma tryCatch_returned {A} (c : M A) (h : jsstring -> M A) (w w' : World)
  (a : A) :
  c w = (Returned a, w') -> tryCatch c h w = (Returned a, w').
Proof. intros H. unfold tryCatch. now rewrite H. Qed.

Lemma tryCatch_thrown {A} (c : M A) (h : jsstring -> M A) (w w' : World)
  (m : jsstring) :
  c w = (Thrown m, w') -> tryCatch c h w = h m w'.
Proof. intros H. unfold tryCatch. now rewrite H. Qed.

Lemma executeQuery_ok {A} (run : World -> A * World) (w : World) :
  dbFault (env w) (queries w) = None ->
  executeQuery run w =
  (Returned (fst (run (countQuery w))), snd (run (countQuery w))).
Proof.
  intros H. unfold executeQuery. rewrite H.
  now destruct (run (countQuery w)).
Qed.

Lemma executeQuery_fault {A} (run : World -> A * World) (w : World)
  (m : jsstring) :
  dbFault (env w) (queries w) = Some m ->
  executeQuery run w = (Thrown m, countQuery w).
Proof. intros H. unfold executeQuery. now rewrite H. Qed.

(** ** Feedback *)

Lemma ratingRefused_false (rating : JsValue) :
  ratingRefused rating = false <-> acceptableRating rating.
Proof.
  unfold acceptableRating. split.
  - destruct rating; simpl; try discriminate.
    intros H. apply orb_false_iff in H as [H1 H2].
    apply negb_false_iff in H1, H2.
    exists q. repeat split; now apply Qle_bool_iff.
  - intros (q & -> & H1 & H2). simpl.
    apply Qle_bool_iff in H1, H2. now rewrite H1, H2.
Qed.

Lemma feedback_guard (feedback rating : JsValue) :
  negb (truthy feedback) || ratingRefused rating = false <->
  truthy feedback = true /\ acceptableRating rating.
Proof.
  rewrite orb_false_iff, negb_false_iff, ratingRefused_false. tauto.
Qed.

Lemma insertHistory_feedback (asin : jsstring) (optimizationId : nat)
  (feedback : option FeedbackData) (w : World) :
  insertHistory asin optimizationId (js "feedback") feedback w =
  if strictSql (env w) then
    match dbFault (env w) (queries w) with
    | Some message => (Thrown message, countQuery w)
    | None => (Thrown enumRefusal, countQuery w)
    end
  else executeQuery (appendHistory asin optimizationId [] feedback) w.
Proof. reflexivity. Qed.

Lemma insertHistory_created (asin : jsstring) (optimizationId : nat)
  (feedback : option FeedbackData) :
  insertHistory asin optimizationId (js "created") feedback =
  executeQuery (appendHistory asin optimizationId (js "created") feedback).
Proof. reflexivity. Qed.

(** Whatever the feedback route does, the log afterwards is the log
    before, or the log before and one row whose action type is blank. *)
Lemma submitFeedback_history (optimizationId : nat)
  (feedback rating comments : JsValue) (w : World) :
  let w' := snd (submitFeedback optimizationId feedback rating comments w) in
  optimization_history (db w') = optimization_history (db w)
  \/ exists row,
       optimization_history (db w') = optimization_history (db w) ++ [row]
       /\ h_action_type row = [].
Proof.
  cbv zeta. unfold submitFeedback.
  destruct (negb (truthy feedback) || ratingRefused rating);
    [left; reflexivity|].
  unfold tryCatch, bind, selectOptimizationAsin, getWorld, executeQuery.
  cbv beta.
  destruct (dbFault (env w) (queries w)); [left; reflexivity|].
  cbv beta iota.
  destruct (List.map o_asin
              (filter (fun o => o_id o =? optimizationId)
                      (optimizations (db (countQuery w))))) as [|asin l];
    [left; reflexivity|].
  rewrite insertHistory_feedback.
  change (env (countQuery w)) with (env w).
  change (queries (countQuery w)) with (S (queries w)).
  destruct (strictSql (env w)).
  - destruct (dbFault (env w) (S (queries w))); left; reflexivity.
  - unfold executeQuery.
    change (env (countQuery w)) with (env w).
    change (queries (countQuery w)) with (S (queries w)).
    destruct (dbFault (env w) (S (queries w))); [left; reflexivity|].
    right. unfold appendHistory, json, ret. cbn [snd fst setDb db optimization_history countQuery].
    eexists. split; [reflexivity|]. reflexivity.
Qed.

(** C5. [submitFeedback] lets a request through exactly when the feedback
    object is present and the rating is a number from 1 to 5, integer or
    not.  Any other request is answered 400 (invalid feedback) and the
    world is left exactly as it was.  An accepted request for an
    optimization id that is not stored is answered 404 and writes nothing.
    An accepted request for a stored id sends an insert whose action type,
    [feedback], is not one the column lists: a strict server refuses it,
    the route answers 500 and no log entry is written; a server that is
    not strict stores one entry, with a blank action type, and the route
    acknowledges.  In no run at all does the log gain an entry of type
    [feedback]. *)
Theorem submitFeedback_spec (optimizationId : nat)
  (feedback rating comments : JsValue) (w : World) :
  let res := submitFeedback optimizationId feedback rating comments w in
  (~ (truthy feedback = true /\ acceptableRating rating) ->
     res = (Returned invalidFeedback, w))
  /\ (truthy feedback = true -> acceptableRating rating ->
      dbFault (env w) (queries w) = None ->
      (forall o, In o (optimizations (db w)) -> o_id o <> optimizationId) ->
      res = (Returned optimizationNotFound, countQuery w))
  /\ (truthy feedback = true -> acceptableRating rating ->
      dbFault (env w) (queries w) = None ->
      dbFault (env w) (S (queries w)) = None ->
      (exists o, In o (optimizations (db w)) /\ o_id o = optimizationId) ->
      if strictSql (env w) then
        res = (Returned (feedbackFailed enumRefusal),
               countQuery (countQuery w))
      else
        exists o,
          In o (optimizations (db w)) /\ o_id o = optimizationId
          /\ fst res = Returned {| status := 200;
                                   body := FeedbackBody true
                                             (js "Feedback added successfully")
                                             (feedbackDataOf feedback rating
                                                comments (clock w)) |}
          /\ optimization_history (db (snd res)) =
             optimization_history (db w) ++
             [{| h_asin := o_asin o; h_optimization_id := optimizationId;
                 h_action_type := [];
                 h_user_feedback :=
                   Some (feedbackDataOf feedback rating comments (clock w));
                 h_created_at := clock w |}]
          /\ optimizations (db (snd res)) = optimizations (db w)
          /\ products (db (snd res)) = products (db w)
          /\ keyword_tracking (db (snd res)) = keyword_tracking (db w))
  /\ (forall h, In h (optimization_history (db (snd res))) ->
        h_action_type h = js "feedback" ->
        In h (optimization_history (db w))).
Proof.
  cbv zeta.
  assert (L : forall h,
             In h (optimization_history
                     (db (snd (submitFeedback optimizationId feedback rating
                                 comments w)))) ->
             h_action_type h = js "feedback" ->
             In h (optimization_history (db w))).
  { intros h Hin Ht.
    destruct (submitFeedback_history optimizationId feedback rating comments w)
      as [E|(row & E & B)]; rewrite E in Hin; [exact Hin|].
    apply in_app_or in Hin as [Hin|[<-|[]]]; [exact Hin|].
    rewrite B in Ht. discriminate. }
  repeat apply conj; [| | |exact L]; clear L; unfold submitFeedback.
  - intros N.
    destruct (negb (truthy feedback) || ratingRefused rating) eqn:G;
      [reflexivity|].
    apply feedback_guard in G. now destruct N.
  - intros Ht Ha Hq Hnone.
    replace (negb (truthy feedback) || ratingRefused rating) with false
      by (symmetry; apply feedback_guard; split; assumption).
    unfold selectOptimizationAsin.
    erewrite tryCatch_returned; [reflexivity|].
    erewrite bind_returned by (apply executeQuery_ok; exact Hq).
    cbn [fst snd].
    replace (filter (fun o => o_id o =? optimizationId)
                    (optimizations (db (countQuery w)))) with
      (@nil OptimizationRow); [reflexivity|].
    symmetry. cbn [countQuery db].
    induction (optimizations (db w)) as [|o l IH]; [reflexivity|].
    simpl. destruct (o_id o =? optimizationId) eqn:E.
    + apply Nat.eqb_eq in E. exfalso. apply (Hnone o); [now left|exact E].
    + apply IH. intros o' Ho'. apply Hnone. now right.
  - intros Ht Ha Hq Hq' (o & Hin & Hid).
    replace (negb (truthy feedback) || ratingRefused rating) with false
      by (symmetry; apply feedback_guard; split; assumption).
    unfold selectOptimizationAsin.
    assert (F : exists x l,
               filter (fun o => o_id o =? optimizationId)
                      (optimizations (db (countQuery w))) = x :: l).
    { cbn [countQuery db].
      assert (Hf : In o (filter (fun o => o_id o =? optimizationId)
                           (optimizations (db w)))).
      { apply filter_In. split; [exact Hin|now apply Nat.eqb_eq]. }
      destruct (filter (fun o => o_id o =? optimizationId)
                       (optimizations (db w))) as [|x r];
        [destruct Hf|]. eauto. }
    destruct F as (x & l & F).
    assert (Hx : In x (optimizations (db w)) /\ o_id x = optimizationId).
    { assert (Hx : In x (filter (fun o => o_id o =? optimizationId)
                           (optimizations (db (countQuery w)))))
        by (rewrite F; now left).
      apply filter_In in Hx as [H1 H2]. apply Nat.eqb_eq in H2.
      split; assumption. }
    destruct (strictSql (env w)) eqn:Mode.
    + erewrite tryCatch_thrown; [reflexivity|].
      erewrite bind_returned by (apply executeQuery_ok; exact Hq).
      cbn [fst snd]. rewrite F. cbn [List.map].
      unfold getWorld at 1.
      erewrite bind_returned by reflexivity.
      unfold bind. rewrite insertHistory_feedback.
      change (env (countQuery w)) with (env w).
      change (queries (countQuery w)) with (S (queries w)).
      rewrite Mode, Hq'. reflexivity.
    + exists x. split; [apply Hx|]. split; [apply Hx|].
      erewrite tryCatch_returned.
      2:{ erewrite bind_returned by (apply executeQuery_ok; exact Hq).
          cbn [fst snd]. rewrite F. cbn [List.map].
          unfold getWorld at 1.
          erewrite bind_returned by reflexivity.
          erewrite bind_returned.
          2:{ rewrite insertHistory_feedback.
              change (env (countQuery w)) with (env w).
              rewrite Mode. apply executeQuery_ok. exact Hq'. }
          reflexivity. }
      cbn [fst snd]. repeat split.
Qed.

(** ** The rate-limit gate under [Promise.all] *)

Lemma timerDelay_interval : timerDelay minRequestInterval = 1000%Z.
Proof. reflexivity. Qed.

Lemma rateLimitWait_after_stamp (now : Z) (o : Optimizer) :
  rateLimitWait now (rateLimitStamp now o) = Some minRequestInterval.
Proof.
  unfold rateLimitWait, rateLimitStamp, minRequestInterval. simpl.
  rewrite Z.sub_diag. reflexivity.
Qed.

(** When the first check passes, the title request goes out at once and
    the three others together, one interval later. *)
Lemma dispatchCalls_pass (now : Z) (o : Optimizer) :
  rateLimitWait now o = None ->
  dispatchCalls now o =
  (let n := requestCount o in
   let t := (now + 1000)%Z in
   ({| requestCount := S (S (S (S n))); lastRequestTime := t |},
    [{| d_call := optimizeTitle; d_at := now; d_request := n |};
     {| d_call := optimizeBulletPoints; d_at := t; d_request := S n |};
     {| d_call := optimizeDescription; d_at := t; d_request := S (S n) |};
     {| d_call := generateKeywords; d_at := t; d_request := S (S (S n)) |}])).
Proof.
  intros H. unfold dispatchCalls, callOrder.
  cbn [startCalls]. unfold startCall at 1, rateLimitCheck at 1. rewrite H.
  unfold startCall, rateLimitCheck. rewrite !rateLimitWait_after_stamp.
  rewrite timerDelay_interval.
  cbn [schedule fold_left enqueue s_resume].
  assert (L1 : (now + 1000 <? now)%Z = false) by (apply Z.ltb_ge; lia).
  repeat (progress (rewrite ?L1, ?Z.ltb_irrefl; cbn [enqueue s_resume])).
  reflexivity.
Qed.

(** When the first check has to wait, all four do, for the same time, and
    all four requests go out together. *)
Lemma dispatchCalls_wait (now : Z) (o : Optimizer) (waitTime : Z) :
  rateLimitWait now o = Some waitTime ->
  dispatchCalls now o =
  (let n := requestCount o in
   let t := (now + timerDelay waitTime)%Z in
   ({| requestCount := S (S (S (S n))); lastRequestTime := t |},
    [{| d_call := optimizeTitle; d_at := t; d_request := n |};
     {| d_call := optimizeBulletPoints; d_at := t; d_request := S n |};
     {| d_call := optimizeDescription; d_at := t; d_request := S (S n) |};
     {| d_call := generateKeywords; d_at := t; d_request := S (S (S n)) |}])).
Proof.
  intros H. unfold dispatchCalls, callOrder.
  cbn [startCalls]. unfold startCall, rateLimitCheck. rewrite !H.
  cbn [schedule fold_left enqueue s_resume].
  repeat (progress (rewrite ?Z.ltb_irrefl; cbn [enqueue s_resume])).
  reflexivity.
Qed.

Lemma dispatchCalls_shape (now : Z) (o : Optimizer) :
  exists t1 t2 : Z,
    (now <= t1 <= t2)%Z /\
    dispatchEvents (snd (dispatchCalls now o)) =
    [EvDispatch t1 optimizeTitle; EvDispatch t2 optimizeBulletPoints;
     EvDispatch t2 optimizeDescription; EvDispatch t2 generateKeywords].
Proof.
  destruct (rateLimitWait now o) as [waitTime|] eqn:H.
  - rewrite (dispatchCalls_wait _ _ H).
    exists (now + timerDelay waitTime)%Z, (now + timerDelay waitTime)%Z.
    split; [|reflexivity].
    unfold timerDelay.
    destruct ((waitTime <? 1) || (2147483647 <? waitTime))%Z eqn:E; [lia|].
    apply orb_false_iff in E as [E _]. apply Z.ltb_ge in E. lia.
  - rewrite (dispatchCalls_pass _ _ H).
    exists now, (now + 1000)%Z. split; [lia|reflexivity].
Qed.

(** What a run of [optimizeProduct] leaves untouched, and what it adds to
    the trace. *)
Lemma emit_all (ds : list Dispatched) (w : World) :
  let w' := fold_left (fun w d => emit (EvDispatch (d_at d) (d_call d)) w)
                      ds w in
  env w' = env w /\ db w' = db w /\ queries w' = queries w /\
  fetches w' = fetches w /\ clock w' = clock w /\
  optimizer w' = optimizer w /\
  trace w' = trace w ++ dispatchEvents ds.
Proof.
  revert w. induction ds as [|d ds IH]; intros w; cbn [fold_left].
  - cbv zeta. rewrite app_nil_r. repeat split.
  - specialize (IH (emit (EvDispatch (d_at d) (d_call d)) w)).
    cbv zeta in IH |- *.
    destruct IH as (E1 & E2 & E3 & E4 & E5 & E6 & E7).
    rewrite E1, E2, E3, E4, E5, E6, E7.
    cbn [emit env db queries fetches clock optimizer trace dispatchEvents
         List.map].
    rewrite <- app_assoc. repeat split.
Qed.

Lemma optimizeProduct_frame (p : ProductData.t) (w : World) :
  let w' := snd (optimizeProduct p w) in
  env w' = env w /\ db w' = db w /\ queries w' = queries w /\
  fetches w' = fetches w /\
  optimizer w' = fst (dispatchCalls (clock w) (optimizer w)) /\
  trace w' =
  trace w ++ dispatchEvents (snd (dispatchCalls (clock w) (optimizer w))).
Proof.
  cbv zeta. unfold optimizeProduct.
  destruct (dispatchCalls (clock w) (optimizer w)) as [o ds].
  pose proof (emit_all ds (setOptimizer o w)) as E. cbv zeta in E.
  destruct E as (E1 & E2 & E3 & E4 & E5 & E6 & E7).
  destruct (firstRejection _) as [[t m]|]; cbn [snd fst setClock env db
    queries fetches optimizer trace];
    rewrite E1, E2, E3, E4, E6, E7; repeat split.
Qed.

(** ** Look-ups *)

Lemma sameText_true (a b : jsstring) : sameText a b = true <-> a = b.
Proof.
  unfold sameText. destruct (list_eq_dec N.eq_dec a b); split; congruence.
Qed.

Lemma latestBy_from {A} (key : A -> Z) (l : list A) (b : A) :
  exists x,
    fold_left
      (fun best x =>
         match best with
         | None => Some x
         | Some b => if (key b <? key x)%Z then Some x else best
         end) l (Some b) = Some x
    /\ (x = b \/ In x l).
Proof.
  revert b. induction l as [|a l IH]; intros b; cbn [fold_left].
  - exists b. auto.
  - destruct (key b <? key a)%Z.
    + destruct (IH a) as (x & E & [Hx|H]); exists x; cbn [In]; auto.
    + destruct (IH b) as (x & E & [Hx|H]); exists x; cbn [In]; auto.
Qed.


Lemma latestBy_in {A} (key : A -> Z) (l : list A) (x : A) :
  latestBy key l = Some x -> In x l.
Proof.
  destruct l as [|b l]; [discriminate|].
  unfold latestBy. cbn [fold_left].
  destruct (latestBy_from key l b) as (y & E & H).
  rewrite E. intros [= <-]. cbn [In]. destruct H; auto.
Qed.

Lemma selectProduct_ok (asin : jsstring) (w : World) :
  dbFault (env w) (queries w) = None ->
  selectProduct asin w = (Returned (storedProduct w asin), countQuery w).
Proof. intros H. unfold selectProduct. now rewrite executeQuery_ok. Qed.

Lemma selectRecentOptimization_ok (asin : jsstring) (w : World) :
  dbFault (env w) (queries w) = None ->
  selectRecentOptimization asin w =
  (Returned (recentOptimization w asin), countQuery w).
Proof.
  intros H. unfold selectRecentOptimization. now rewrite executeQuery_ok.
Qed.


Lemma recentOptimization_none (w : World) (asin : jsstring) :
  (forall o, In o (optimizations (db w)) -> o_asin o = asin ->
             (oneHour <= clock w - o_created_at o)%Z) ->
  recentOptimization w asin = None.
Proof.
  intros H. unfold recentOptimization.
  replace (filter _ (optimizations (db w))) with (@nil OptimizationRow);
    [reflexivity|].
  symmetry. induction (optimizations (db w)) as [|o l IH]; [reflexivity|].
  cbn [filter].
  destruct (sameText (o_asin o) asin) eqn:E1; cbn [andb].
  - apply sameText_true in E1.
    assert (Hage := H o (or_introl eq_refl) E1).
    destruct (Z.ltb_spec (clock w - oneHour) (o_created_at o)); [lia|].
    apply IH. intros o' Ho'. apply H. now right.
  - apply IH. intros o' Ho'. apply H. now right.
Qed.

(** ** Keyword storage *)

Lemma upsertKeyword_run (asin keyword source : jsstring) (w : World) :
  let res := upsertKeyword asin keyword source w in
  sameButKeywords w (snd res)
  /\ queries (snd res) = S (queries w)
  /\ fst res = match dbFault (env w) (queries w) with
               | Some m => Thrown m
               | None => Returned tt
               end.
Proof.
  cbv zeta. unfold upsertKeyword, executeQuery, sameButKeywords.
  destruct (dbFault (env w) (queries w)); cbn; repeat split.
Qed.

Lemma storeKeywords_run (asin : jsstring) (keywords : list jsstring)
  (w : World) :
  let res := storeKeywords asin keywords w in
  sameButKeywords w (snd res)
  /\ ((forall i, i < length keywords ->
                 dbFault (env w) (queries w + i) = None) ->
      fst res = Returned tt)
  /\ (forall j m, j < length keywords ->
        (forall i, i < j -> dbFault (env w) (queries w + i) = None) ->
        dbFault (env w) (queries w + j) = Some m ->
        fst res = Thrown m).
Proof.
  revert w. induction keywords as [|k rest IH]; intros w; cbv zeta.
  - cbn [storeKeywords]. unfold ret. cbn [fst snd length].
    split; [unfold sameButKeywords; repeat split|].
    split; [reflexivity|]. intros j m Hj. lia.
  - cbn [storeKeywords length].
    destruct (upsertKeyword_run asin k (js "suggested") w) as (F & Q & O).
    cbv zeta in F, Q, O.
    unfold bind.
    destruct (upsertKeyword asin k (js "suggested") w) as [[[]|m0] w1] eqn:U;
      cbn [fst snd] in F, Q, O |- *.
    + specialize (IH w1). cbv zeta in IH. destruct IH as (F' & Hok & Hbad).
      assert (Ee : env w1 = env w) by apply F.
      destruct (dbFault (env w) (queries w)) as [m1|] eqn:D0; [discriminate|].
      split.
      { unfold sameButKeywords in *.
        destruct F as (A1 & A2 & A3 & A4 & A5 & A6 & A7 & A8).
        destruct F' as (B1 & B2 & B3 & B4 & B5 & B6 & B7 & B8).
        repeat split; congruence. }
      split.
      { intros Hall. apply Hok. intros i Hi.
        rewrite Ee, Q. replace (S (queries w) + i) with (queries w + S i) by lia.
        apply Hall. lia. }
      { intros j m Hj Hbefore Hj'.
        destruct j as [|j'].
        - rewrite Nat.add_0_r in Hj'. congruence.
        - apply (Hbad j' m); [lia| |].
          + intros i Hi. rewrite Ee, Q.
            replace (S (queries w) + i) with (queries w + S i) by lia.
            apply Hbefore. lia.
          + rewrite Ee, Q.
            replace (S (queries w) + j') with (queries w + S j') by lia.
            exact Hj'. }
    + split; [exact F|].
      destruct (dbFault (env w) (queries w)) as [m1|] eqn:D0; [|discriminate].
      injection O as O. subst m0.
      split.
      { intros Hall. specialize (Hall 0 (Nat.lt_0_succ _)).
        rewrite Nat.add_0_r in Hall. congruence. }
      { intros j m Hj Hbefore Hj'.
        destruct j as [|j'].
        - rewrite Nat.add_0_r in Hj'. congruence.
        - specialize (Hbefore 0 (Nat.lt_0_succ _)).
          rewrite Nat.add_0_r in Hbefore. congruence. }
Qed.

(** ** The optimize route, step by step *)

Lemma tryCatch_bind {A B} (c : M A) (k : A -> M B) (h : jsstring -> M B)
  (w : World) :
  tryCatch (bind c k) h w =
  match c w with
  | (Returned a, w') => tryCatch (k a) h w'
  | (Thrown m, w') => h m w'
  end.
Proof. unfold tryCatch, bind. destruct (c w) as [[a|m] w']; reflexivity. Qed.

Lemma optimizeFailure_run (m : jsstring) (w : World) :
  optimizeFailure m w = (Returned (failureResponse m), w).
Proof.
  unfold optimizeFailure, failureResponse.
  destruct (includes m (js "API")); reflexivity.
Qed.

(** With a stored product and no recent optimization the route runs the
    generation and, if it succeeds, goes on to persist its result. *)
Lemma optimizeRoute_generation (asin : jsstring) (w : World)
  (product : ProductRow) :
  dbFault (env w) (queries w) = None ->
  dbFault (env w) (S (queries w)) = None ->
  storedProduct w asin = Some product ->
  recentOptimization w asin = None ->
  optimizeRoute asin w =
  match optimizeProduct (productDataOf product) (countQuery (countQuery w))
  with
  | (Returned r, w3) =>
      tryCatch (persistAndRespond product asin r) optimizeFailure w3
  | (Thrown m, w3) => (Returned (failureResponse m), w3)
  end.
Proof.
  intros Q0 Q1 HP HR. unfold optimizeRoute.
  rewrite tryCatch_bind, (selectProduct_ok asin w Q0), HP.
  rewrite tryCatch_bind.
  rewrite (selectRecentOptimization_ok asin (countQuery w)) by exact Q1.
  change (recentOptimization (countQuery w) asin)
    with (recentOptimization w asin).
  rewrite HR. rewrite tryCatch_bind.
  change {| ProductData.asin := p_asin product;
            ProductData.title := p_title product;
            ProductData.bulletPoints := p_bullet_points product;
            ProductData.description := p_description product;
            ProductData.category := None;
            ProductData.brand := None |} with (productDataOf product).
  destruct (optimizeProduct (productDataOf product) (countQuery (countQuery w)))
    as [[r|m] w3].
  - reflexivity.
  - apply optimizeFailure_run.
Qed.


(** Persisting a generation result: the two inserts, then the keywords. *)
Lemma persist_inserts (product : ProductRow) (asin : jsstring)
  (r : OptimizationResult) (w : World) :
  dbFault (env w) (queries w) = None ->
  dbFault (env w) (S (queries w)) = None ->
  tryCatch (persistAndRespond product asin r) optimizeFailure w =
  match storeKeywords asin (keywordsOfResult r) (recorded product asin r w)
  with
  | (Returned _, w') => (Returned (freshResponse asin r), w')
  | (Thrown m, w') => (Returned (failureResponse m), w')
  end.
Proof.
  intros Q0 Q1. unfold persistAndRespond.
  rewrite tryCatch_bind. unfold insertOptimization.
  rewrite executeQuery_ok by exact Q0. cbn [fst snd].
  rewrite tryCatch_bind. rewrite insertHistory_created.
  rewrite executeQuery_ok by exact Q1. unfold appendHistory. cbn [fst snd].
  rewrite tryCatch_bind.
  match goal with
  | |- match storeKeywords _ _ ?w1 with _ => _ end = _ =>
      change w1 with (recorded product asin r w)
  end.
  destruct (storeKeywords asin (keywordsOfResult r) (recorded product asin r w))
    as [[u|m] w'].
  - reflexivity.
  - apply optimizeFailure_run.
Qed.

(** ** The product route, step by step *)

Lemma productFailure_returns (m : jsstring) (w : World) :
  exists resp, productFailure m w = (Returned resp, w).
Proof.
  unfold productFailure.
  destruct (includes m (js "Invalid ASIN")); [eexists; reflexivity|].
  destruct (includes m (js "not found")); eexists; reflexivity.
Qed.


Lemma getProduct_fetches (asin : jsstring) (w : World) :
  isValidASIN (JStr asin) = true ->
  dbFault (env w) (queries w) = None ->
  (storedProduct w asin = None \/
   exists product, storedProduct w asin = Some product /\
                   (oneDay <= clock w - p_updated_at product)%Z) ->
  getProduct asin w = tryCatch (fetchAndStore asin) productFailure (countQuery w).
Proof.
  intros V Q0 HP. unfold getProduct. rewrite V. cbn [negb].
  rewrite tryCatch_bind, (selectProduct_ok asin w Q0).
  rewrite tryCatch_bind. unfold getWorld at 1.
  change (clock (countQuery w)) with (clock w).
  destruct HP as [HP|(product & HP & Hage)]; rewrite HP.
  - reflexivity.
  - destruct (Z.ltb_spec (clock w - oneDay) (p_updated_at product)); [lia|].
    reflexivity.
Qed.

Lemma fetchAndStore_run (asin : jsstring) (w : World) :
  let res := tryCatch (fetchAndStore asin) productFailure w in
  trace (snd res) = trace w ++ [EvFetch asin]
  /\ forall data,
       scrape (env w) (fetches w) asin = Returned data ->
       dbFault (env w) (queries w) = None ->
       fst res = Returned {| status := 200;
                             body := ProductBody data (js "fresh") (clock w) |}.
Proof.
  cbv zeta. unfold fetchAndStore. rewrite tryCatch_bind.
  unfold fetchProductDetails.
  destruct (scrape (env w) (fetches w) asin) as [data|m] eqn:S.
  - rewrite tryCatch_bind. unfold upsertProduct, executeQuery.
    cbn [env queries emit countFetch].
    destruct (dbFault (env w) (queries w)) as [m|] eqn:Q.
    + destruct (productFailure_returns m
                  (countQuery (emit (EvFetch asin) (countFetch w))))
        as (resp & E).
      rewrite E. cbn. split; [reflexivity|]. intros ? ? ?. discriminate.
    + cbn. split; [reflexivity|]. intros d [= <-] _. reflexivity.
  - destruct (productFailure_returns m (emit (EvFetch asin) (countFetch w)))
      as (resp & E).
    rewrite E. cbn. split; [reflexivity|]. intros ? ?. discriminate.
Qed.

(** ** Freshness *)


(** ** A keyword write that fails *)

(** C4 (as amended). When the generation has succeeded and the
    optimization row and its created entry are written, a keyword upsert
    that fails does not remove them: both stay in the store, no statement
    being rolled back.  The response however is an error: status 503 when
    the driver's message mentions the API, status 500 with that message
    otherwise. *)
Theorem keyword_failure_keeps_record (asin : jsstring) (w : World)
  (product : ProductRow) (r : OptimizationResult) (w3 : World)
  (j : nat) (m : jsstring) :
  dbFault (env w) (queries w) = None ->
  dbFault (env w) (1 + queries w) = None ->
  storedProduct w asin = Some product ->
  recentOptimization w asin = None ->
  optimizeProduct (productDataOf product) (countQuery (countQuery w))
  = (Returned r, w3) ->
  dbFault (env w) (2 + queries w) = None ->
  dbFault (env w) (3 + queries w) = None ->
  j < length (keywordsOfResult r) ->
  (forall i, i < j -> dbFault (env w) (4 + queries w + i) = None) ->
  dbFault (env w) (4 + queries w + j) = Some m ->
  let res := optimizeRoute asin w in
  let id := nextId o_id (optimizations (db w)) in
  fst res = Returned (failureResponse m)
  /\ (status (failureResponse m) = 503 \/ status (failureResponse m) = 500)
  /\ optimizations (db (snd res)) =
     optimizations (db w) ++ [optimizationRowOf product asin r id (clock w3)]
  /\ optimization_history (db (snd res)) =
     optimization_history (db w) ++ [createdEntry asin id (clock w3)].
Proof.
  intros Q0 Q1 HP HR HO Q2 Q3 Hj Hbefore Hfault. cbv zeta.
  rewrite (@optimizeRoute_generation asin w product Q0 Q1 HP HR), HO.
  pose proof (optimizeProduct_frame (productDataOf product)
                (countQuery (countQuery w))) as F.
  cbv zeta in F. rewrite HO in F. cbn [snd] in F.
  destruct F as (Fe & Fd & Fq & _).
  cbn [countQuery env db queries] in Fe, Fd, Fq.
  rewrite persist_inserts by (rewrite Fe, Fq; assumption).
  destruct (storeKeywords_run asin (keywordsOfResult r)
              (recorded product asin r w3)) as (Fr & _ & Hbad).
  cbv zeta in Fr, Hbad.
  assert (T : fst (storeKeywords asin (keywordsOfResult r)
                     (recorded product asin r w3)) = Thrown m).
  { apply (Hbad j m Hj); cbn [recorded env queries]; rewrite Fe, Fq.
    - intros i Hi. apply (Hbefore i Hi).
    - exact Hfault. }
  destruct (storeKeywords asin (keywordsOfResult r)
              (recorded product asin r w3)) as [[u|m'] w5];
    cbn [fst snd] in *; [discriminate|].
  injection T as ->.
  split; [reflexivity|].
  split.
  { unfold failureResponse. destruct (includes m (js "API")); auto. }
  destruct Fr as (_ & _ & _ & _ & _ & _ & Fo & Fh).
  rewrite Fo, Fh. cbn [recorded db optimizations optimization_history].
  rewrite Fd. split; reflexivity.
Qed.

(** ** Batch optimization *)

Lemma timeouts_app (a b : list Event) :
  timeouts (a ++ b) = timeouts a ++ timeouts b.
Proof.
  induction a as [|e a IH]; [reflexivity|].
  destruct e; cbn [app timeouts]; rewrite IH; reflexivity.
Qed.

Lemma timeouts_dispatchEvents (ds : list Dispatched) :
  timeouts (dispatchEvents ds) = [].
Proof. induction ds; [reflexivity|exact IHds]. Qed.

Lemma optimizeProduct_asin (p : ProductData.t) (w w' : World)
  (r : OptimizationResult) :
  optimizeProduct p w = (Returned r, w') -> r_asin r = ProductData.asin p.
Proof.
  unfold optimizeProduct.
  destruct (dispatchCalls (clock w) (optimizer w)) as [o ds].
  destruct (firstRejection _) as [[t m]|]; [discriminate|].
  intros [= <- _]. reflexivity.
Qed.

Lemma optimizeProduct_timeouts (p : ProductData.t) (w : World) :
  timeouts (trace (snd (optimizeProduct p w))) = timeouts (trace w).
Proof.
  destruct (optimizeProduct_frame p w) as (_ & _ & _ & _ & _ & T).
  rewrite T, timeouts_app, timeouts_dispatchEvents. apply app_nil_r.
Qed.

(** One turn of the loop: the record is processed from the world the
    previous turn left; a success is followed by the sleep unless it is
    the last record, a failure is recorded and the loop goes on at once. *)
Lemma batchLoop_cons (d : Z) (p : ProductData.t) (rest : list ProductData.t)
  (rs : list OptimizationResult) (es : list BatchFailure) (w : World) :
  batchLoop d (p :: rest) rs es w =
  match optimizeProduct p w with
  | (Returned r, w1) =>
      batchLoop d rest (rs ++ [r]) es
                (if isNil rest then w1 else afterSleep d w1)
  | (Thrown m, w1) =>
      batchLoop d rest rs
                (es ++ [{| bf_asin := ProductData.asin p; bf_error := m;
                           bf_timestamp := clock w1 |}]) w1
  end.
Proof.
  cbn [batchLoop]. unfold bind at 1. unfold tryCatch.
  unfold bind at 1.
  destruct (optimizeProduct p w) as [[r|m] w1].
  - unfold bind at 1. destruct (isNil rest); reflexivity.
  - reflexivity.
Qed.

Lemma batchLoop_run (d : Z) (products : list ProductData.t) :
  forall (rs : list OptimizationResult) (es : list BatchFailure) (w : World),
  exists rs' es' w' k,
    batchLoop d products rs es w = (Returned (rs ++ rs', es ++ es'), w')
    /\ length rs' + length es' = length products
    /\ Permutation (List.map r_asin rs' ++ List.map bf_asin es')
                   (List.map ProductData.asin products)
    /\ timeouts (trace w') = timeouts (trace w) ++ repeat d k
    /\ k <= length rs' <= S k
    /\ (products <> [] -> length rs' = length products -> S k = length rs').
Proof.
  induction products as [|p rest IH]; intros rs es w.
  - exists [], [], w, 0. cbn [batchLoop repeat length List.map app].
    rewrite !app_nil_r. unfold ret.
    repeat split; try lia; try constructor. intros H. now destruct H.
  - rewrite batchLoop_cons.
    pose proof (optimizeProduct_timeouts p w) as T.
    destruct (optimizeProduct p w) as [[r|m] w1] eqn:O; cbn [snd] in T.
    + pose proof (optimizeProduct_asin _ _ O) as A.
      destruct rest as [|q rest'].
      * cbn [isNil].
        destruct (IH (rs ++ [r]) es w1) as (rs' & es' & w' & k & E & L & P & D & K & _).
        cbn [length] in L.
        assert (rs' = []) by (destruct rs'; [reflexivity|cbn in L; lia]).
        assert (es' = []) by (destruct es'; [reflexivity|cbn in L; lia]).
        subst rs' es'. cbn [length] in K. assert (k = 0) by lia. subst k.
        exists [r], [], w', 0. rewrite E, <- app_assoc.
        cbn [List.map app length repeat] in *. rewrite A, D, T.
        repeat split; try lia; constructor; constructor.
      * cbn [isNil].
        destruct (IH (rs ++ [r]) es (afterSleep d w1))
          as (rs' & es' & w' & k & E & L & P & D & K & KL).
        exists (r :: rs'), es', w', (S k). rewrite E, <- app_assoc.
        cbn [List.map app length repeat] in *. rewrite A, D.
        unfold afterSleep, emit, setClock. cbn [trace].
        rewrite timeouts_app, T. cbn [timeouts]. rewrite <- app_assoc.
        repeat split; try lia.
        -- now constructor.
        -- intros _ Hl. assert (Hl' : length rs' = S (length rest')) by lia.
           rewrite <- (KL ltac:(discriminate) Hl'). reflexivity.
    + destruct (IH rs (es ++ [{| bf_asin := ProductData.asin p; bf_error := m;
                                 bf_timestamp := clock w1 |}]) w1)
        as (rs' & es' & w' & k & E & L & P & D & K & KL).
      exists rs', ({| bf_asin := ProductData.asin p; bf_error := m;
                      bf_timestamp := clock w1 |} :: es'), w', k.
      rewrite E, <- app_assoc.
      cbn [List.map app length bf_asin] in *. rewrite D, T.
      repeat split; try lia.
      apply Permutation_sym, Permutation_cons_app, Permutation_sym. exact P.
Qed.






(** ** The rate-limit gate *)

(** C8. The gate is consulted before each of the four requests, but the
    check and the stamp are separated by the wait: calls that find the
    last request too recent all sleep until the same instant and then
    leave together.  In every run of [optimizeProduct] the bullet,
    description and keyword requests are issued at the same time, so the
    minimum interval between requests is not kept. *)
Theorem promise_all_requests_leave_together (p : ProductData.t) (w : World) :
  exists t1 t2 : Z,
    (clock w <= t1 <= t2)%Z
    /\ trace (snd (optimizeProduct p w)) =
       trace w ++ [EvDispatch t1 optimizeTitle; EvDispatch t2 optimizeBulletPoints;
                   EvDispatch t2 optimizeDescription; EvDispatch t2 generateKeywords].
Proof.
  destruct (optimizeProduct_frame p w) as (_ & _ & _ & _ & _ & T).
  destruct (dispatchCalls_shape (clock w) (optimizer w)) as (t1 & t2 & H & Sh).
  exists t1, t2. split; [exact H|]. now rewrite T, Sh.
Qed.

(** On an engine that has never been used the title request leaves at
    once and the three others one second later, all at the same
    millisecond. *)
Example fresh_engine_dispatch_times :
  trace (snd (optimizeProduct (sampleProduct echoDot) (engineWorld []))) =
  [EvDispatch epoch0 optimizeTitle;
   EvDispatch (epoch0 + 1000) optimizeBulletPoints;
   EvDispatch (epoch0 + 1000) optimizeDescription;
   EvDispatch (epoch0 + 1000) generateKeywords].
Proof. vm_compute. reflexivity. Qed.

(** ** Scenarios *)


(** C4, as stated, fails on the code: with the fifth query (the first
    keyword upsert) failing, the optimization row and its created entry
    are in the store, yet the response is an error of status 500. *)
Lemma keyword_failure_fails_the_response :
  let res := optimizeRoute echoDot (storeWorld (hours 1) None [4]) in
  statusOf (fst res) = 500
  /\ length (optimizations (db (snd res))) = 1
  /\ List.map h_action_type (optimization_history (db (snd res)))
     = [js "created"]
  /\ keyword_tracking (db (snd res)) = [].
Proof. vm_compute. repeat split. Qed.

(** The same failure one keyword later: the second keyword upsert is the
    one that fails. *)
Lemma keyword_failure_keeps_record_scenario :
  let res := optimizeRoute echoDot (storeWorld (hours 1) None [5]) in
  statusOf (fst res) = 500
  /\ length (optimizations (db (snd res))) = 1
  /\ length (optimization_history (db (snd res))) = 1.
Proof.
  cbv zeta.
  pose proof
    (fun r w3 HO =>
       @keyword_failure_keeps_record echoDot (storeWorld (hours 1) None [5])
         (sampleRow (epoch0 - hours 1)) r w3 1
         (js "Lock wait timeout exceeded")
         eq_refl eq_refl eq_refl eq_refl HO eq_refl eq_refl) as K.
  edestruct K as (H1 & _ & H3 & H4).
  - vm_compute. reflexivity.
  - vm_compute. lia.
  - intros i Hi. assert (i = 0) by lia. subst i. reflexivity.
  - reflexivity.
  - rewrite H1, H3, H4. repeat split.
Defined.

(** C5 fails on the code: a whole-number rating of 4 with a feedback
    object, for a stored optimization, is answered 500 by the route on a
    strict server and no log entry is written; on a server that is not
    strict the entry is written with a blank action type. *)
Lemma submitFeedback_feedback_refused :
  let w := storeWorld (hours 1) (Some (hours 2)) [] in
  let feedback := JObj [(js "helpful", JBool true)] in
  let res := submitFeedback 1 feedback (JNum 4) (JStr (js "clear")) w in
  let res' :=
    submitFeedback 1 feedback (JNum 4) (JStr (js "clear")) (lenient w) in
  integerRating (JNum 4)
  /\ fst res = Returned (feedbackFailed enumRefusal)
  /\ optimization_history (db (snd res)) = []
  /\ statusOf (fst res') = 200
  /\ List.map h_action_type (optimization_history (db (snd res'))) = [[]].
Proof.
  split.
  - exists 4%Z. split; [reflexivity|lia].
  - vm_compute. repeat split.
Qed.

(** The guard has no test for whole numbers: the rating 2.5 is not
    answered 400; the request goes on to the insert, and where the server
    takes it the entry carries that rating. *)
Example submitFeedback_accepts_fraction :
  let w := storeWorld (hours 1) (Some (hours 2)) [] in
  let res := submitFeedback 1 (JObj []) (JNum (5 # 2)) JUndefined w in
  let res' :=
    submitFeedback 1 (JObj []) (JNum (5 # 2)) JUndefined (lenient w) in
  ~ integerRating (JNum (5 # 2))
  /\ statusOf (fst res) = 500
  /\ statusOf (fst res') = 200
  /\ List.map (fun h => option_map fb_rating (h_user_feedback h))
       (optimization_history (db (snd res')))
     = [Some (JNum (5 # 2))].
Proof.
  split.
  - intros (n & E & _). injection E as E1 E2. discriminate.
  - vm_compute. repeat split.
Qed.

(** The scenario of the specification: a rating of 6 is refused and
    nothing is written. *)
Example submitFeedback_rating_six :
  submitFeedback 1 (JObj []) (JNum 6) JUndefined
    (storeWorld (hours 1) (Some (hours 2)) [])
  = (Returned invalidFeedback, storeWorld (hours 1) (Some (hours 2)) []).
Proof. reflexivity. Qed.

(** A whole-number rating with a helpful flag: for a stored optimization
    on a strict server, on one that is not strict, and for an id that is
    not stored. *)
Lemma submitFeedback_scenario :
  let w := storeWorld (hours 1) (Some (hours 2)) [] in
  let feedback := JObj [(js "helpful", JBool true)] in
  submitFeedback 1 feedback (JNum 4) (JStr (js "clear")) w
    = (Returned (feedbackFailed enumRefusal), countQuery (countQuery w))
  /\ (statusOf
        (fst (submitFeedback 1 feedback (JNum 4) (JStr (js "clear"))
                (lenient w))) = 200
      /\ List.map h_action_type
           (optimization_history
              (db (snd (submitFeedback 1 feedback (JNum 4)
                          (JStr (js "clear")) (lenient w)))))
         = [[]])
  /\ submitFeedback 7 feedback (JNum 4) (JStr (js "clear")) w
     = (Returned optimizationNotFound, countQuery w).
Proof.
  cbv zeta.
  assert (A : acceptableRating (JNum 4)).
  { exists 4%Q. split; [reflexivity|]. split; unfold Qle; simpl; lia. }
  assert (St : exists o,
             In o (optimizations (db (storeWorld (hours 1) (Some (hours 2)) [])))
             /\ o_id o = 1).
  { exists (sampleOptimization (epoch0 - hours 2)).
    split; [now left|reflexivity]. }
  split; [|split].
  - destruct (submitFeedback_spec 1 (JObj [(js "helpful", JBool true)])
                (JNum 4) (JStr (js "clear"))
                (storeWorld (hours 1) (Some (hours 2)) []))
      as (_ & _ & H & _).
    exact (H eq_refl A eq_refl eq_refl St).
  - destruct (submitFeedback_spec 1 (JObj [(js "helpful", JBool true)])
                (JNum 4) (JStr (js "clear"))
                (lenient (storeWorld (hours 1) (Some (hours 2)) [])))
      as (_ & _ & H & _).
    destruct (H eq_refl A eq_refl eq_refl St) as (o & _ & _ & E1 & E2 & _).
    rewrite E1, E2. split; reflexivity.
  - destruct (submitFeedback_spec 7 (JObj [(js "helpful", JBool true)])
                (JNum 4) (JStr (js "clear"))
                (storeWorld (hours 1) (Some (hours 2)) []))
      as (_ & H & _).
    apply (H eq_refl A eq_refl).
    intros o [<-|[]]. vm_compute. discriminate.
Defined.

(** A comma-separated text does not decode and comes back as a sequence
    of strings. *)
Lemma cachedSuggestedKeywords_scenario :
  exists l, cachedSuggestedKeywords (PayText (js "a, b")) = strings l.
Proof.
  destruct (cachedSuggestedKeywords_resolution (PayText (js "a, b")))
    as (_ & H & _).
  apply H. reflexivity.
Defined.


(** * Further properties of the code *)

(** ** Text helpers *)

Lemma trimStart_split (s : jsstring) :
  exists p, s = p ++ trimStart s /\ forallb isWhiteSpace p = true.
Proof.
  induction s as [|c r (p & E & F)]; [exists []; split; reflexivity|].
  cbn [trimStart]. destruct (isWhiteSpace c) eqn:W.
  - exists (c :: p). cbn [app forallb]. rewrite W, <- E. split; [reflexivity|exact F].
  - exists []. split; reflexivity.
Qed.

Lemma trimStart_head (s : jsstring) (c : N) (r : jsstring) :
  trimStart s = c :: r -> isWhiteSpace c = false.
Proof.
  induction s as [|a s IH]; [discriminate|].
  cbn [trimStart]. destruct (isWhiteSpace a) eqn:W; [exact IH|].
  intros [= <- _]. exact W.
Qed.

Lemma trimStart_fixed (s : jsstring) :
  match s with c :: _ => isWhiteSpace c = false | [] => True end ->
  trimStart s = s.
Proof. destruct s as [|c r]; [reflexivity|]. cbn. now intros ->. Qed.

Lemma trimStart_idem (s : jsstring) : trimStart (trimStart s) = trimStart s.
Proof.
  apply trimStart_fixed. destruct (trimStart s) as [|c r] eqn:E; [exact I|].
  eapply trimStart_head; exact E.
Qed.

Lemma trim_idem (s : jsstring) : trim (trim s) = trim s.
Proof.
  unfold trim, trimEnd.
  set (t := trimStart s). set (u := trimStart (rev t)).
  assert (H : trimStart (rev u) = rev u).
  { apply trimStart_fixed. destruct (rev u) as [|c r'] eqn:E; [exact I|].
    destruct (trimStart_split (rev t)) as (p & Ep & _). fold u in Ep.
    assert (Et : t = rev u ++ rev p).
    { rewrite <- (rev_involutive t), Ep, rev_app_distr. reflexivity. }
    rewrite E in Et. cbn [app] in Et.
    apply (@trimStart_head s c (r' ++ rev p)). exact Et. }
  rewrite H, rev_involutive. unfold u. now rewrite trimStart_idem.
Qed.

Lemma trimStart_In (c : N) (s : jsstring) : In c (trimStart s) -> In c s.
Proof.
  destruct (trimStart_split s) as (p & E & _). intros H.
  rewrite E. apply in_or_app. now right.
Qed.

Lemma trim_In (c : N) (s : jsstring) : In c (trim s) -> In c s.
Proof.
  unfold trim, trimEnd. intros H.
  apply in_rev in H. apply trimStart_In in H. apply in_rev in H.
  now apply trimStart_In.
Qed.

Lemma split_no_separator (sep : N) (s : jsstring) (piece : jsstring) :
  In piece (split sep s) -> ~ In sep piece.
Proof.
  revert piece. induction s as [|c r IH]; intros piece.
  - cbn. intros [<-|[]] [].
  - cbn [split]. destruct (c =? sep)%N eqn:E.
    + intros [<-|H]; [intros []|now apply IH].
    + destruct (split sep r) as [|p ps] eqn:S.
      * intros [<-|[]] [->|[]]. now rewrite N.eqb_refl in E.
      * intros [<-|H].
        -- intros [->|Hin]; [now rewrite N.eqb_refl in E|].
           apply (IH p); [now left|exact Hin].
        -- apply IH. now right.
Qed.

Lemma firstn_incl {A} (n : nat) (l : list A) (x : A) :
  In x (firstn n l) -> In x l.
Proof.
  revert l. induction n as [|n IH]; intros [|a l]; cbn; try tauto.
  intros [->|H]; auto.
Qed.

(** ** What the four calls make of the replies *)

(** X1. The keywords returned by [generateKeywords] are at most five;
    none is empty, none contains a comma, and each is already trimmed. *)
Theorem generateKeywords_shape (text : jsstring) :
  length (keywordsOf text) <= 5
  /\ forall k, In k (keywordsOf text) ->
       k <> [] /\ ~ In comma k /\ trim k = k.
Proof.
  unfold keywordsOf. split.
  - rewrite length_firstn. apply Nat.le_min_l.
  - intros k H. apply firstn_incl in H.
    apply filter_In in H as [H Hne].
    apply in_map_iff in H as (piece & <- & Hp).
    split; [intros E; rewrite E in Hne; discriminate|].
    split.
    + intros Hc. apply trim_In in Hc.
      exact (split_no_separator _ _ _ Hp Hc).
    + apply trim_idem.
Qed.

(** X2. [optimizeTitle] removes the pair of double quotes wrapped around
    a reply, and nothing else; a reply that neither starts nor ends with a
    double quote is left as it is. *)
Theorem optimizeTitle_unwraps (s : jsstring) :
  stripWrappingQuotes (quoted s) = s
  /\ ((forall r, s <> dquote :: r) -> (forall r, s <> r ++ [dquote]) ->
      stripWrappingQuotes s = s).
Proof.
  split.
  - unfold stripWrappingQuotes, quoted. rewrite N.eqb_refl.
    rewrite rev_app_distr. cbn [rev app]. rewrite N.eqb_refl.
    apply rev_involutive.
  - intros H1 H2. unfold stripWrappingQuotes.
    destruct s as [|c r]; [reflexivity|].
    destruct (c =? dquote)%N eqn:E.
    { apply N.eqb_eq in E. subst c. now destruct (H1 r). }
    destruct (rev (c :: r)) as [|d r'] eqn:R.
    { apply (f_equal (@length N)) in R. rewrite length_rev in R. discriminate. }
    destruct (d =? dquote)%N eqn:E'; [|reflexivity].
    apply N.eqb_eq in E'. subst d.
    exfalso. apply (H2 (rev r')).
    rewrite <- (rev_involutive (c :: r)), R. reflexivity.
Qed.

Lemma optimizeTitle_unwraps_scenario :
  stripWrappingQuotes (js "Echo Dot") = js "Echo Dot".
Proof.
  apply (optimizeTitle_unwraps (js "Echo Dot")).
  - intros r H. discriminate.
  - intros r H. apply (f_equal (@rev N)) in H. rewrite rev_app_distr in H.
    discriminate.
Defined.

(** ** The engine's accounting *)

Lemma dispatchCalls_requests (now : Z) (o : Optimizer) :
  exists t1 t2 : Z,
    (now <= t1 <= t2)%Z
    /\ dispatchCalls now o =
       ({| requestCount := 4 + requestCount o; lastRequestTime := t2 |},
        [{| d_call := optimizeTitle; d_at := t1;
            d_request := requestCount o |};
         {| d_call := optimizeBulletPoints; d_at := t2;
            d_request := requestCount o + 1 |};
         {| d_call := optimizeDescription; d_at := t2;
            d_request := requestCount o + 2 |};
         {| d_call := generateKeywords; d_at := t2;
            d_request := requestCount o + 3 |}]).
Proof.
  replace (requestCount o + 1) with (S (requestCount o)) by lia.
  replace (requestCount o + 2) with (S (S (requestCount o))) by lia.
  replace (requestCount o + 3) with (S (S (S (requestCount o)))) by lia.
  destruct (rateLimitWait now o) as [waitTime|] eqn:H.
  - rewrite (dispatchCalls_wait _ _ H).
    exists (now + timerDelay waitTime)%Z, (now + timerDelay waitTime)%Z.
    split; [|reflexivity].
    unfold timerDelay.
    destruct ((waitTime <? 1) || (2147483647 <? waitTime))%Z eqn:E; [lia|].
    apply orb_false_iff in E as [E _]. apply Z.ltb_ge in E. lia.
  - rewrite (dispatchCalls_pass _ _ H).
    exists now, (now + 1000)%Z. split; [lia|reflexivity].
Qed.

(** When [Promise.all] does not reject, no call of the group did. *)
Lemma firstRejection_some_stays (l : list Settled) (b : Z * jsstring) :
  fold_left
    (fun best s =>
       match st_answer s with
       | Returned _ => best
       | Thrown m =>
           match best with
           | Some (t, _) =>
               if (st_done s <? t)%Z
               then Some (st_done s, failurePrefix (st_call s) ++ m)
               else best
           | None => Some (st_done s, failurePrefix (st_call s) ++ m)
           end
       end) l (Some b) <> None.
Proof.
  revert b. induction l as [|s l IH]; intros b; cbn [fold_left].
  - discriminate.
  - destruct (st_answer s); [apply IH|].
    destruct b as [t m0]. destruct (st_done s <? t)%Z; apply IH.
Qed.

Lemma firstRejection_none_all (l : list Settled) :
  firstRejection l = None ->
  forall s, In s l -> forall m, st_answer s = Thrown m -> False.
Proof.
  unfold firstRejection.
  induction l as [|s0 l IH]; intros F s Hin m A; [destruct Hin|].
  cbn [fold_left] in F.
  destruct (st_answer s0) as [a0|m0] eqn:A0.
  - destruct Hin as [<-|Hin]; [congruence|]. exact (IH F s Hin m A).
  - exact (firstRejection_some_stays _ _ F).
Qed.

(** Rejections that take longer than the rate-limit interval come after
    the last request of their group. *)
Lemma slowRejections_after (w : World) :
  slowRejections (env w) -> rejectionsAfterDispatch w = true.
Proof.
  intros Slow. unfold rejectionsAfterDispatch.
  destruct (dispatchCalls_requests (clock w) (optimizer w))
    as (t1 & t2 & H & E).
  assert (G : (t2 - t1 <= minRequestInterval)%Z).
  { pose proof E as E'.
    destruct (rateLimitWait (clock w) (optimizer w)) as [waitTime|] eqn:W.
    - rewrite (dispatchCalls_wait _ _ W) in E'. cbv zeta in E'.
      injection E' as _ E1 E2. unfold minRequestInterval. lia.
    - rewrite (dispatchCalls_pass _ _ W) in E'. cbv zeta in E'.
      injection E' as _ E1 E2. unfold minRequestInterval. lia. }
  rewrite E. cbn [snd].
  apply forallb_forall. intros d Hd.
  destruct (completes (st_answer (settle (env w) d))) eqn:C; [reflexivity|].
  cbn [orb]. unfold settle in C. cbn [st_answer] in C.
  pose proof (Slow _ C) as L.
  apply forallb_forall. intros d' Hd'. apply Z.ltb_lt.
  unfold settle. cbn [st_done].
  cbn [In] in Hd, Hd'.
  destruct Hd as [<-|[<-|[<-|[<-|[]]]]];
    destruct Hd' as [<-|[<-|[<-|[<-|[]]]]];
    cbn [d_at d_request] in *; lia.
Qed.

Lemma optimizeProduct_requests (p : ProductData.t) (w : World) :
  requestCount (optimizer (snd (optimizeProduct p w)))
  = 4 + requestCount (optimizer w).
Proof.
  destruct (optimizeProduct_frame p w) as (_ & _ & _ & _ & O & _).
  destruct (dispatchCalls_requests (clock w) (optimizer w))
    as (t1 & t2 & _ & E).
  rewrite O, E. cbn. lia.
Qed.

(** X3. A run of [optimizeProduct] in which no rejection arrives before
    the last request of the group has been issued raises the request
    counter of the engine by exactly four, leaves its last-request time
    not earlier than the start of the run, and sends four requests.  In
    particular a run that returns a result has counted four requests. *)
Theorem optimizeProduct_counts_four (p : ProductData.t) (w : World) :
  (rejectionsAfterDispatch w = true ->
   let o' := optimizer (snd (optimizeProduct p w)) in
   requestCount o' = 4 + requestCount (optimizer w)
   /\ (clock w <= lastRequestTime o')%Z
   /\ length (trace (snd (optimizeProduct p w))) = 4 + length (trace w))
  /\ (forall r w', optimizeProduct p w = (Returned r, w') ->
        rejectionsAfterDispatch w = true
        /\ requestCount (optimizer w') = 4 + requestCount (optimizer w)).
Proof.
  cbv zeta.
  destruct (optimizeProduct_frame p w) as (_ & _ & _ & _ & O & T).
  destruct (dispatchCalls_requests (clock w) (optimizer w))
    as (t1 & t2 & H & E).
  split.
  - intros _. rewrite O, T, E, length_app. cbn. repeat split; lia.
  - intros r w' R. split.
    + unfold rejectionsAfterDispatch.
      apply forallb_forall. intros d Hd.
      apply orb_true_iff. left.
      unfold optimizeProduct in R.
      destruct (dispatchCalls (clock w) (optimizer w)) as [o ds].
      cbn [snd] in Hd.
      destruct (firstRejection (List.map (settle (env w)) ds))
        as [[t m]|] eqn:F; [discriminate|].
      destruct (st_answer (settle (env w) d)) as [a|m] eqn:A;
        [reflexivity|].
      exfalso.
      apply (@firstRejection_none_all (List.map (settle (env w)) ds) F
               (settle (env w) d) (in_map _ _ _ Hd) m A).
    + rewrite R in O. cbn [snd] in O. rewrite O, E. cbn. lia.
Qed.

(** On a fresh engine whose service rejects the description request after
    a second and a half, the rejection comes after the last request has
    left, and the counter stands at four. *)
Lemma optimizeProduct_counts_four_scenario :
  rejectionsAfterDispatch (engineWorld [2]) = true
  /\ completes (fst (optimizeProduct (sampleProduct echoDot)
                       (engineWorld [2]))) = false
  /\ requestCount
       (optimizer (snd (optimizeProduct (sampleProduct echoDot)
                          (engineWorld [2])))) = 4.
Proof.
  split; [reflexivity|]. split; [reflexivity|].
  destruct (optimizeProduct_counts_four (sampleProduct echoDot)
              (engineWorld [2])) as (H & _).
  destruct (H eq_refl) as (E & _). exact E.
Defined.

Lemma batchLoop_requests (d : Z) (products : list ProductData.t) :
  forall rs es w,
    requestCount (optimizer (snd (batchLoop d products rs es w)))
    = requestCount (optimizer w) + 4 * length products.
Proof.
  induction products as [|p rest IH]; intros rs es w.
  - cbn. lia.
  - rewrite batchLoop_cons.
    pose proof (optimizeProduct_requests p w) as C.
    destruct (optimizeProduct p w) as [[r|m] w1]; cbn [snd] in C.
    + rewrite IH. cbn [length].
      destruct (isNil rest); cbn [afterSleep emit setClock optimizer]; lia.
    + rewrite IH. cbn [length]. lia.
Qed.

(** X4. When every rejection of the service takes longer than the
    interval the rate limit keeps between requests, so that no record
    fails while one of its calls still waits, a batch over [n] records
    issues [4 * n] requests, failed records included: the [totalRequests]
    it reports is the counter before the batch plus four times the number
    of records. *)
Theorem optimizeMultipleProducts_totalRequests
  (products : list ProductData.t) (options : option Z) (w : World) :
  slowRejections (env w) ->
  rejectionsAfterDispatch w = true
  /\ exists r w',
       optimizeMultipleProducts products options w = (Returned r, w')
       /\ totalRequests r = requestCount (optimizer w) + 4 * length products.
Proof.
  intros Slow. split; [now apply slowRejections_after|].
  unfold optimizeMultipleProducts.
  pose proof (batchLoop_requests (delayOf options) products [] [] w) as R.
  change (match options with
          | Some d => d
          | None => defaultDelayBetweenBatches
          end) with (delayOf options).
  destruct (batchLoop_run (delayOf options) products [] [] w)
    as (rs & es & w' & k & E & _).
  rewrite E in R. cbn [snd] in R.
  eexists. exists w'. split.
  - unfold bind at 1. rewrite E. unfold bind, getWorld, ret. reflexivity.
  - cbn [totalRequests]. exact R.
Qed.

(** Five records on a fresh engine, one request of the third rejected
    after a second and a half: twenty requests are reported. *)
Lemma optimizeMultipleProducts_totalRequests_scenario :
  exists r w',
    optimizeMultipleProducts fiveProducts None (engineWorld [9])
      = (Returned r, w')
    /\ totalRequests r = 20.
Proof.
  assert (Slow : slowRejections (env (engineWorld [9]))).
  { intros n _. reflexivity. }
  destruct (@optimizeMultipleProducts_totalRequests fiveProducts None
              (engineWorld [9]) Slow) as (_ & r & w' & E & T).
  exists r, w'. split; [exact E|exact T].
Defined.

(** ** What [optimizeProduct] returns *)

Lemma includes_api_prefix (c : Call) (m : jsstring) :
  includes (js "AI optimization failed: " ++ failurePrefix c ++ m) (js "API")
  = includes m (js "API").
Proof. destruct c; reflexivity. Qed.

Lemma optimizeProduct_thrown (p : ProductData.t) (w : World) :
  (exists i m, i < 4 /\ answerAt w i = Thrown m) ->
  exists i m,
    i < 4 /\ answerAt w i = Thrown m
    /\ fst (optimizeProduct p w) =
       Thrown (js "AI optimization failed: "
               ++ failurePrefix (nth i callOrder optimizeTitle) ++ m).
Proof.
  unfold answerAt, optimizeProduct.
  destruct (dispatchCalls_requests (clock w) (optimizer w))
    as (t1' & t2' & _ & E).
  rewrite E. cbn [List.map settle d_call d_at d_request].
  set (n := requestCount (optimizer w)).
  intros (i & m & Hi & Hm).
  unfold firstRejection, settle.
  cbn [fold_left st_answer st_call st_done d_call d_at d_request].
  destruct (answer (modelReply (env w) n)) as [a0|m0] eqn:A0;
  destruct (answer (modelReply (env w) (n + 1))) as [a1|m1] eqn:A1;
  destruct (answer (modelReply (env w) (n + 2))) as [a2|m2] eqn:A2;
  destruct (answer (modelReply (env w) (n + 3))) as [a3|m3] eqn:A3;
  repeat match goal with
         | |- context [if ?b then _ else _] => destruct b
         end;
  cbn [fst];
  first
    [ exists 0, m0; rewrite Nat.add_0_r;
      split; [lia|split; [assumption|reflexivity]]
    | exists 1, m1; split; [lia|split; [assumption|reflexivity]]
    | exists 2, m2; split; [lia|split; [assumption|reflexivity]]
    | exists 3, m3; split; [lia|split; [assumption|reflexivity]]
    | exfalso;
      destruct i as [|[|[|[|i]]]]; [rewrite Nat.add_0_r in Hm| | | |lia];
      congruence ].
Qed.

(** X5. [optimizeProduct] succeeds exactly when the four replies of its
    group are all answers.  It then hands back the input's identifier and
    original texts, the trimmed replies (the title freed of wrapping
    quotes, the keywords split and capped), and a request count of four.
    Otherwise it throws the message of one failed call, prefixed with the
    call's own prefix and with the engine's. *)
Theorem optimizeProduct_outcome (p : ProductData.t) (w : World) :
  (forall t0 t1 t2 t3,
     answerAt w 0 = Returned t0 -> answerAt w 1 = Returned t1 ->
     answerAt w 2 = Returned t2 -> answerAt w 3 = Returned t3 ->
     exists r,
       fst (optimizeProduct p w) = Returned r
       /\ r_asin r = ProductData.asin p
       /\ original r =
          {| title := ProductData.title p;
             bulletPoints := ProductData.bulletPoints p;
             description := ProductData.description p;
             suggestedKeywords := None |}
       /\ optimized r =
          {| title := stripWrappingQuotes (trim t0);
             bulletPoints := Some (trim t1);
             description := Some (trim t2);
             suggestedKeywords := Some (keywordsOf t3) |}
       /\ metaRequestCount (metadata r) = 4
       /\ modelUsed (metadata r) = modelName)
  /\ ((exists i m, i < 4 /\ answerAt w i = Thrown m) ->
      exists i m,
        i < 4 /\ answerAt w i = Thrown m
        /\ fst (optimizeProduct p w) =
           Thrown (js "AI optimization failed: "
                   ++ failurePrefix (nth i callOrder optimizeTitle) ++ m)).
Proof.
  split; [|apply optimizeProduct_thrown].
  unfold answerAt, optimizeProduct.
  destruct (dispatchCalls_requests (clock w) (optimizer w))
    as (t1' & t2' & _ & E).
  rewrite E. cbn [List.map settle d_call d_at d_request].
  set (n := requestCount (optimizer w)).
  rewrite Nat.add_0_r.
  intros t0 t1 t2 t3 A0 A1 A2 A3.
  unfold firstRejection, textOf, settle.
  cbn [fold_left find fieldEq st_answer st_call st_done
       d_call d_at d_request].
  rewrite A0, A1, A2, A3.
  eexists. split; [reflexivity|].
  cbn [fst r_asin original optimized metadata metaRequestCount modelUsed].
  repeat split.
Qed.

Lemma optimizeProduct_outcome_scenario :
  (exists r,
     fst (optimizeProduct (sampleProduct echoDot) (engineWorld [])) = Returned r
     /\ r_asin r = echoDot
     /\ suggestedKeywords (optimized r) = Some (keywordsOf sampleReply))
  /\ (exists i m,
        i < 4 /\ answerAt (engineWorld [2]) i = Thrown m
        /\ fst (optimizeProduct (sampleProduct echoDot) (engineWorld [2]))
           = Thrown (js "AI optimization failed: "
                     ++ failurePrefix (nth i callOrder optimizeTitle) ++ m)).
Proof.
  split.
  - destruct (proj1 (optimizeProduct_outcome (sampleProduct echoDot)
                       (engineWorld []))
                sampleReply sampleReply sampleReply sampleReply
                eq_refl eq_refl eq_refl eq_refl)
      as (r & E & Ha & _ & Ho & _).
    exists r. split; [exact E|]. split; [exact Ha|]. now rewrite Ho.
  - apply (proj2 (optimizeProduct_outcome (sampleProduct echoDot)
                    (engineWorld [2]))).
    exists 2, (js "429 Too Many Requests"). split; [lia|reflexivity].
Defined.

(** ** Early exits of the routes *)

Lemma storedProduct_none (w : World) (asin : jsstring) :
  (forall p, In p (products (db w)) -> p_asin p <> asin) ->
  storedProduct w asin = None.
Proof.
  intros H. unfold storedProduct.
  replace (filter _ (products (db w))) with (@nil ProductRow); [reflexivity|].
  symmetry. induction (products (db w)) as [|p l IH]; [reflexivity|].
  cbn [filter]. destruct (sameText (p_asin p) asin) eqn:E.
  - apply sameText_true in E. now destruct (H p (or_introl eq_refl)).
  - apply IH. intros q Hq. apply H. now right.
Qed.

(** X6. Optimizing a well-formed identifier (ten capital letters and
    digits) when every stored product carries a well-formed identifier
    other than it is answered 404 after the one look-up: the engine is not
    called and nothing is written.  Between two such identifiers the
    comparison of the table, which ignores case, is plain equality. *)
Theorem optimizeRoute_missing_product (asin : jsstring) (w : World) :
  dbFault (env w) (queries w) = None ->
  isValidASIN (JStr asin) = true ->
  (forall p, In p (products (db w)) ->
             isValidASIN (JStr (p_asin p)) = true /\ p_asin p <> asin) ->
  optimizeRoute asin w = (Returned productNotFound, countQuery w).
Proof.
  intros Q0 _ H. unfold optimizeRoute.
  rewrite tryCatch_bind, (selectProduct_ok asin w Q0).
  rewrite (@storedProduct_none w asin (fun p Hp => proj2 (H p Hp))).
  reflexivity.
Qed.

Lemma optimizeRoute_missing_product_scenario :
  optimizeRoute (js "B000000001") (storeWorld (hours 1) None [])
  = (Returned productNotFound, countQuery (storeWorld (hours 1) None [])).
Proof.
  apply optimizeRoute_missing_product; [reflexivity|reflexivity|].
  intros p [<-|[]]. split; [reflexivity|]. vm_compute. discriminate.
Defined.

(** ** Failures of the service, as the optimize route answers them *)

(** X8. When a call of the generation fails, the optimize route writes
    nothing and answers with an error whose status depends on the message
    of the service alone: 503 when it contains the letters API, 500
    otherwise (the prefixes the engine adds do not contain them). *)
Theorem optimizeRoute_upstream_failure (asin : jsstring) (w : World)
  (product : ProductRow) :
  dbFault (env w) (queries w) = None ->
  dbFault (env w) (S (queries w)) = None ->
  storedProduct w asin = Some product ->
  (forall o, In o (optimizations (db w)) -> o_asin o = asin ->
             (oneHour <= clock w - o_created_at o)%Z) ->
  (exists i m, i < 4 /\ answerAt w i = Thrown m) ->
  exists i m,
    i < 4 /\ answerAt w i = Thrown m
    /\ statusOf (fst (optimizeRoute asin w))
       = (if includes m (js "API") then 503 else 500)
    /\ db (snd (optimizeRoute asin w)) = db w.
Proof.
  intros Q0 Q1 HP Hold Hfail.
  pose proof (@recentOptimization_none w asin Hold) as HR.
  rewrite (@optimizeRoute_generation asin w product Q0 Q1 HP HR).
  destruct (@optimizeProduct_thrown (productDataOf product)
              (countQuery (countQuery w)) Hfail) as (i & m & Hi & Hm & E).
  pose proof (optimizeProduct_frame (productDataOf product)
                (countQuery (countQuery w))) as Fr.
  cbv zeta in Fr. destruct Fr as (_ & Fd & _).
  destruct (optimizeProduct (productDataOf product) (countQuery (countQuery w)))
    as [[r|m'] w3]; cbn [fst snd] in *; [discriminate|].
  assert (Em : m' = js "AI optimization failed: "
                    ++ failurePrefix (nth i callOrder optimizeTitle) ++ m)
    by congruence.
  clear E. subst m'.
  exists i, m. split; [exact Hi|]. split; [exact Hm|].
  split; [|exact Fd].
  unfold failureResponse. rewrite includes_api_prefix.
  destruct (includes m (js "API")); reflexivity.
Qed.

Lemma optimizeRoute_upstream_failure_scenario :
  statusOf (fst (optimizeRoute echoDot
                   (sampleWorld (sampleEnv [2] [] (Thrown [])) epoch0
                      [sampleRow (epoch0 - hours 1)] []))) = 500.
Proof.
  destruct (@optimizeRoute_upstream_failure echoDot
              (sampleWorld (sampleEnv [2] [] (Thrown [])) epoch0
                 [sampleRow (epoch0 - hours 1)] [])
              (sampleRow (epoch0 - hours 1)) eq_refl eq_refl eq_refl)
    as (i & m & Hi & Hm & E & _).
  - intros o [].
  - exists 2, (js "429 Too Many Requests"). split; [lia|reflexivity].
  - rewrite E.
    destruct i as [|[|[|[|i]]]]; try lia; vm_compute in Hm;
      try discriminate.
    injection Hm as <-. reflexivity.
Defined.

(** ** Store, then read back *)










(** ** Encoding and decoding keyword lists *)

Module StringifyFacts.
Import Json.

Lemma hexVal_hexDigit (n : N) : (n < 16)%N -> hexVal (hexDigit n) = Some n.
Proof.
  intros H. destruct n as [|p]; [reflexivity|].
  do 4 (destruct p as [p|p|]; try reflexivity); lia.
Qed.

Lemma hex_digits (c : N) :
  (c < 65536)%N ->
  ((((c / 4096) * 16 + (c / 256) mod 16) * 16 + (c / 16) mod 16) * 16
   + c mod 16 = c)%N.
Proof.
  intros _.
  replace (c / 4096)%N with (c / 16 / 16 / 16)%N
    by (rewrite !N.Div0.div_div; reflexivity).
  replace (c / 256)%N with (c / 16 / 16)%N
    by (rewrite !N.Div0.div_div; reflexivity).
  pose proof (N.div_mod' c 16) as H1.
  pose proof (N.div_mod' (c / 16) 16) as H2.
  pose proof (N.div_mod' (c / 16 / 16) 16) as H3.
  set (q1 := (c / 16)%N) in *. set (q2 := (q1 / 16)%N) in *.
  set (q3 := (q2 / 16)%N) in *.
  set (r1 := (c mod 16)%N) in *. set (r2 := (q1 mod 16)%N) in *.
  set (r3 := (q2 mod 16)%N) in *.
  lia.
Qed.

Lemma lexString_unicode (c : N) (r : jsstring) :
  (c < 65536)%N ->
  lexString (unicodeEscape c ++ r) = consTo c (lexString r).
Proof.
  intros H. unfold unicodeEscape. cbn [app lexString].
  change (92 =? 34)%N with false. change (92 =? 92)%N with true.
  change (117 =? 117)%N with true. cbv iota.
  rewrite !hexVal_hexDigit.
  - now rewrite hex_digits.
  - apply N.mod_lt. discriminate.
  - apply N.mod_lt. discriminate.
  - apply N.mod_lt. discriminate.
  - apply N.Div0.div_lt_upper_bound. exact H.
Qed.

Lemma lexString_plain (c : N) (r : jsstring) :
  (c =? 34)%N = false -> (c =? 92)%N = false -> (c <? 32)%N = false ->
  lexString (c :: r) = consTo c (lexString r).
Proof. intros H1 H2 H3. cbn [lexString]. now rewrite H1, H2, H3. Qed.

Lemma shortEscape_decodes (c e : N) (r : jsstring) :
  shortEscape c = Some e ->
  lexString (92%N :: e :: r) = consTo c (lexString r).
Proof.
  unfold shortEscape.
  repeat match goal with
         | |- (if (?a =? ?b)%N then _ else _) = _ -> _ =>
             let E := fresh "E" in
             destruct (a =? b)%N eqn:E;
             [apply N.eqb_eq in E; subst c; intros [= <-]; reflexivity|]
         end.
  discriminate.
Qed.

Lemma shortEscape_none (c : N) :
  shortEscape c = None -> (c =? 34)%N = false /\ (c =? 92)%N = false.
Proof.
  unfold shortEscape.
  repeat match goal with
         | |- (if ?b then _ else _) = _ -> _ =>
             let E := fresh "E" in destruct b eqn:E; [discriminate|]
         end.
  auto.
Qed.

Lemma lexString_quoteBody_bounded (n : nat) :
  forall s rest,
    length s <= n ->
    lexString (quoteBody s ++ dquote :: rest) = Some (s, rest).
Proof.
  induction n as [|n IH]; intros s rest Hn.
  - destruct s; [reflexivity|cbn in Hn; lia].
  - destruct s as [|c r]; [reflexivity|]. cbn [length] in Hn.
    cbn [quoteBody].
    destruct (shortEscape c) as [e|] eqn:SE.
    { cbn [app]. erewrite shortEscape_decodes by exact SE.
      rewrite IH by lia. reflexivity. }
    destruct (shortEscape_none _ SE) as (N34 & N92).
    destruct (c <? 32)%N eqn:L32.
    { rewrite <- app_assoc, lexString_unicode.
      - rewrite IH by lia. reflexivity.
      - apply N.ltb_lt in L32. lia. }
    assert (Plain : forall t, lexString (c :: t) = consTo c (lexString t))
      by (intros t; now apply lexString_plain).
    assert (Sur : forall d, isHighSurrogate d || isLowSurrogate d = true ->
                            (d < 65536)%N).
    { intros d H. unfold isHighSurrogate, isLowSurrogate in H.
      apply orb_true_iff in H as [H|H];
        apply andb_true_iff in H as [_ H]; apply N.leb_le in H; lia. }
    destruct (isHighSurrogate c) eqn:HS.
    + destruct r as [|d r'].
      * rewrite lexString_unicode by (apply Sur; now rewrite HS).
        reflexivity.
      * destruct (isLowSurrogate d) eqn:LS.
        -- cbn [app]. rewrite Plain.
           assert (Pd : lexString (d :: quoteBody r' ++ dquote :: rest)
                        = consTo d (lexString (quoteBody r' ++ dquote :: rest))).
           { unfold isLowSurrogate in LS.
             apply andb_true_iff in LS as [LS _]. apply N.leb_le in LS.
             apply lexString_plain;
               [apply N.eqb_neq|apply N.eqb_neq|apply N.ltb_ge]; lia. }
           rewrite Pd, IH by (cbn [length] in Hn; lia). reflexivity.
        -- rewrite <- app_assoc, lexString_unicode
             by (apply Sur; now rewrite HS).
           rewrite IH by lia. reflexivity.
    + destruct (isLowSurrogate c) eqn:LS.
      * rewrite <- app_assoc, lexString_unicode
          by (apply Sur; rewrite LS; apply orb_true_r).
        rewrite IH by lia. reflexivity.
      * cbn [app]. rewrite Plain, IH by lia. reflexivity.
Qed.

Lemma lexString_quoteBody (s rest : jsstring) :
  lexString (quoteBody s ++ dquote :: rest) = Some (s, rest).
Proof. apply (@lexString_quoteBody_bounded (length s)). lia. Qed.

Lemma parseValue_string (f : nat) (s rest : jsstring) :
  parseValue (S f) (quoteJSONString s ++ rest) = POk (JStr s) rest.
Proof.
  unfold quoteJSONString. cbn [app parseValue skipWs].
  cbn [isJsonWs dquote N.eqb Pos.eqb orb].
  rewrite <- app_assoc. cbn [app]. now rewrite lexString_quoteBody.
Qed.

Lemma parseElements_S (f : nat) (s : jsstring) (acc : list JsValue) :
  parseElements (S f) s acc
  = match parseValue f s with
    | POk v rest =>
        match skipWs rest with
        | d :: r' =>
            if (d =? 44)%N then parseElements f r' (acc ++ [v])
            else if (d =? 93)%N then POk (JArr (acc ++ [v])) r'
            else PErr
        | [] => PErr
        end
    | PErr => PErr
    | PFuel => PFuel
    end.
Proof. reflexivity. Qed.

Lemma parseElements_strings (l : list jsstring) :
  forall (x : jsstring) (acc : list JsValue) (rest : jsstring) (f : nat),
    length l < f ->
    parseElements (S f)
      (join [comma] (List.map quoteJSONString (x :: l)) ++ rbracket :: rest)
      acc
    = POk (JArr (acc ++ List.map JStr (x :: l))) rest.
Proof.
  induction l as [|y l IH]; intros x acc rest f Hf.
  - destruct f as [|f]; [cbn in Hf; lia|].
    rewrite parseElements_S. cbn [List.map join].
    rewrite parseValue_string. reflexivity.
  - destruct f as [|f]; [cbn in Hf; lia|].
    cbn [length] in Hf.
    change (join [comma] (List.map quoteJSONString (x :: y :: l)))
      with (quoteJSONString x ++ [comma]
            ++ join [comma] (List.map quoteJSONString (y :: l))).
    rewrite parseElements_S. rewrite <- !app_assoc, parseValue_string.
    cbn [app skipWs isJsonWs comma N.eqb Pos.eqb orb].
    rewrite IH by lia. cbn [List.map]. rewrite <- app_assoc. reflexivity.
Qed.

Lemma parseValue_stringify (l : list jsstring) (f : nat) :
  length l + 1 < f ->
  parseValue f (stringify l) = POk (strings l) [].
Proof.
  intros Hf. destruct f as [|f]; [lia|].
  unfold stringify, strings. cbn [app parseValue skipWs].
  cbn [isJsonWs lbracket N.eqb Pos.eqb orb].
  destruct l as [|x l].
  - reflexivity.
  - destruct f as [|f]; [cbn in Hf; lia|].
    assert (Hd : exists t,
               join [comma] (List.map quoteJSONString (x :: l)) ++ [rbracket]
               = dquote :: t).
    { cbn [List.map]. destruct (List.map quoteJSONString l);
        cbn [join quoteJSONString app]; eauto. }
    destruct Hd as (t & Hd).
    rewrite Hd at 1. cbn [skipWs isJsonWs dquote N.eqb Pos.eqb orb].
    rewrite parseElements_strings by (cbn [length] in Hf; lia).
    reflexivity.
Qed.

Lemma parse_more_fuel_ge (f f' : nat) (s : jsstring) (v : JsValue)
  (rest : jsstring) :
  parseValue f s = POk v rest -> f <= f' -> parseValue f' s = POk v rest.
Proof.
  intros H Hle. induction Hle as [|f' Hle IH]; [exact H|].
  rewrite (proj1 (JsonFacts.parse_more_fuel f')); rewrite IH;
    [reflexivity|discriminate].
Qed.

Lemma parse_stringify (l : list jsstring) :
  parse (stringify l) = Some (strings l).
Proof.
  unfold parse.
  set (text := stringify l).
  assert (E : parseValue (fuelFor text + (length l + 2)) text
              = POk (strings l) []).
  { apply parseValue_stringify. lia. }
  destruct (@JsonFacts.parse_fuel_irrelevant text
              (fuelFor text + (length l + 2))) as (I & _); [lia|].
  rewrite <- I, E. reflexivity.
Qed.

End StringifyFacts.


(** ** The keyword column: what is written and what is read back *)

Lemma stringify_head (l : list jsstring) :
  exists t, stringify l = lbracket :: t.
Proof. unfold stringify. cbn [app]. eauto. Qed.

Lemma cached_reads_stringify (l : list jsstring) :
  cachedSuggestedKeywords (PayText (stringify l)) = strings l.
Proof.
  unfold cachedSuggestedKeywords. cbn [payloadTruthy payloadString].
  destruct (stringify_head l) as (t & E).
  replace (nonEmpty (stringify l)) with true by now rewrite E.
  now rewrite StringifyFacts.parse_stringify.
Qed.

Lemma history_reads_stringify (l : list jsstring) :
  historySuggestedKeywords (PayText (stringify l)) = strings l.
Proof.
  unfold historySuggestedKeywords. cbn [payloadTruthy payloadString].
  destruct (stringify_head l) as (t & E).
  replace (nonEmpty (stringify l)) with true by now rewrite E.
  now rewrite StringifyFacts.parse_stringify.
Qed.

(** X12. What the optimisation route serialises with [JSON.stringify] is
    decoded by [JSON.parse] to the same keywords, whatever units they
    contain; so when the column comes back as that text, the cached branch
    of the optimisation route and the history routes both recover the
    keywords exactly. *)
Theorem stringify_parse_round_trip (l : list jsstring) :
  Json.parse (stringify l) = Some (strings l)
  /\ cachedSuggestedKeywords (PayText (stringify l)) = strings l
  /\ historySuggestedKeywords (PayText (stringify l)) = strings l.
Proof.
  split; [apply StringifyFacts.parse_stringify|].
  split; [apply cached_reads_stringify|apply history_reads_stringify].
Qed.

Lemma includes_single (s : jsstring) (c : N) :
  includes s [c] = existsb (N.eqb c) s.
Proof.
  induction s as [|a s IH]; [reflexivity|].
  cbn [includes startsWith existsb]. rewrite IH.
  destruct s; now rewrite andb_true_r.
Qed.

Lemma includes_single_true (s : jsstring) (c : N) :
  includes s [c] = true <-> In c s.
Proof.
  rewrite includes_single, existsb_exists. split.
  - intros (x & H & E). apply N.eqb_eq in E. now subst.
  - intros H. exists c. split; [exact H|apply N.eqb_refl].
Qed.

Lemma includes_single_false (s : jsstring) (c : N) :
  ~ In c s -> includes s [c] = false.
Proof.
  intros H. destruct (includes s [c]) eqn:E; [|reflexivity].
  now apply includes_single_true in E.
Qed.

Lemma stripQuotes_In (c : N) (s : jsstring) : In c (stripQuotes s) -> In c s.
Proof. unfold stripQuotes. intros H. now apply filter_In in H. Qed.

Lemma split_free (sep : N) (s : jsstring) :
  ~ In sep s -> split sep s = [s].
Proof.
  induction s as [|c r IH]; [reflexivity|]. intros H.
  cbn [split]. destruct (c =? sep)%N eqn:E.
  - apply N.eqb_eq in E. subst. exfalso. apply H. now left.
  - rewrite IH; [reflexivity|]. intros K. apply H. now right.
Qed.

Lemma split_app_sep (sep : N) (a rest : jsstring) :
  ~ In sep a -> split sep (a ++ sep :: rest) = a :: split sep rest.
Proof.
  induction a as [|c r IH]; intros H.
  - cbn [app split]. now rewrite N.eqb_refl.
  - cbn [app split]. destruct (c =? sep)%N eqn:E.
    + apply N.eqb_eq in E. subst. exfalso. apply H. now left.
    + rewrite IH; [reflexivity|]. intros K. apply H. now right.
Qed.

Lemma join_cons (sep x y : jsstring) (l : list jsstring) :
  join sep (x :: y :: l) = x ++ sep ++ join sep (y :: l).
Proof. reflexivity. Qed.

Lemma split_join (sep : N) (l : list jsstring) :
  forall x, Forall (fun k => ~ In sep k) (x :: l) ->
            split sep (join [sep] (x :: l)) = x :: l.
Proof.
  induction l as [|y l IH]; intros x H.
  - cbn [join]. apply split_free. now inversion H.
  - rewrite join_cons. cbn [app].
    inversion H as [|? ? Hx Hr]; subst.
    rewrite split_app_sep by exact Hx. now rewrite IH.
Qed.

Lemma join_has_sep (sep : N) (x y : jsstring) (l : list jsstring) :
  In sep (join [sep] (x :: y :: l)).
Proof. rewrite join_cons. apply in_or_app. right. now left. Qed.

Lemma map_fixed {A} (f : A -> A) (l : list A) :
  Forall (fun a => f a = a) l -> List.map f l = l.
Proof.
  induction 1 as [|a l Ha _ IH]; [reflexivity|].
  cbn [List.map]. now rewrite Ha, IH.
Qed.

Lemma filter_all {A} (p : A -> bool) (l : list A) :
  Forall (fun a => p a = true) l -> filter p l = l.
Proof.
  induction 1 as [|a l Ha _ IH]; [reflexivity|].
  cbn [filter]. now rewrite Ha, IH.
Qed.

Lemma nonEmpty_true (s : jsstring) : s <> [] -> nonEmpty s = true.
Proof. destruct s; [congruence|reflexivity]. Qed.

Lemma ltb_length_nonEmpty (s : jsstring) : (0 <? length s) = nonEmpty s.
Proof. destruct s; reflexivity. Qed.

(** X13. Whatever a row holds, the repair script writes a JSON array of
    keywords none of which is empty or contains a comma.  When the column
    is then handed back as the text that was written, both readers of the
    column recover exactly these keywords.  (A column handed back as an
    array is read differently by the two readers and is no part of this
    statement.) *)
Theorem debugKeywords_output (raw : Payload) :
  exists l : list jsstring,
    fixedKeywords raw = stringify l
    /\ Forall (fun k => k <> [] /\ ~ In comma k) l
    /\ cachedSuggestedKeywords (PayText (fixedKeywords raw)) = strings l
    /\ historySuggestedKeywords (PayText (fixedKeywords raw)) = strings l.
Proof.
  assert (K : exists l, fixedKeywords raw = stringify l
                        /\ Forall (fun k => k <> [] /\ ~ In comma k) l).
  { unfold fixedKeywords.
    set (text := if payloadTruthy raw then payloadString raw else []).
    destruct (includes text [comma]) eqn:I.
    - eexists. split; [reflexivity|].
      apply Forall_forall. intros k H.
      apply filter_In in H as (H & Hne).
      apply in_map_iff in H as (piece & <- & Hp).
      split; [intros E; rewrite E in Hne; discriminate|].
      intros Hc. apply stripQuotes_In, trim_In in Hc.
      exact (split_no_separator _ _ _ Hp Hc).
    - rewrite ltb_length_nonEmpty.
      destruct (nonEmpty (trim text)) eqn:T.
      + eexists. split; [reflexivity|].
        constructor; [|constructor].
        split; [intros E; rewrite E in T; discriminate|].
        intros Hc. apply trim_In in Hc.
        apply includes_single_true in Hc. congruence.
      + exists []. split; [reflexivity|constructor]. }
  destruct K as (l & E & F). exists l.
  rewrite E. split; [reflexivity|]. split; [exact F|].
  split; [apply cached_reads_stringify|apply history_reads_stringify].
Qed.

(** X14. When the column is decoded to an array by the driver and its
    keywords are as [generateKeywords] makes them (not empty, trimmed,
    without a comma) and hold no quote, the repair script writes the
    serialisation of the very same keywords. *)
Theorem debugKeywords_keeps_arrays (l : list jsstring) :
  Forall cleanKeyword l ->
  fixedKeywords (PayList l) = stringify l.
Proof.
  intros H. unfold fixedKeywords. cbn [payloadTruthy payloadString].
  destruct l as [|x [|y l]].
  - reflexivity.
  - inversion H as [|? ? (Hne & Hc & Ht & _) _]; subst.
    cbn [join]. rewrite includes_single_false by exact Hc.
    rewrite Ht, ltb_length_nonEmpty. now rewrite nonEmpty_true.
  - replace (includes (join [comma] (x :: y :: l)) [comma]) with true
      by (symmetry; apply includes_single_true, join_has_sep).
    rewrite split_join.
    + rewrite map_fixed, filter_all; [reflexivity| |].
      * eapply Forall_impl; [|exact H]. intros k (Hne & _).
        now apply nonEmpty_true.
      * eapply Forall_impl; [|exact H]. intros k (_ & _ & Ht & Hq).
        now rewrite Ht.
    + eapply Forall_impl; [|exact H]. now intros k (_ & Hc & _).
Qed.

Lemma debugKeywords_keeps_arrays_scenario :
  fixedKeywords (PayList [js "echo dot"; js "smart speaker"])
  = stringify [js "echo dot"; js "smart speaker"].
Proof.
  apply debugKeywords_keeps_arrays.
  repeat constructor; try discriminate; try reflexivity;
    cbn; intros H; repeat (destruct H as [H|H]; [discriminate|]); exact H.
Defined.

Lemma plainUnit_spec (c : N) :
  plainUnit c = true ->
  shortEscape c = None /\ (c <? 32)%N = false
  /\ isHighSurrogate c = false /\ isLowSurrogate c = false
  /\ c <> comma /\ c <> dquote /\ c <> squote.
Proof.
  unfold plainUnit, shortEscape, dquote, squote, comma.
  rewrite !andb_true_iff, !negb_true_iff, N.leb_le, !N.eqb_neq.
  intros ((((((H32 & Hd) & Hs) & Hc) & Hb) & Hh) & Hl).
  repeat split; try assumption; try (apply N.ltb_ge; exact H32).
  repeat match goal with
         | |- context [(c =? ?k)%N] =>
             let E := fresh in
             destruct (c =? k)%N eqn:E;
             [apply N.eqb_eq in E; subst; first [lia | congruence]|]
         end.
  reflexivity.
Qed.

Lemma quoteBody_plain (k : jsstring) :
  forallb plainUnit k = true -> quoteBody k = k.
Proof.
  induction k as [|c r IH]; [reflexivity|].
  cbn [forallb]. rewrite andb_true_iff. intros (Hc & Hr).
  destruct (plainUnit_spec c Hc) as (E1 & E2 & E3 & E4 & _).
  cbn [quoteBody]. rewrite E1, E2, E3, E4, IH by exact Hr. reflexivity.
Qed.

Lemma stripQuotes_plain (k : jsstring) :
  forallb plainUnit k = true -> stripQuotes k = k.
Proof.
  unfold stripQuotes. induction k as [|c r IH]; [reflexivity|].
  cbn [forallb filter]. rewrite andb_true_iff. intros (Hc & Hr).
  destruct (plainUnit_spec c Hc) as (_ & _ & _ & _ & _ & Hd & Hs).
  apply N.eqb_neq in Hd, Hs. rewrite Hd, Hs. cbn [orb negb].
  now rewrite IH.
Qed.

Lemma plain_no_comma (k : jsstring) :
  forallb plainUnit k = true -> ~ In comma k.
Proof.
  intros H Hin. rewrite forallb_forall in H.
  destruct (plainUnit_spec _ (H _ Hin)) as (_ & _ & _ & _ & Hc & _).
  now apply Hc.
Qed.

Lemma stripQuotes_app (a b : jsstring) :
  stripQuotes (a ++ b) = stripQuotes a ++ stripQuotes b.
Proof. unfold stripQuotes. apply filter_app. Qed.

Lemma trim_fixed (a b : N) (m : jsstring) :
  isWhiteSpace a = false -> isWhiteSpace b = false ->
  trim (a :: m ++ [b]) = a :: m ++ [b].
Proof.
  intros Ha Hb. unfold trim, trimEnd.
  rewrite (trimStart_fixed (a :: m ++ [b])) by exact Ha.
  rewrite trimStart_fixed; [apply rev_involutive|].
  change (a :: m ++ [b]) with ((a :: m) ++ [b]).
  rewrite rev_app_distr. exact Hb.
Qed.

Lemma join_snoc_tail (sep t z : jsstring) (l : list jsstring) :
  join sep (l ++ [z]) ++ t = join sep (l ++ [z ++ t]).
Proof.
  induction l as [|a l IH]; [reflexivity|].
  destruct l as [|b l].
  - cbn [app join]. now rewrite <- !app_assoc.
  - change ((a :: b :: l) ++ [z]) with (a :: b :: (l ++ [z])).
    change ((a :: b :: l) ++ [z ++ t]) with (a :: b :: (l ++ [z ++ t])).
    rewrite !join_cons. rewrite <- !app_assoc. do 2 f_equal.
    exact IH.
Qed.

Lemma join_head (sep x : jsstring) (c : N) (l : list jsstring) :
  c :: join sep (x :: l) = join sep ((c :: x) :: l).
Proof. destruct l; reflexivity. Qed.

(** X15. When the column comes back as the text that the optimisation
    route wrote for two or more plain keywords, the repair script does not
    leave it alone: it splits the text at the commas, so that the opening
    bracket ends up in the first keyword and the closing bracket in the
    last one. *)
Theorem debugKeywords_rewraps_text (x z : jsstring) (mid : list jsstring) :
  Forall (fun k => plainKeyword k = true) (x :: mid ++ [z]) ->
  fixedKeywords (PayText (stringify (x :: mid ++ [z])))
  = stringify ((lbracket :: x) :: mid ++ [z ++ [rbracket]]).
Proof.
  intros H.
  assert (P : Forall (fun k => k <> [] /\ forallb plainUnit k = true)
                (x :: mid ++ [z])).
  { eapply Forall_impl; [|exact H]. intros k. unfold plainKeyword.
    rewrite andb_true_iff. intros (Hn & Hp). split; [|exact Hp].
    intros E. now rewrite E in Hn. }
  clear H.
  set (pieces := (lbracket :: quoteJSONString x)
                   :: List.map quoteJSONString mid
                   ++ [quoteJSONString z ++ [rbracket]]).
  assert (E : stringify (x :: mid ++ [z]) = join [comma] pieces).
  { unfold stringify, pieces. cbn [app List.map].
    rewrite map_app. cbn [List.map].
    change (quoteJSONString x
              :: List.map quoteJSONString mid ++ [quoteJSONString z])
      with ((quoteJSONString x :: List.map quoteJSONString mid)
              ++ [quoteJSONString z]).
    rewrite join_snoc_tail. cbn [app]. apply join_head. }
  assert (Q : forall k, forallb plainUnit k = true ->
                        quoteJSONString k = dquote :: k ++ [dquote]).
  { intros k Hk. unfold quoteJSONString. now rewrite quoteBody_plain. }
  assert (NC : forall k, forallb plainUnit k = true ->
                         ~ In comma (quoteJSONString k)).
  { intros k Hk. rewrite (Q k Hk). intros [C|C]; [discriminate|].
    apply in_app_or in C as [C|[C|[]]]; [|discriminate].
    exact (plain_no_comma k Hk C). }
  inversion P as [|? ? (Hxn & Hx) P']; subst.
  apply Forall_app in P' as (Pmid & Pz).
  inversion Pz as [|? ? (Hzn & Hz) _]; subst.
  assert (F : Forall (fun k => ~ In comma k) pieces).
  { unfold pieces. constructor.
    - intros [C|C]; [discriminate|]. exact (NC x Hx C).
    - apply Forall_app. split.
      + apply Forall_forall. intros k Hk.
        apply in_map_iff in Hk as (y & <- & Hy).
        rewrite Forall_forall in Pmid. apply NC. now apply Pmid.
      + constructor; [|constructor]. intros C.
        apply in_app_or in C as [C|[C|[]]]; [|discriminate].
        exact (NC z Hz C). }
  unfold fixedKeywords. cbn [payloadTruthy payloadString].
  destruct (stringify_head (x :: mid ++ [z])) as (t & Ht).
  replace (nonEmpty (stringify (x :: mid ++ [z]))) with true
    by now rewrite Ht.
  rewrite E.
  assert (I : includes (join [comma] pieces) [comma] = true).
  { apply includes_single_true. unfold pieces.
    destruct (List.map quoteJSONString mid) as [|p ps];
      cbn [app]; apply join_has_sep. }
  rewrite I. subst pieces. rewrite split_join by exact F.
  f_equal. cbn [List.map filter].
  rewrite (Q x Hx).
  change (lbracket :: dquote :: x ++ [dquote])
    with (lbracket :: (dquote :: x) ++ [dquote]).
  rewrite trim_fixed by reflexivity.
  cbn [stripQuotes filter app].
  change (filter (fun c => negb ((c =? squote) || (c =? dquote))%N))
    with stripQuotes.
  rewrite stripQuotes_app, (stripQuotes_plain x Hx).
  cbn [stripQuotes filter]. rewrite app_nil_r.
  cbn [negb orb N.eqb Pos.eqb lbracket squote dquote nonEmpty].
  f_equal.
  rewrite map_app, filter_app. cbn [List.map filter].
  rewrite (Q z Hz).
  replace ((dquote :: z ++ [dquote]) ++ [rbracket])
    with (dquote :: (z ++ [dquote]) ++ [rbracket]) by reflexivity.
  rewrite trim_fixed by reflexivity.
  assert (Z : stripQuotes (dquote :: (z ++ [dquote]) ++ [rbracket])
              = z ++ [rbracket]).
  { change (dquote :: (z ++ [dquote]) ++ [rbracket])
      with ([dquote] ++ (z ++ [dquote]) ++ [rbracket]).
    rewrite !stripQuotes_app, (stripQuotes_plain z Hz).
    cbn [stripQuotes filter negb orb N.eqb Pos.eqb squote dquote rbracket
         app].
    now rewrite app_nil_r. }
  rewrite Z.
  replace (nonEmpty (z ++ [rbracket])) with true
    by (destruct z; reflexivity).
  f_equal.
  clear - Pmid Q. induction Pmid as [|y l (Hyn & Hy) _ IH]; [reflexivity|].
  cbn [List.map filter]. rewrite (Q y Hy).
  rewrite trim_fixed by reflexivity.
  change (dquote :: y ++ [dquote]) with ([dquote] ++ y ++ [dquote]).
  rewrite !stripQuotes_app, (stripQuotes_plain y Hy).
  cbn [stripQuotes filter negb orb N.eqb Pos.eqb squote dquote app].
  rewrite app_nil_r, (@nonEmpty_true y Hyn), IH. reflexivity.
Qed.

Lemma debugKeywords_rewraps_text_scenario :
  fixedKeywords
    (PayText (stringify ([js "echo dot"] ++ [js "alexa"] ++ [js "speaker"])))
  = stringify [js "[echo dot"; js "alexa"; js "speaker]"].
Proof.
  apply (@debugKeywords_rewraps_text (js "echo dot") (js "speaker")
           [js "alexa"]).
  repeat constructor.
Defined.

(** ** Every request is answered *)

Lemma returnsOnly_ret {A} (P : A -> Prop) (a : A) :
  P a -> returnsOnly P (ret a).
Proof. intros H w a' w' [= <- _]. exact H. Qed.

Lemma returnsOnly_bind {A B} (P : B -> Prop) (c : M A) (k : A -> M B) :
  (forall a, returnsOnly P (k a)) -> returnsOnly P (bind c k).
Proof.
  intros H w b w'. unfold bind.
  destruct (c w) as [[a|m] w1]; [apply H|discriminate].
Qed.

Lemma answersWith_tryCatch (allowed : list nat) (c : M Response)
  (handler : jsstring -> M Response) :
  returnsOnly (fun r => In (status r) allowed) c ->
  (forall m, answersWith allowed (handler m)) ->
  answersWith allowed (tryCatch c handler).
Proof.
  intros Hc Hh w. unfold tryCatch.
  destruct (c w) as [[r|m] w1] eqn:E.
  - exists r, w1. split; [reflexivity|]. exact (Hc _ _ _ E).
  - apply Hh.
Qed.

Lemma answersWith_ret (allowed : list nat) (r : Response) :
  In (status r) allowed -> answersWith allowed (ret r).
Proof. intros H w. exists r, w. split; [reflexivity|exact H]. Qed.

Lemma returnsOnly_tryCatch {A} (P : A -> Prop) (c : M A)
  (handler : jsstring -> M A) :
  returnsOnly P c -> (forall m, returnsOnly P (handler m)) ->
  returnsOnly P (tryCatch c handler).
Proof.
  intros Hc Hh w a w'. unfold tryCatch.
  destruct (c w) as [[r|m] w1] eqn:E.
  - intros [= <- _]. exact (Hc _ _ _ E).
  - apply Hh.
Qed.

Ltac returns_with leaf :=
  repeat first
    [ apply returnsOnly_bind; intros
    | apply returnsOnly_ret; leaf
    | match goal with
      | |- returnsOnly _ (if ?b then _ else _) => destruct b
      | |- returnsOnly _ (match ?x with _ => _ end) => destruct x
      end ].

Ltac returns_step := returns_with ltac:(cbn; tauto).

(** X16. The three handlers answer every request, whatever the database,
    the scraper and the generative service do: no error escapes their
    [try]/[catch].  The product route answers 200, 400, 404 or 500, the
    optimisation route 200, 404, 500 or 503, the feedback route 200, 400,
    404 or 500. *)
Theorem routes_always_answer :
  (forall asin, answersWith [200; 400; 404; 500] (getProduct asin))
  /\ (forall asin, answersWith [200; 404; 500; 503] (optimizeRoute asin))
  /\ (forall optimizationId feedback rating comments,
        answersWith [200; 400; 404; 500]
          (submitFeedback optimizationId feedback rating comments)).
Proof.
  split; [|split].
  - intros asin. unfold getProduct, json, fail. cbv zeta.
    apply answersWith_tryCatch.
    + returns_step.
    + intros m.
      destruct (includes m (js "Invalid ASIN"));
        [|destruct (includes m (js "not found"))];
        apply answersWith_ret; cbn; tauto.
  - intros asin. unfold optimizeRoute, json, fail. cbv zeta.
    apply answersWith_tryCatch.
    + returns_step.
    + intros m. destruct (includes m (js "API"));
        apply answersWith_ret; cbn; tauto.
  - intros optimizationId feedback rating comments.
    unfold submitFeedback, json, fail. cbv zeta.
    apply answersWith_tryCatch.
    + returns_step.
    + intros m. apply answersWith_ret; cbn; tauto.
Qed.

(** ** Pagination *)

Lemma ceilDiv_least (total limit n : Z) :
  (0 < limit)%Z ->
  (ceilDiv total limit <= n)%Z <-> (total <= n * limit)%Z.
Proof.
  intros H. unfold ceilDiv.
  pose proof (Z.div_mod (- total) limit ltac:(lia)) as E.
  pose proof (Z.mod_pos_bound (- total) limit H) as B.
  split; intros K; nia.
Qed.

(** X17. The page window of the list routes.  The page size never exceeds
    the cap, and neither the page number nor the page size is ever zero; a
    parameter that is missing or does not parse (or is zero) gives the
    first page and the default size.  For a page number and a page size of
    at least one and a non-negative total, the offset is not negative,
    [totalPages] is the least number of pages that hold the total,
    [hasNextPage] says exactly that rows remain after this page's window,
    and [hasPrevPage] exactly that the window does not start at the first
    row. *)
Theorem pagination_window (defaultLimit cap : Z)
  (pageQuery limitQuery : option jsstring) (total : Z) :
  (0 < defaultLimit <= cap)%Z ->
  let page := pageOf pageQuery in
  let limit := limitOf defaultLimit cap limitQuery in
  let pg := paginationOf page limit total in
  (limit <= cap)%Z /\ limit <> 0%Z /\ page <> 0%Z
  /\ (orDefault (parseIntQuery pageQuery) 0 = 0%Z -> page = 1%Z)
  /\ (orDefault (parseIntQuery limitQuery) 0 = 0%Z -> limit = defaultLimit)
  /\ ((1 <= page)%Z -> (1 <= limit)%Z -> (0 <= total)%Z ->
      (0 <= offsetOf page limit)%Z
      /\ (forall n, (totalPages pg <= n)%Z <-> (total <= n * limit)%Z)
      /\ (hasNextPage pg = true <-> (offsetOf page limit + limit < total)%Z)
      /\ (hasPrevPage pg = true <-> (0 < offsetOf page limit)%Z)).
Proof.
  intros Hd. cbv zeta. unfold pageOf, limitOf, orDefault.
  destruct (parseIntQuery pageQuery) as [p|];
    destruct (parseIntQuery limitQuery) as [l|];
    repeat match goal with
           | |- context [(?v =? 0)%Z] =>
               let E := fresh "E" in
               destruct (v =? 0)%Z eqn:E;
               [apply Z.eqb_eq in E|apply Z.eqb_neq in E]
           end;
    (split; [lia|]); (split; [lia|]); (split; [lia|]);
    (split; [intros; lia|]); (split; [intros; lia|]);
    intros Hp Hl Ht;
    match goal with
    | |- context [paginationOf ?pg ?lm total] =>
        cbn [paginationOf totalPages hasNextPage hasPrevPage];
        pose proof (@ceilDiv_least total lm) as C;
        unfold offsetOf;
        (split; [nia|]);
        (split; [intros n; apply C; lia|]);
        rewrite Z.ltb_lt;
        (split; [|split; intros; nia]);
        pose proof (C pg ltac:(lia));
        split; intros; nia
    end.
Qed.

Lemma pagination_window_scenario :
  let pg := paginationOf (pageOf (Some (js "3")))
              (limitOf 20 100 (Some (js "250"))) 260 in
  itemsPerPage pg = 100%Z /\ currentPage pg = 3%Z /\ totalPages pg = 3%Z
  /\ hasNextPage pg = false /\ hasPrevPage pg = true.
Proof.
  pose proof (@pagination_window 20 100 (Some (js "3")) (Some (js "250")) 260
                ltac:(lia)) as H.
  cbv zeta in H. destruct H as (_ & _ & _ & _ & _ & H).
  destruct (H ltac:(vm_compute; discriminate) ltac:(vm_compute; discriminate)
              ltac:(lia)) as (_ & _ & _ & _).
  vm_compute. repeat split.
Defined.

(** ** Which handler a request reaches *)

Ltac reach method path :=
  exists method, path; eexists; vm_compute; reflexivity.

(** X18. In the optimisation router the route for one identifier is
    registered before the batch route and takes every POST of one segment:
    a POST to [/batch] is handled as the optimisation of the identifier
    [batch], and no request at all reaches the batch handler.  Every other
    handler of the three routers is reachable. *)
Theorem optimize_batch_route_is_shadowed :
  dispatch optimizationRoutes POST [js "batch"]
  = Some (OptimizeOne, [(js "asin", js "batch")])
  /\ ~ reachable optimizationRoutes OptimizeBatch
  /\ (forall route, In route productRoutes ->
                    reachable productRoutes (r_handler route))
  /\ (forall route, In route historyRoutes ->
                    reachable historyRoutes (r_handler route))
  /\ (forall route, In route optimizationRoutes ->
                    r_handler route <> OptimizeBatch ->
                    reachable optimizationRoutes (r_handler route)).
Proof.
  split; [reflexivity|]. split.
  - intros (method & path & params & H).
    unfold optimizationRoutes in H. cbn [dispatch r_method r_path r_handler] in H.
    destruct method; cbn [sameMethod] in H.
    + destruct path as [|a [|b path]]; cbn [matchPath] in H;
        try discriminate.
      * destruct (sameTextNoCase (js "stats") a); discriminate.
      * destruct (sameTextNoCase (js "stats") a); discriminate.
    + destruct path as [|a [|b path]]; cbn [matchPath] in H;
        try discriminate.
      destruct (sameTextNoCase (js "batch") a); discriminate.
  - split; [|split].
    + intros route [<-|[<-|[<-|[]]]]; cbn [r_handler].
      * reach GET [js "B08N5WRWNW"].
      * reach POST [js "batch"].
      * reach GET (@nil jsstring).
    + intros route [<-|[<-|[<-|[<-|[]]]]]; cbn [r_handler].
      * reach GET [js "B08N5WRWNW"].
      * reach GET (@nil jsstring).
      * reach POST [js "7"; js "feedback"].
      * reach GET [js "analytics"; js "trends"].
    + intros route [<-|[<-|[<-|[]]]] Hne; cbn [r_handler] in *.
      * reach POST [js "B08N5WRWNW"].
      * congruence.
      * reach GET [js "stats"].
Qed.

(** ** Fetching several products *)

Lemma fetchProductDetailsOf_run (asin : JsValue) (w : World) :
  exists o w',
    fetchProductDetailsOf asin w = (o, w')
    /\ env w' = env w /\ db w' = db w /\ queries w' = queries w
    /\ clock w' = clock w
    /\ fetches w' = fetches w + (if passesGuard asin then 1 else 0)
    /\ (passesGuard asin = false -> o = Thrown invalidAsinFormat).
Proof.
  unfold fetchProductDetailsOf, passesGuard.
  destruct asin as [| |b|q|s|l|m];
    try (exists (Thrown invalidAsinFormat), w;
         repeat split; cbn; try lia; reflexivity).
  destruct (length s =? 10).
  - unfold fetchProductDetails. eexists. eexists. split; [reflexivity|].
    cbn. repeat split; try lia; try discriminate.
  - exists (Thrown invalidAsinFormat), w.
    repeat split; cbn; try lia; reflexivity.
Qed.

Lemma fetchLoop_run (delayMs : Z) (asins : list JsValue) :
  forall results w,
  exists rs w',
    fetchLoop delayMs asins results w = (Returned (results ++ rs), w')
    /\ List.map fr_asin rs = asins
    /\ env w' = env w /\ db w' = db w /\ queries w' = queries w
    /\ fetches w' = fetches w + length (filter passesGuard asins)
    /\ Forall (fun r => passesGuard (fr_asin r) = false ->
                        fr_outcome r = Thrown invalidAsinFormat) rs.
Proof.
  induction asins as [|asin rest IH]; intros results w.
  - exists [], w. cbn. rewrite app_nil_r. repeat split; try lia. constructor.
  - cbn [fetchLoop].
    destruct (fetchProductDetailsOf_run asin w)
      as (o & w1 & E & He & Hd & Hq & Hc & Hf & Hg).
    set (step := tryCatch _ _).
    assert (S1 : exists w2,
               step w = (Returned (results
                                     ++ [{| fr_asin := asin; fr_outcome := o |}]),
                         w2)
               /\ env w2 = env w /\ db w2 = db w /\ queries w2 = queries w
               /\ fetches w2 = fetches w1).
    { unfold step, tryCatch, bind at 1. rewrite E.
      destruct o as [product|message].
      - unfold bind, sleep, modify, ret.
        destruct (isNil rest); eexists; (split; [reflexivity|]); cbn;
          repeat split; assumption.
      - unfold ret. exists w1. repeat split; assumption. }
    destruct S1 as (w2 & E2 & He2 & Hd2 & Hq2 & Hf2).
    destruct (IH (results ++ [{| fr_asin := asin; fr_outcome := o |}]) w2)
      as (rs & w' & E3 & Hm & He3 & Hd3 & Hq3 & Hf3 & Hg3).
    exists ({| fr_asin := asin; fr_outcome := o |} :: rs), w'.
    unfold bind at 1. rewrite E2, E3.
    rewrite <- app_assoc. cbn [app List.map fr_asin filter].
    split; [reflexivity|]. split; [now rewrite Hm|].
    split; [congruence|]. split; [congruence|]. split; [congruence|].
    split.
    + rewrite Hf3, Hf2, Hf. destruct (passesGuard asin); cbn [length]; lia.
    + constructor; [exact Hg|exact Hg3].
Qed.

(** X19. Given an array, [fetchMultipleProducts] never throws: it returns
    one entry per identifier, in the order of the request, failures
    included.  It sends one page request for each identifier that is a
    string of ten units and none for the others, which are entered with
    the guard's message; it does not touch the database. *)
Theorem fetchMultipleProducts_one_entry_each (asins : list JsValue)
  (delayMs : option Z) (w : World) :
  exists rs w',
    fetchMultipleProducts (JArr asins) delayMs w = (Returned rs, w')
    /\ List.map fr_asin rs = asins
    /\ db w' = db w /\ queries w' = queries w
    /\ fetches w' = fetches w + length (filter passesGuard asins)
    /\ Forall (fun r => passesGuard (fr_asin r) = false ->
                        fr_outcome r = Thrown invalidAsinFormat) rs.
Proof.
  unfold fetchMultipleProducts.
  destruct (fetchLoop_run
              (match delayMs with Some d => d | None => defaultFetchDelay end)
              asins [] w)
    as (rs & w' & E & Hm & _ & Hd & Hq & Hf & Hg).
  exists rs, w'. cbn [app] in E. repeat split; assumption.
Qed.

(** ** The batch route of the products *)

Lemma upsertProduct_rows (data : Scraped.t) (w : World) :
  dbFault (env w) (queries w) = None ->
  exists w',
    upsertProduct data w = (Returned tt, w')
    /\ env w' = env w /\ clock w' = clock w /\ fetches w' = fetches w
    /\ hasProduct (db w') (Scraped.asin data)
    /\ (forall asin, hasProduct (db w) asin -> hasProduct (db w') asin).
Proof.
  intros Q. unfold upsertProduct. rewrite executeQuery_ok by exact Q.
  cbn [fst snd]. eexists. split; [reflexivity|].
  cbn [setDb countQuery env clock fetches db products].
  repeat (split; [reflexivity|]).
  unfold hasProduct. cbn [products].
  set (asin := Scraped.asin data).
  set (hit := fun p : ProductRow => sameText (p_asin p) asin).
  set (fill := fun (id : nat) (created : Z) =>
     {| p_id := id; p_asin := asin; p_title := Scraped.title data;
        p_bullet_points := Scraped.bulletPoints data;
        p_description := Scraped.description data;
        p_image_url := Scraped.imageUrl data;
        p_price := Scraped.price data;
        p_availability := Scraped.availability data;
        p_rating := Scraped.rating data;
        p_review_count := Scraped.reviewCount data;
        p_created_at := created; p_updated_at := clock w |}).
  assert (Fa : forall id created, p_asin (fill id created) = asin)
    by reflexivity.
  destruct (existsb hit (products (db w))) eqn:Ex.
  - split.
    + apply existsb_exists in Ex as (p & Hin & Hp).
      exists (fill (p_id p) (p_created_at p)). split; [|apply Fa].
      apply in_map_iff. exists p. split; [|exact Hin].
      change (sameText (p_asin p) asin) with (hit p). now rewrite Hp.
    + intros a (p & Hin & Hp).
      exists (if hit p then fill (p_id p) (p_created_at p) else p). split.
      * apply in_map_iff. exists p. split; [reflexivity|exact Hin].
      * destruct (hit p) eqn:H; [|exact Hp].
        rewrite Fa. unfold hit in H. apply sameText_true in H. congruence.
  - split.
    + eexists. split; [apply in_or_app; right; left; reflexivity|apply Fa].
    + intros a (p & Hin & Hp). exists p. split; [|exact Hp].
      apply in_or_app. now left.
Qed.

Lemma storeFetched_run (results : list FetchResult) :
  forall w,
    (forall n, dbFault (env w) n = None) ->
    exists w',
      storeFetched results w = (Returned tt, w')
      /\ env w' = env w /\ clock w' = clock w /\ fetches w' = fetches w
      /\ (forall asin, hasProduct (db w) asin -> hasProduct (db w') asin)
      /\ (forall r data, In r results -> fr_outcome r = Returned data ->
                         hasProduct (db w') (Scraped.asin data)).
Proof.
  induction results as [|r rest IH]; intros w Q.
  - exists w. cbn. repeat split; auto. intros ? ? [].
  - cbn [storeFetched]. destruct (fr_outcome r) as [data|m] eqn:O.
    + destruct (@upsertProduct_rows data w (Q _))
        as (w1 & E1 & He & Hc & Hf & Hin & Hkeep).
      destruct (IH w1) as (w' & E2 & He2 & Hc2 & Hf2 & Hkeep2 & Hall).
      { intros n. rewrite He. apply Q. }
      exists w'. unfold bind. rewrite E1, E2.
      split; [reflexivity|]. split; [congruence|]. split; [congruence|].
      split; [congruence|]. split; [auto|].
      intros r' data' [<-|Hr] O'.
      * rewrite O in O'. injection O' as <-. auto.
      * eapply Hall; eassumption.
    + destruct (IH w Q) as (w' & E2 & He2 & Hc2 & Hf2 & Hkeep2 & Hall).
      exists w'. split; [exact E2|]. repeat (split; [assumption|]).
      intros r' data' [<-|Hr] O'; [congruence|].
      eapply Hall; eassumption.
Qed.

Lemma filter_partition_length {A} (p : A -> bool) (l : list A) :
  length (filter p l) + length (filter (fun a => negb (p a)) l) = length l.
Proof.
  induction l as [|a l IH]; [reflexivity|].
  cbn [filter]. destruct (p a); cbn [negb length]; lia.
Qed.

Lemma isValidASIN_passesGuard (asin : JsValue) :
  isValidASIN asin = true -> passesGuard asin = true.
Proof.
  destruct asin; cbn; try discriminate.
  intros H. now apply andb_true_iff in H.
Qed.

(** X20. [POST /api/products/batch].  A body whose [asins] is not an
    array of one to ten valid identifiers is refused with 400 before
    anything is fetched or written.  For one to ten valid identifiers,
    when the database does not fail, the answer is 200 with one result per
    identifier in the order of the request; the summary counts them all,
    each either as successful or as failed; one page was requested per
    identifier; and every record fetched successfully has its row in the
    product table afterwards. *)
Theorem fetchBatch_spec (asins : JsValue) (w : World) :
  ((forall l, asins = JArr l ->
              l = [] \/ maxBatchSize < length l
              \/ forallb isValidASIN l = false) ->
   exists r, fetchBatch asins w = (Returned r, w) /\ b_status r = 400)
  /\ (forall l,
        asins = JArr l -> l <> [] -> length l <= maxBatchSize ->
        forallb isValidASIN l = true ->
        (forall n, dbFault (env w) n = None) ->
        exists rs sm w',
          fetchBatch asins w
          = (Returned {| b_status := 200;
                         b_body := BatchFetched rs sm (clock w') |}, w')
          /\ List.map fr_asin rs = l
          /\ total sm = length l
          /\ sm_successful sm = length (filter success rs)
          /\ sm_successful sm + sm_failed sm = total sm
          /\ fetches w' = fetches w + length l
          /\ (forall r data,
                In r rs -> fr_outcome r = Returned data ->
                hasProduct (db w') (Scraped.asin data))).
Proof.
  split.
  - intros H. unfold fetchBatch, tryCatch, ret.
    destruct asins as [| |b|q|s|l|m]; try (eexists; split; reflexivity).
    destruct l as [|a l]; [eexists; split; reflexivity|].
    destruct (H _ eq_refl) as [E|[E|E]]; [discriminate| |].
    + apply Nat.ltb_lt in E. rewrite E. eexists; split; reflexivity.
    + destruct (maxBatchSize <? length (a :: l));
        [eexists; split; reflexivity|].
      set (invalid := filter _ (a :: l)).
      assert (N : invalid <> []).
      { intros N. apply Bool.not_true_iff_false in E. apply E.
        apply forallb_forall. intros x Hx.
        destruct (isValidASIN x) eqn:V; [reflexivity|].
        assert (Hin : In x invalid)
          by (apply filter_In; split; [exact Hx|now rewrite V]).
        rewrite N in Hin. destruct Hin. }
      destruct invalid as [|i invalid']; [congruence|].
      eexists; split; reflexivity.
  - intros l -> Hne Hlen Hvalid Q.
    destruct l as [|a l]; [congruence|].
    set (asins := a :: l) in *.
    unfold fetchBatch. fold asins.
    apply Nat.ltb_ge in Hlen. 
    assert (NoInvalid : filter (fun asin => negb (isValidASIN asin)) asins = []).
    { rewrite forallb_forall in Hvalid.
      clear - Hvalid. induction asins as [|x xs IH]; [reflexivity|].
      cbn [filter]. rewrite (Hvalid x (or_introl eq_refl)). cbn [negb].
      apply IH. intros y Hy. apply Hvalid. now right. }
    destruct (fetchLoop_run defaultFetchDelay asins [] w)
      as (rs & w1 & E1 & Hm & He1 & Hd1 & Hq1 & Hf1 & _).
    cbn [app] in E1.
    destruct (@storeFetched_run rs w1) as (w2 & E2 & He2 & Hc2 & Hf2 & _ & Hall).
    { intros n. rewrite He1. apply Q. }
    assert (G : filter passesGuard asins = asins).
    { apply filter_all. apply Forall_forall. intros x Hx.
      apply isValidASIN_passesGuard.
      rewrite forallb_forall in Hvalid. now apply Hvalid. }
    assert (Run : fetchBatch (JArr asins) w
                  = (Returned
                       {| b_status := 200;
                          b_body :=
                            BatchFetched rs
                              {| total := length asins;
                                 sm_successful := length (filter success rs);
                                 sm_failed :=
                                   length (filter (fun r => negb (success r)) rs) |}
                              (clock w2) |}, w2)).
    { unfold fetchBatch. fold asins. unfold asins at 1.
      fold asins. rewrite Hlen, NoInvalid. cbn [length Nat.ltb Nat.leb].
      unfold tryCatch, bind, fetchMultipleProducts.
      change (match None with Some d => d | None => defaultFetchDelay end)
        with defaultFetchDelay.
      rewrite E1, E2. reflexivity. }
    eexists. eexists. exists w2. split; [exact Run|].
    cbn [total sm_successful sm_failed].
    split; [exact Hm|]. split; [reflexivity|]. split; [reflexivity|].
    split.
    + rewrite filter_partition_length, <- Hm. symmetry. apply length_map.
    + split; [|exact Hall]. rewrite Hf2, Hf1, G. reflexivity.
Qed.

Lemma fetchBatch_scenario :
  (exists r,
     fetchBatch (JArr [JStr echoDot; JStr (js "b08n5wrwnw")])
                (storeWorld (hours 25) None [])
     = (Returned r, storeWorld (hours 25) None [])
     /\ b_status r = 400)
  /\ (exists rs sm w',
        fetchBatch (JArr [JStr echoDot]) (storeWorld (hours 25) None [])
        = (Returned {| b_status := 200;
                       b_body := BatchFetched rs sm (clock w') |}, w')
        /\ List.map fr_asin rs = [JStr echoDot]
        /\ total sm = 1 /\ sm_successful sm = 1
        /\ fetches w' = 1).
Proof.
  split.
  - apply (proj1 (fetchBatch_spec
                    (JArr [JStr echoDot; JStr (js "b08n5wrwnw")])
                    (storeWorld (hours 25) None []))).
    intros l [= <-]. right. right. reflexivity.
  - destruct (proj2 (fetchBatch_spec (JArr [JStr echoDot])
                       (storeWorld (hours 25) None []))
                [JStr echoDot] eq_refl ltac:(discriminate)
                ltac:(unfold maxBatchSize; cbn; lia) eq_refl
                ltac:(intros n; reflexivity))
      as (rs & sm & w' & E & Hm & Ht & Hs & _ & Hf & _).
    exists rs, sm, w'. split; [exact E|]. split; [exact Hm|].
    split; [exact Ht|]. split; [|exact Hf].
    rewrite Hs.
    assert (R : fst (fetchBatch (JArr [JStr echoDot])
                       (storeWorld (hours 25) None []))
                = Returned {| b_status := 200;
                              b_body := BatchFetched rs sm (clock w') |})
      by now rewrite E.
    vm_compute in R. injection R as <- _ _. reflexivity.
Defined.

(** ** What the scraper returns *)

Lemma firstAccepted_some (accept : jsstring -> bool) (texts : list jsstring)
  (t : jsstring) :
  firstAccepted accept texts = Some t -> accept t = true /\ trim t = t.
Proof.
  induction texts as [|text rest IH]; [discriminate|].
  cbn [firstAccepted]. destruct (accept (trim text)) eqn:A; [|exact IH].
  intros [= <-]. split; [exact A|apply trim_idem].
Qed.

Lemma spanDigits_digits (s : jsstring) :
  forallb isDigit (fst (spanDigits s)) = true.
Proof.
  induction s as [|c r IH]; [reflexivity|].
  cbn [spanDigits]. destruct (isDigit c) eqn:D; [|reflexivity].
  destruct (spanDigits r) as [d rest]. cbn [fst forallb] in *.
  now rewrite D, IH.
Qed.

Lemma isDigit_value (c : N) :
  isDigit c = true -> (0 <= Z.of_N c - 48 <= 9)%Z.
Proof. unfold isDigit. rewrite andb_true_iff, !N.leb_le. lia. Qed.

Lemma digits_fold_nonneg (d : jsstring) :
  forall acc, (0 <= acc)%Z -> forallb isDigit d = true ->
              (0 <= fold_left (fun a c => a * 10 + (Z.of_N c - 48)) d acc)%Z.
Proof.
  induction d as [|c r IH]; intros acc Ha H; [exact Ha|].
  cbn [forallb] in H. apply andb_true_iff in H as (Hc & Hr).
  cbn [fold_left]. apply IH; [|exact Hr].
  pose proof (isDigit_value c Hc). lia.
Qed.

Lemma digitsValue_nonneg (d : jsstring) :
  forallb isDigit d = true -> (0 <= digitsValue d)%Z.
Proof. apply digits_fold_nonneg. lia. Qed.

Lemma ratingAt_digits (s whole fraction : jsstring) :
  ratingAt s = Some (whole, fraction) ->
  forallb isDigit whole = true /\ forallb isDigit fraction = true.
Proof.
  unfold ratingAt.
  pose proof (spanDigits_digits s) as H1.
  destruct (spanDigits s) as [w r1]. cbn [fst] in H1.
  destruct (nonEmpty w); [|discriminate].
  set (r2 := match r1 with
             | c :: r => if (c =? 46)%N then r else r1
             | [] => r1
             end).
  pose proof (spanDigits_digits r2) as H2.
  destruct (spanDigits r2) as [f r3]. cbn [fst] in H2.
  destruct (startsWith r3 (js " out of 5")); [|discriminate].
  intros [= <- <-]. split; assumption.
Qed.

Lemma ratingMatch_digits (s whole fraction : jsstring) :
  ratingMatch s = Some (whole, fraction) ->
  forallb isDigit whole = true /\ forallb isDigit fraction = true.
Proof.
  induction s as [|c r IH]; cbn [ratingMatch].
  - destruct (ratingAt []) as [g|] eqn:E; [|discriminate].
    intros [= ->]. now apply ratingAt_digits in E.
  - destruct (ratingAt (c :: r)) as [g|] eqn:E; [|exact IH].
    intros [= ->]. now apply ratingAt_digits in E.
Qed.

Lemma decimalValue_nonneg (whole fraction : jsstring) :
  forallb isDigit whole = true -> forallb isDigit fraction = true ->
  (0 <= decimalValue whole fraction)%Q.
Proof.
  intros Hw Hf. unfold decimalValue.
  apply digitsValue_nonneg in Hw, Hf.
  rewrite Zle_Qle in Hw, Hf.
  assert (P : (0 <= inject_Z (10 ^ Z.of_nat (length fraction)))%Q).
  { change 0%Q with (inject_Z 0). rewrite <- Zle_Qle.
    apply Z.pow_nonneg. lia. }
  apply Qinv_le_0_compat in P.
  pose proof (Qmult_le_0_compat _ _ Hf P) as M.
  unfold Qdiv. 
  apply Qle_trans with (0 + 0)%Q; [discriminate|].
  apply Qplus_le_compat; assumption.
Qed.

Lemma groupedDigits_nonneg (s : jsstring) :
  forall acc, (0 <= acc)%Z -> (0 <= groupedDigits acc s)%Z.
Proof.
  induction s as [|c r IH]; intros acc Ha; [exact Ha|].
  cbn [groupedDigits]. destruct (isDigit c) eqn:D.
  - apply IH. pose proof (isDigit_value c D). lia.
  - destruct (c =? comma)%N; [|exact Ha].
    destruct r as [|d r']; [exact Ha|].
    destruct (isDigit d); [now apply IH|exact Ha].
Qed.

Lemma firstImage_some (page : Page) (selectors : list jsstring)
  (src : jsstring) :
  firstImage page selectors = Some src -> src <> [].
Proof.
  induction selectors as [|selector rest IH]; [discriminate|].
  cbn [firstImage].
  destruct (orAttr _ _) as [a|]; [|exact IH].
  destruct (nonEmpty a) eqn:N; [|exact IH].
  intros [= <-] E. now rewrite E in N.
Qed.

Lemma firstBrand_some (texts : list jsstring) (brand : jsstring) :
  firstBrand texts = Some brand -> brand <> [].
Proof.
  induction texts as [|text rest IH]; [discriminate|].
  cbn [firstBrand].
  destruct (nonEmpty (removeFirst _ _)) eqn:N; [|exact IH].
  intros [= <-] E. now rewrite E in N.
Qed.

Lemma nonEmpty_ne (s : jsstring) : nonEmpty s = true -> s <> [].
Proof. intros H E. now rewrite E in H. Qed.

(** X21. A record returned by [fetchProductDetails] comes from a page
    answered with status 200.  It carries the requested identifier; its
    title is the trimmed text of a title selector and has at least ten
    units; its availability is never empty; a description, when there is
    one, is trimmed and longer than fifty units; a price, a category, an
    image address and a brand, when there are, are not empty; a rating
    and a review count, when there are, are not negative. *)
Theorem fetchProductDetails_record (asin : jsstring) (reply : HttpReply)
  (data : Scraped.t) :
  scrapeReply asin reply = Returned data ->
  (exists page, reply = Responded 200 page
                /\ extractTitle page = Some (Scraped.title data)
                /\ Scraped.bulletPoints data
                   = extractBulletPoints (documentOf page))
  /\ Scraped.asin data = asin
  /\ 10 <= length (Scraped.title data)
  /\ trim (Scraped.title data) = Scraped.title data
  /\ Scraped.availability data <> []
  /\ (forall d, Scraped.description data = Some d ->
                50 < length d /\ trim d = d)
  /\ (forall p, Scraped.price data = Some p -> p <> [] /\ trim p = p)
  /\ (forall c, Scraped.category data = Some c -> c <> [] /\ trim c = c)
  /\ (forall i, Scraped.imageUrl data = Some i -> i <> [])
  /\ (forall b, Scraped.brand data = Some b -> b <> [])
  /\ (forall q, Scraped.rating data = Some q -> (0 <= q)%Q)
  /\ (forall n, Scraped.reviewCount data = Some n -> (0 <= n)%Z).
Proof.
  unfold scrapeReply.
  destruct reply as [code message|httpStatus page].
  { destruct (_ || _); [discriminate|].
    destruct (hasCode code (js "ETIMEDOUT")); discriminate. }
  destruct (httpStatus =? 404) eqn:E404; [discriminate|].
  destruct (httpStatus =? 200) eqn:E200; [|discriminate]. cbn [negb].
  apply Nat.eqb_eq in E200. subst httpStatus.
  destruct (extractTitle page) as [t|] eqn:T; [|discriminate].
  destruct (length t <? 10) eqn:L; [discriminate|].
  apply Nat.ltb_ge in L.
  intros [= <-].
  cbn [Scraped.asin Scraped.title Scraped.bulletPoints Scraped.description
       Scraped.imageUrl Scraped.price Scraped.availability Scraped.rating
       Scraped.reviewCount Scraped.category Scraped.brand].
  split; [exists page; repeat split; try reflexivity; exact T|].
  split; [reflexivity|]. split; [exact L|].
  split; [exact (proj2 (firstAccepted_some _ _ T))|].
  split.
  { unfold extractAvailability.
    destruct (firstAccepted _ _) as [a|] eqn:A; [|discriminate].
    apply firstAccepted_some in A as (A & _).
    apply andb_true_iff in A as (A & _). now apply nonEmpty_ne. }
  split.
  { intros d D. apply firstAccepted_some in D as (A & Tr).
    apply andb_true_iff in A as (_ & A). apply Nat.ltb_lt in A.
    split; assumption. }
  split.
  { intros p P. apply firstAccepted_some in P as (A & Tr).
    split; [now apply nonEmpty_ne|exact Tr]. }
  split.
  { intros c. unfold extractCategory.
    destruct (nonEmpty (trim _)) eqn:N; [|discriminate].
    intros [= <-]. split; [now apply nonEmpty_ne|apply trim_idem]. }
  split; [intros i; apply firstImage_some|].
  split; [intros b; apply firstBrand_some|].
  split.
  { intros q. unfold extractRating.
    destruct (ratingMatch _) as [[whole fraction]|] eqn:R; [|discriminate].
    intros [= <-]. apply ratingMatch_digits in R as (Hw & Hf).
    now apply decimalValue_nonneg. }
  intros n. unfold extractReviewCount.
  destruct (fromFirstDigit _) as [|c r]; [discriminate|].
  intros E. assert (E' : n = groupedDigits 0 (c :: r)) by congruence.
  rewrite E'. apply groupedDigits_nonneg. lia.
Qed.

Lemma fetchProductDetails_record_scenario :
  exists data,
    scrapeReply echoDot (Responded 200 echoPage) = Returned data
    /\ Scraped.title data = js "Echo Dot (4th Gen) smart speaker"
    /\ Scraped.reviewCount data = Some 12345%Z
    /\ Scraped.brand data = Some (js "Amazon")
    /\ 10 <= length (Scraped.title data)
    /\ Scraped.availability data <> [].
Proof.
  destruct (scrapeReply echoDot (Responded 200 echoPage)) as [data|m] eqn:E;
    [|vm_compute in E; discriminate].
  exists data. split; [reflexivity|].
  destruct (@fetchProductDetails_record echoDot (Responded 200 echoPage)
              data E) as (_ & _ & L & _ & A & _).
  vm_compute in E. injection E as <-.
  split; [reflexivity|]. split; [reflexivity|]. split; [reflexivity|].
  split; [exact L|exact A].
Defined.

(** ** How the product route answers what the scraper finds *)

Lemma includes_incl (s p : jsstring) :
  includes s p = true -> forall c, In c p -> In c s.
Proof.
  assert (P : forall s p, startsWith s p = true ->
                          forall c, In c p -> In c s).
  { clear. intros s p. revert s.
    induction p as [|a p IH]; intros s H c Hc; [destruct Hc|].
    destruct s as [|b s]; [discriminate|].
    cbn [startsWith] in H. apply andb_true_iff in H as (E & H).
    apply N.eqb_eq in E. subst b.
    destruct Hc as [<-|Hc]; [now left|right; eapply IH; eassumption]. }
  induction s as [|b s IH]; cbn [includes]; intros H c Hc.
  - rewrite orb_false_r in H. exact (P _ _ H c Hc).
  - apply orb_true_iff in H as [H|H]; [exact (P _ _ H c Hc)|].
    right. exact (IH H c Hc).
Qed.

Lemma decimalFrom_digits (fuel : nat) :
  forall n acc, forallb isDigit acc = true ->
                forallb isDigit (decimalFrom fuel n acc) = true.
Proof.
  induction fuel as [|fuel IH]; intros n acc H; [exact H|].
  cbn [decimalFrom].
  assert (D : forallb isDigit ((48 + N.of_nat (n mod 10))%N :: acc) = true).
  { cbn [forallb]. rewrite H, andb_true_r. unfold isDigit.
    pose proof (Nat.mod_upper_bound n 10 ltac:(lia)).
    apply andb_true_iff. rewrite !N.leb_le. lia. }
  destruct (n / 10 =? 0); [exact D|]. apply IH, D.
Qed.

Lemma statusMessage_plain (n : nat) :
  includes (js "Amazon returned status " ++ decimal n) (js "Invalid ASIN")
  = false
  /\ includes (js "Amazon returned status " ++ decimal n) (js "not found")
     = false.
Proof.
  assert (D : forall c, In c (js "Amazon returned status " ++ decimal n) ->
                        c <> 73%N /\ c <> 102%N).
  { intros c Hc. apply in_app_or in Hc as [Hc|Hc].
    - cbn in Hc.
      repeat (destruct Hc as [<-|Hc]; [split; discriminate|]).
      destruct Hc.
    - pose proof (decimalFrom_digits (S n) n [] eq_refl) as F.
      fold (decimal n) in F. rewrite forallb_forall in F.
      specialize (F c Hc). unfold isDigit in F.
      apply andb_true_iff in F as (F1 & F2).
      apply N.leb_le in F1, F2. split; lia. }
  split.
  - destruct (includes _ (js "Invalid ASIN")) eqn:E; [|reflexivity].
    destruct (D 73%N) as (K & _); [|congruence].
    apply (includes_incl _ _ E). now left.
  - destruct (includes _ (js "not found")) eqn:E; [|reflexivity].
    destruct (D 102%N) as (_ & K); [|congruence].
    apply (includes_incl _ _ E). cbn. tauto.
Qed.

Lemma fetchAndStore_thrown (asin : jsstring) (w : World) (m : jsstring) :
  scrape (env w) (fetches w) asin = Thrown m ->
  tryCatch (fetchAndStore asin) productFailure w
  = productFailure m (emit (EvFetch asin) (countFetch w)).
Proof.
  intros S. unfold fetchAndStore, tryCatch, bind at 1, fetchProductDetails.
  now rewrite S.
Qed.

(** X22. How [GET /api/products/:asin] answers what the scraper meets,
    for a valid identifier that has to be fetched.  A page answered 404
    gives 404; any other status but 200 gives 500; a page without a title
    of ten units gives 500; a refused connection, an unknown host or a
    timeout signalled by its code gives 500; and a page with such a title
    gives 200 with the record extracted from it, as long as the database
    takes the write. *)
Theorem getProduct_by_reply (asin : jsstring) (w : World) (reply : HttpReply) :
  isValidASIN (JStr asin) = true ->
  dbFault (env w) (queries w) = None ->
  (storedProduct w asin = None \/
   exists product, storedProduct w asin = Some product /\
                   (oneDay <= clock w - p_updated_at product)%Z) ->
  scrape (env w) (fetches w) asin = scrapeReply asin reply ->
  let answer := fst (getProduct asin w) in
  (forall page, reply = Responded 404 page -> statusOf answer = 404)
  /\ (forall httpStatus page,
        reply = Responded httpStatus page ->
        httpStatus <> 404 -> httpStatus <> 200 -> statusOf answer = 500)
  /\ (forall page,
        reply = Responded 200 page ->
        (forall title, extractTitle page = Some title -> length title < 10) ->
        statusOf answer = 500)
  /\ (forall code message,
        reply = Rejected (Some code) message ->
        In code [js "ENOTFOUND"; js "ECONNREFUSED"; js "ETIMEDOUT"] ->
        statusOf answer = 500)
  /\ (forall page title,
        reply = Responded 200 page ->
        extractTitle page = Some title -> 10 <= length title ->
        dbFault (env w) (S (queries w)) = None ->
        exists data,
          scrapeReply asin reply = Returned data
          /\ Scraped.title data = title
          /\ answer = Returned {| status := 200;
                                  body := ProductBody data (js "fresh")
                                                      (clock w) |}).
Proof.
  intros V Q0 HP S. cbv zeta.
  rewrite (@getProduct_fetches asin w V Q0 HP).
  change (scrape (env w) (fetches w) asin)
    with (scrape (env (countQuery w)) (fetches (countQuery w)) asin) in S.
  split; [|split; [|split; [|split]]].
  - intros page ->. cbn [scrapeReply Nat.eqb] in S.
    rewrite (fetchAndStore_thrown _ _ S). reflexivity.
  - intros httpStatus page -> N404 N200. cbn [scrapeReply] in S.
    apply Nat.eqb_neq in N404, N200. rewrite N404, N200 in S.
    cbn [negb] in S. rewrite (fetchAndStore_thrown _ _ S).
    unfold productFailure.
    destruct (statusMessage_plain httpStatus) as (A & B).
    rewrite A, B. reflexivity.
  - intros page -> Short. cbn [scrapeReply Nat.eqb negb] in S.
    assert (T : scrape (env (countQuery w)) (fetches (countQuery w)) asin
                = Thrown titleNotExtracted).
    { rewrite S. destruct (extractTitle page) as [t|] eqn:E; [|reflexivity].
      specialize (Short t eq_refl). apply Nat.ltb_lt in Short.
      now rewrite Short. }
    rewrite (fetchAndStore_thrown _ _ T). reflexivity.
  - intros code message -> Hcode.
    assert (T : scrape (env (countQuery w)) (fetches (countQuery w)) asin
                = Thrown networkFailed
                \/ scrape (env (countQuery w)) (fetches (countQuery w)) asin
                   = Thrown requestTimeout).
    { rewrite S. cbn [scrapeReply hasCode].
      destruct Hcode as [<-|[<-|[<-|[]]]]; [left|left|right]; reflexivity. }
    destruct T as [T|T]; rewrite (fetchAndStore_thrown _ _ T); reflexivity.
  - intros page title -> T L Q1.
    cbn [scrapeReply Nat.eqb negb] in S |- *. rewrite T in S |- *.
    apply Nat.ltb_ge in L. rewrite L in S |- *.
    eexists. split; [reflexivity|]. split; [reflexivity|].
    destruct (fetchAndStore_run asin (countQuery w)) as (_ & F).
    cbv zeta in F. exact (F _ S Q1).
Qed.

Lemma getProduct_by_reply_scenario :
  statusOf (fst (getProduct echoDot
                   (sampleWorld
                      (sampleEnv [] []
                         (scrapeReply echoDot (Responded 404 echoPage)))
                      epoch0 [] []))) = 404
  /\ statusOf (fst (getProduct echoDot
                      (sampleWorld
                         (sampleEnv [] []
                            (scrapeReply echoDot (Responded 200 echoPage)))
                         epoch0 [] []))) = 200.
Proof.
  split.
  - destruct (@getProduct_by_reply echoDot
                (sampleWorld
                   (sampleEnv [] []
                      (scrapeReply echoDot (Responded 404 echoPage)))
                   epoch0 [] [])
                (Responded 404 echoPage) eq_refl eq_refl
                (or_introl eq_refl) eq_refl) as (H & _).
    exact (H echoPage eq_refl).
  - destruct (@getProduct_by_reply echoDot
                (sampleWorld
                   (sampleEnv [] []
                      (scrapeReply echoDot (Responded 200 echoPage)))
                   epoch0 [] [])
                (Responded 200 echoPage) eq_refl eq_refl
                (or_introl eq_refl) eq_refl) as (_ & _ & _ & _ & H).
    destruct (H echoPage (js "Echo Dot (4th Gen) smart speaker") eq_refl
                eq_refl ltac:(cbn; lia) eq_refl) as (data & _ & _ & E).
    cbv zeta in E. now rewrite E.
Defined.

(** ** The identifier check of the product route *)

Lemma getProduct_valid_not_refused (asin : jsstring) :
  isValidASIN (JStr asin) = true ->
  returnsOnly (fun r => r <> invalidAsin) (getProduct asin).
Proof.
  intros V. unfold getProduct, json, fail. rewrite V. cbn [negb]. cbv zeta.
  apply returnsOnly_tryCatch.
  - returns_with ltac:(discriminate).
  - intros m. returns_with ltac:(discriminate).
Qed.

(** X7. The product route answers [Invalid ASIN format] exactly for the
    identifiers that [isValidASIN] rejects, and then before it touches
    anything: no query, no page request, the world is left as it was.  A
    valid identifier never gets this answer, whatever the database and
    the scraper do. *)
Theorem getProduct_invalid_asin (asin : jsstring) (w : World) :
  (isValidASIN (JStr asin) = false ->
   getProduct asin w = (Returned invalidAsin, w))
  /\ (isValidASIN (JStr asin) = true ->
      fst (getProduct asin w) <> Returned invalidAsin).
Proof.
  split; intros V.
  - unfold getProduct. rewrite V. reflexivity.
  - pose proof (getProduct_valid_not_refused asin V) as R.
    destruct (getProduct asin w) as [[r|m] w'] eqn:E; [|discriminate].
    cbn [fst]. intros [= ->]. exact (R _ _ _ E eq_refl).
Qed.

Lemma getProduct_invalid_asin_scenario :
  getProduct (js "b08n5wrwnw") (storeWorld (hours 1) None [])
  = (Returned invalidAsin, storeWorld (hours 1) None [])
  /\ fst (getProduct echoDot (storeWorld (hours 1) None []))
     <> Returned invalidAsin.
Proof.
  split.
  - apply (proj1 (getProduct_invalid_asin _ _)). reflexivity.
  - apply (proj2 (getProduct_invalid_asin _ _)). reflexivity.
Defined.

(** ** The form and the server agree on identifiers *)

(** X23. The form of the browser sends a product request exactly when the
    input is not blank and its upper-cased form is an identifier that the
    server's [isValidASIN] accepts; what it sends is that upper-cased
    form.  So a request sent by the form reaches the product handler and
    is never answered [Invalid ASIN format]. *)
Theorem form_requests_are_valid (toUpperCase : jsstring -> jsstring)
  (input : jsstring) :
  (forall asin,
     handleASINSubmit toUpperCase input = RequestProduct asin <->
     (trim input <> [] /\ asin = toUpperCase input
      /\ isValidASIN (JStr asin) = true))
  /\ (forall asin w,
        handleASINSubmit toUpperCase input = RequestProduct asin ->
        dispatch productRoutes GET [asin]
        = Some (ProductGet, [(js "asin", asin)])
        /\ fst (getProduct asin w) <> Returned invalidAsin).
Proof.
  assert (V : forall s, asinRegexTest s = isValidASIN (JStr s)).
  { intros s. unfold asinRegexTest, isValidASIN, matchesUpperAlnum.
    destruct (length s =? 10) eqn:L; [|reflexivity]. cbn [andb].
    destruct s; [discriminate|reflexivity]. }
  assert (K : forall asin,
             handleASINSubmit toUpperCase input = RequestProduct asin <->
             (trim input <> [] /\ asin = toUpperCase input
              /\ isValidASIN (JStr asin) = true)).
  { intros asin. unfold handleASINSubmit, validateASIN. rewrite V.
    destruct (trim input) as [|c r] eqn:T; cbn [nonEmpty negb].
    - split; [discriminate|]. now intros (H & _).
    - destruct (isValidASIN (JStr (toUpperCase input))) eqn:I; cbn [negb].
      + split.
        * intros [= <-]. repeat split; [discriminate|exact I].
        * intros (_ & -> & _). reflexivity.
      + split; [discriminate|]. intros (_ & -> & I'). congruence. }
  split; [exact K|].
  intros asin w H. apply K in H as (_ & _ & I). split; [reflexivity|].
  pose proof (getProduct_valid_not_refused asin I) as R.
  destruct (getProduct asin w) as [[r|m] w'] eqn:E; [|discriminate].
  cbn [fst]. intros [= ->]. exact (R _ _ _ E eq_refl).
Qed.

Lemma form_requests_are_valid_scenario :
  handleASINSubmit asciiUpper (js "b08n5wrwnw") = RequestProduct echoDot
  /\ fst (getProduct echoDot (storeWorld (hours 1) None []))
     <> Returned invalidAsin.
Proof.
  split; [reflexivity|].
  apply (proj2 (form_requests_are_valid asciiUpper (js "b08n5wrwnw"))
           echoDot (storeWorld (hours 1) None [])).
  reflexivity.
Defined.

(** ** The two readers of the keyword column *)

(** X24. On a column that comes back as text, the reader of the
    optimisation route and the reader of the history routes return the
    same value whenever [JSON.parse] accepts the text; when it does not,
    both return keywords, and those of the optimisation route are those of
    the history routes without the empty ones. *)
Theorem keyword_readers_agree (s : jsstring) :
  match Json.parse (if nonEmpty s then s else js "[]") with
  | Some v =>
      cachedSuggestedKeywords (PayText s) = v
      /\ historySuggestedKeywords (PayText s) = v
  | None =>
      exists l,
        historySuggestedKeywords (PayText s) = strings l
        /\ cachedSuggestedKeywords (PayText s) = strings (filter nonEmpty l)
  end.
Proof.
  unfold cachedSuggestedKeywords, historySuggestedKeywords.
  cbn [payloadTruthy payloadString].
  destruct (Json.parse (if nonEmpty s then s else js "[]")) as [v|] eqn:E;
    [split; reflexivity|].
  destruct (nonEmpty s) eqn:N; [|vm_compute in E; discriminate].
  cbv zeta. rewrite N.
  destruct (bracketed s) eqn:B.
  - rewrite E. eexists. split; reflexivity.
  - destruct (includes s [comma]) eqn:I.
    + eexists. split; reflexivity.
    + assert (F : ~ In comma s).
      { intros H. apply includes_single_true in H. congruence. }
      rewrite (split_free comma s F). cbn [List.map].
      exists [trim s]. split; [reflexivity|].
      cbn [filter]. destruct (nonEmpty (trim s)); reflexivity.
Qed.

(** ** The colour shown for a score *)

(** X25. The colour the browser gives to a score computed by
    [calculateOptimizationScore]: green exactly when the bullet, the
    description and the keyword rule all hold; amber exactly when the
    title rule holds together with two of these three, not all; red in
    every other case. *)
Theorem score_colour (original generated : Listing) :
  let colour :=
    getScoreColor (score (calculateOptimizationScore original generated)) in
  let t := titleRule original generated in
  let b := bulletRule original generated in
  let d := descriptionRule original generated in
  let k := keywordRule generated in
  (colour = green <-> b && d && k = true)
  /\ (colour = amber <->
      t && negb (b && d && k) && ((b && d) || (b && k) || (d && k)) = true)
  /\ (colour = red <->
      negb (b && d && k)
      && negb (t && ((b && d) || (b && k) || (d && k))) = true).
Proof.
  cbv zeta. rewrite score_unfold. cbn [score]. unfold ruleSum.
  destruct (titleRule original generated),
           (bulletRule original generated),
           (descriptionRule original generated),
           (keywordRule generated);
    vm_compute; repeat split; intros; congruence.
Qed.

(** ** What the batch address of the optimisation router answers *)

(** X26. A POST to [/batch] of the optimisation router runs the handler
    for one identifier on the word [batch]; as long as the product table
    holds valid identifiers only, it is answered 404 [Product not found]
    after one look-up, without any call of the engine. *)
Theorem optimize_batch_answers_not_found (w : World) :
  dbFault (env w) (queries w) = None ->
  (forall p, In p (products (db w)) -> isValidASIN (JStr (p_asin p)) = true) ->
  exists handler,
    optimizeHandlerFor POST [js "batch"] = Some handler
    /\ handler w = (Returned productNotFound, countQuery w)
    /\ optimizer (countQuery w) = optimizer w.
Proof.
  intros Q0 Valid. exists (optimizeRoute (js "batch")).
  split; [reflexivity|]. split; [|reflexivity].
  unfold optimizeRoute.
  rewrite tryCatch_bind, (selectProduct_ok (js "batch") w Q0).
  rewrite (@storedProduct_none w (js "batch")); [reflexivity|].
  intros p Hp E. specialize (Valid p Hp). rewrite E in Valid.
  discriminate.
Qed.

Lemma optimize_batch_answers_not_found_scenario :
  exists handler,
    optimizeHandlerFor POST [js "batch"] = Some handler
    /\ handler (storeWorld (hours 1) None [])
       = (Returned productNotFound, countQuery (storeWorld (hours 1) None [])).
Proof.
  destruct (@optimize_batch_answers_not_found (storeWorld (hours 1) None [])
              eq_refl) as (handler & H1 & H2 & _).
  - intros p [<-|[]]. reflexivity.
  - exists handler. split; assumption.
Defined.

(** ** Keywords that the driver hands over as an array *)

Module NumberFacts.
Import Json.

Lemma isDigit_not_comma (c : N) : isDigit c = true -> c <> comma.
Proof.
  unfold isDigit, comma. rewrite andb_true_iff, !N.leb_le. lia.
Qed.

Lemma takeDigits_prefix (s : jsstring) :
  exists a, s = a ++ snd (takeDigits s) /\ ~ In comma a.
Proof.
  induction s as [|c r (a & E & F)]; [exists []; split; [reflexivity|tauto]|].
  cbn [takeDigits]. destruct (isDigit c) eqn:D.
  - destruct (takeDigits r) as [ds rest]. cbn [snd] in *.
    exists (c :: a). split; [cbn; now rewrite <- E|].
    intros [H|H]; [|tauto]. exact (@isDigit_not_comma c D H).
  - exists []. split; [reflexivity|tauto].
Qed.

Lemma prefix_step (s s' rest a a' : jsstring) :
  s = a ++ s' -> ~ In comma a -> s' = a' ++ rest -> ~ In comma a' ->
  exists b, s = b ++ rest /\ ~ In comma b.
Proof.
  intros -> Fa -> Fa'. exists (a ++ a'). split; [now rewrite app_assoc|].
  intros H. apply in_app_or in H. tauto.
Qed.

Lemma lexInt_prefix (s : jsstring) (ds : list Z) (rest : jsstring) :
  lexInt s = Some (ds, rest) ->
  exists a, s = a ++ rest /\ ~ In comma a.
Proof.
  destruct s as [|c r]; [discriminate|]. unfold lexInt.
  destruct (c =? 48)%N eqn:Z0.
  - intros [= _ <-]. exists [c]. split; [reflexivity|].
    apply N.eqb_eq in Z0. subst. intros [H|[]]. discriminate.
  - destruct (isDigit c) eqn:D; [|discriminate].
    destruct (takeDigits_prefix (c :: r)) as (a & E & F).
    destruct (takeDigits (c :: r)) as [ds' rest']. cbn [snd] in E.
    intros [= _ <-]. exists a. split; assumption.
Qed.

Lemma lexFrac_prefix (s : jsstring) (ds : list Z) (rest : jsstring) :
  lexFrac s = Some (ds, rest) ->
  exists a, s = a ++ rest /\ ~ In comma a.
Proof.
  destruct s as [|c r];
    [intros [= _ <-]; exists []; split; [reflexivity|tauto]|].
  unfold lexFrac. destruct (c =? 46)%N eqn:P.
  - destruct (takeDigits_prefix r) as (a & E & F).
    destruct (takeDigits r) as [[|d ds'] rest']; [discriminate|].
    cbn [snd] in E. intros [= _ <-]. exists (c :: a).
    split; [cbn; now rewrite <- E|].
    apply N.eqb_eq in P. subst c. intros [H|H]; [discriminate|tauto].
  - intros [= _ <-]. exists []. split; [reflexivity|tauto].
Qed.

Lemma lexExp_prefix (s : jsstring) (e : Z) (rest : jsstring) :
  lexExp s = Some (e, rest) ->
  exists a, s = a ++ rest /\ ~ In comma a.
Proof.
  destruct s as [|c r];
    [intros [= _ <-]; exists []; split; [reflexivity|tauto]|].
  unfold lexExp.
  destruct ((c =? 101) || (c =? 69))%N eqn:Ec;
    [|intros [= _ <-]; exists []; split; [reflexivity|tauto]].
  assert (Hc : c <> comma).
  { apply orb_true_iff in Ec as [Ec|Ec]; apply N.eqb_eq in Ec; subst;
      discriminate. }
  assert (G : forall sign r1 b,
             r = b ++ r1 -> ~ In comma b ->
             match takeDigits r1 with
             | ([], _) => None
             | ((_ :: _) as ds, rest0) =>
                 Some ((sign * digitsValue ds)%Z, rest0)
             end = Some (e, rest) ->
             exists a, c :: r = a ++ rest /\ ~ In comma a).
  { intros sign r1 b Er Fb.
    destruct (takeDigits_prefix r1) as (a & E & F).
    destruct (takeDigits r1) as [[|d ds'] rest']; [discriminate|].
    cbn [snd] in E. intros [= _ <-].
    exists (c :: b ++ a). split.
    - cbn. rewrite Er, E. now rewrite <- app_assoc.
    - intros [H|H]; [congruence|]. apply in_app_or in H. tauto. }
  destruct r as [|d r']; [apply (G _ _ []); [reflexivity|tauto]|].
  destruct (d =? 45)%N eqn:Em.
  { apply (G _ _ [d]); [reflexivity|].
    apply N.eqb_eq in Em. subst. intros [H|[]]. discriminate. }
  destruct (d =? 43)%N eqn:Ep.
  { apply (G _ _ [d]); [reflexivity|].
    apply N.eqb_eq in Ep. subst. intros [H|[]]. discriminate. }
  apply (G _ _ []); [reflexivity|tauto].
Qed.

Lemma lexNumber_prefix (s : jsstring) (q : Q) (rest : jsstring) :
  lexNumber s = Some (q, rest) ->
  exists a, s = a ++ rest /\ ~ In comma a.
Proof.
  unfold lexNumber.
  assert (G : forall sign s1 b,
             s = b ++ s1 -> ~ In comma b ->
             match lexInt s1 with
             | Some (ids, s2) =>
                 match lexFrac s2 with
                 | Some (fds, s3) =>
                     match lexExp s3 with
                     | Some (e, s4) =>
                         Some (scale10 (sign * digitsValue (ids ++ fds))
                                       (e - Z.of_nat (length fds)), s4)
                     | None => None
                     end
                 | None => None
                 end
             | None => None
             end = Some (q, rest) ->
             exists a, s = a ++ rest /\ ~ In comma a).
  { intros sign s1 b Es Fb.
    destruct (lexInt s1) as [[ids s2]|] eqn:I; [|discriminate].
    destruct (lexFrac s2) as [[fds s3]|] eqn:Fr; [|discriminate].
    destruct (lexExp s3) as [[e s4]|] eqn:Ex; [|discriminate].
    intros [= _ <-].
    apply lexInt_prefix in I as (a1 & E1 & F1).
    apply lexFrac_prefix in Fr as (a2 & E2 & F2).
    apply lexExp_prefix in Ex as (a3 & E3 & F3).
    destruct (@prefix_step _ _ _ _ _ Es Fb E1 F1) as (b1 & H1 & G1).
    destruct (@prefix_step _ _ _ _ _ H1 G1 E2 F2) as (b2 & H2 & G2).
    exact (@prefix_step _ _ _ _ _ H2 G2 E3 F3). }
  destruct s as [|c r]; [apply (G _ _ []); [reflexivity|tauto]|].
  destruct (c =? 45)%N eqn:Em.
  - apply (G _ _ [c]); [reflexivity|].
    apply N.eqb_eq in Em. subst. intros [H|[]]. discriminate.
  - apply (G _ _ []); [reflexivity|tauto].
Qed.

Lemma startsWith_prefix (s p : jsstring) :
  startsWith s p = true -> s = p ++ skipn (length p) s.
Proof.
  revert s. induction p as [|a p IH]; intros s H; [reflexivity|].
  destruct s as [|b s]; [discriminate|].
  cbn [startsWith] in H. apply andb_true_iff in H as (E & H).
  apply N.eqb_eq in E. subst b. cbn. now rewrite <- IH.
Qed.

Lemma comma_after_prefix (s a rest : jsstring) :
  s = a ++ rest -> ~ In comma a -> In comma s -> In comma rest.
Proof. intros -> F H. apply in_app_or in H. tauto. Qed.

Lemma skipWs_keeps_comma (s : jsstring) : In comma s -> skipWs s <> [].
Proof.
  induction s as [|c r IH]; [intros []|].
  cbn [skipWs]. destruct (isJsonWs c) eqn:W; [|discriminate].
  intros [H|H]; [subst; discriminate|now apply IH].
Qed.

(** A text that starts with neither white space, a quote, a bracket nor a
    brace and holds a comma is no JSON text. *)
Lemma parse_comma_text (c : N) (r : jsstring) :
  isJsonWs c = false -> c <> 34%N -> c <> 91%N -> c <> 123%N ->
  In comma (c :: r) ->
  parse (c :: r) = None.
Proof.
  intros W Hq Hb Hc Hin. unfold parse.
  destruct (parseValue (fuelFor (c :: r)) (c :: r)) as [v rest| |] eqn:E;
    try reflexivity.
  enough (K : In comma rest).
  { apply skipWs_keeps_comma in K. destruct (skipWs rest); congruence. }
  unfold fuelFor in E. cbn [length Nat.mul Nat.add] in E.
  rewrite Nat.add_comm in E. cbn [Nat.add parseValue skipWs] in E.
  rewrite W in E.
  apply N.eqb_neq in Hq, Hb, Hc. rewrite Hq, Hb, Hc in E.
  destruct (startsWith (c :: r) (js "true")) eqn:T.
  { injection E as _ <-. apply startsWith_prefix in T.
    refine (@comma_after_prefix _ _ _ T _ Hin). cbn. intuition discriminate. }
  destruct (startsWith (c :: r) (js "false")) eqn:Fa.
  { injection E as _ <-. apply startsWith_prefix in Fa.
    refine (@comma_after_prefix _ _ _ Fa _ Hin). cbn. intuition discriminate. }
  destruct (startsWith (c :: r) (js "null")) eqn:Nu.
  { injection E as _ <-. apply startsWith_prefix in Nu.
    refine (@comma_after_prefix _ _ _ Nu _ Hin). cbn. intuition discriminate. }
  destruct (lexNumber (c :: r)) as [[q rest']|] eqn:L; [|discriminate].
  injection E as _ <-.
  apply lexNumber_prefix in L as (a & Ea & Fa').
  exact (@comma_after_prefix _ _ _ Ea Fa' Hin).
Qed.

End NumberFacts.

Lemma trimStart_length (s : jsstring) : length (trimStart s) <= length s.
Proof.
  destruct (trimStart_split s) as (p & E & _).
  rewrite E at 2. rewrite length_app. lia.
Qed.

Lemma trimmed_head (c : N) (r : jsstring) :
  trim (c :: r) = c :: r -> isWhiteSpace c = false.
Proof.
  intros H. destruct (isWhiteSpace c) eqn:W; [|reflexivity].
  exfalso.
  assert (L : length (trim (c :: r)) <= length r).
  { unfold trim, trimEnd. rewrite length_rev.
    etransitivity; [apply trimStart_length|]. rewrite length_rev.
    cbn [trimStart]. rewrite W. apply trimStart_length. }
  rewrite H in L. cbn [length] in L. lia.
Qed.

(** X27. When the driver hands the column over as an array of two or more
    keywords as [generateKeywords] makes them (not empty, trimmed, without
    a comma), without quotes and not opening with a bracket or a brace,
    the optimisation route reads back exactly these keywords, while the
    history routes read back no keyword at all. *)
Theorem driver_arrays_read_back (x y : jsstring) (l : list jsstring) :
  Forall cleanKeyword (x :: y :: l) ->
  (forall r, x <> lbracket :: r) -> (forall r, x <> 123%N :: r) ->
  cachedSuggestedKeywords (PayList (x :: y :: l)) = strings (x :: y :: l)
  /\ historySuggestedKeywords (PayList (x :: y :: l)) = strings [].
Proof.
  intros Clean Hb Hc.
  set (text := join [comma] (x :: y :: l)).
  assert (Hin : In comma text) by apply join_has_sep.
  inversion Clean as [|? ? (Hne & Hnc & Htrim & Hq) _]; subst.
  destruct x as [|c r]; [congruence|].
  assert (T : text = c :: (r ++ [comma] ++ join [comma] (y :: l)))
    by reflexivity.
  assert (W : isWhiteSpace c = false) by exact (@trimmed_head _ _ Htrim).
  assert (P : Json.parse text = None).
  { rewrite T. apply NumberFacts.parse_comma_text.
    - destruct (Json.isJsonWs c) eqn:J; [|reflexivity].
      unfold Json.isJsonWs in J.
      repeat (apply orb_true_iff in J as [J|J]);
        apply N.eqb_eq in J; subst c; discriminate.
    - intros ->. unfold stripQuotes in Hq. cbn in Hq.
      apply (f_equal (@length N)) in Hq. cbn [length] in Hq.
      pose proof (filter_length_le
                    (fun c => negb ((c =? squote) || (c =? dquote))%N) r).
      lia.
    - intros ->. now apply (Hb r).
    - intros ->. now apply (Hc r).
    - rewrite <- T. exact Hin. }
  split.
  - unfold cachedSuggestedKeywords. cbn [payloadTruthy payloadString].
    fold text. rewrite P.
    replace (nonEmpty text) with true by now rewrite T.
    replace (bracketed text) with false.
    2:{ unfold bracketed. rewrite T. cbn [startsWith].
        destruct (lbracket =? c)%N eqn:E; [|reflexivity].
        apply N.eqb_eq in E. subst c. now destruct (Hb r). }
    replace (includes text [comma]) with true
      by (symmetry; now apply includes_single_true).
    unfold text. rewrite split_join.
    + rewrite map_fixed, filter_all; [reflexivity| |].
      * eapply Forall_impl; [|exact Clean]. intros k (Hk & _).
        now apply nonEmpty_true.
      * eapply Forall_impl; [|exact Clean]. now intros k (_ & _ & Hk & _).
    + eapply Forall_impl; [|exact Clean]. now intros k (_ & Hk & _).
  - unfold historySuggestedKeywords. cbn [payloadTruthy payloadString].
    fold text. now rewrite P.
Qed.

Lemma driver_arrays_read_back_scenario :
  cachedSuggestedKeywords (PayList [js "echo dot"; js "smart speaker"])
  = strings [js "echo dot"; js "smart speaker"]
  /\ historySuggestedKeywords (PayList [js "echo dot"; js "smart speaker"])
     = strings [].
Proof.
  apply driver_arrays_read_back; try discriminate.
  repeat constructor; try discriminate; try reflexivity;
    cbn; intros H; repeat (destruct H as [H|H]; [discriminate|]); exact H.
Defined.
